(** * Jarvis Web Agent: a shallow embedding of the orchestration core

    The development follows the Python sources module by module:

    - [Py]          the few Python built-ins the code relies on (string
                    predicates, truthiness, [str]/[int]/[hex] conversions,
                    a result type for raising calls, loguru records);
    - [Url]         the part of [urllib.parse.urlparse] that yields [netloc];
    - [Classifier]  [src/stealth/classifier.py];
    - [Config]      [src/config.py];
    - [Router]      [src/proxy/router.py];
    - [Fingerprint] [src/stealth/fingerprint.py];
    - [Pool]        [src/browser/pool.py];
    - [Browse]      [src/api/routes/browse.py];
    - [Queue]       [src/queue/manager.py];
    - [Jobs]        [src/api/routes/queue.py].

    Strings are byte strings; host names and mode strings are ASCII, so
    [str.lower] only touches the letters A-Z. *)

From Stdlib Require Import ZArith String Ascii List Bool Lia.
From Stdlib Require Import DecimalString HexadecimalString DecimalZ DecimalPos.
From Stdlib Require Import Sorting.Sorted.
From Stdlib Require Import QArith_base.
From stdpp Require Import gmap strings list.

Open Scope string_scope.
Open Scope list_scope.

(* ===================================================================== *)
(** * Python built-ins used by the sources *)
(* ===================================================================== *)

Module Py.

(** The outcome of a call that may raise: the value, or the message
    [str(e)] of the raised [Exception]. *)
Inductive result (A : Type) : Type :=
| Ok (a : A)
| Raise (msg : string).
Arguments Ok {A} a.
Arguments Raise {A} msg.

(** loguru levels and records, in emission order. *)
Inductive level : Type := DEBUG | INFO | WARNING | ERROR.

Definition log_record : Type := (level * string)%type.


(** [bool(s)] for a string, and for an optional string ([None] is falsy). *)
Definition truthy (s : string) : bool :=
  match s with EmptyString => false | String _ _ => true end.

Definition truthy_opt (o : option string) : bool :=
  match o with None => false | Some s => truthy s end.

(** [s.startswith(p)] *)
Definition startswith (s p : string) : bool := String.prefix p s.

(** [s.endswith(p)] *)
Definition endswith (s p : string) : bool :=
  let n := String.length s in
  let m := String.length p in
  (m <=? n)%nat && String.eqb (String.substring (n - m) m s) p.

(** [sub in s] *)
Fixpoint contains (sub s : string) : bool :=
  String.prefix sub s ||
  match s with
  | EmptyString => false
  | String _ s' => contains sub s'
  end.

(** [s[n:]] *)
Fixpoint drop (n : nat) (s : string) : string :=
  match n, s with
  | O, _ => s
  | S n', String _ s' => drop n' s'
  | S _, EmptyString => EmptyString
  end.

Definition is_upper (c : ascii) : bool :=
  let n := nat_of_ascii c in (65 <=? n)%nat && (n <=? 90)%nat.

Definition is_lower (c : ascii) : bool :=
  let n := nat_of_ascii c in (97 <=? n)%nat && (n <=? 122)%nat.

Definition is_digit (c : ascii) : bool :=
  let n := nat_of_ascii c in (48 <=? n)%nat && (n <=? 57)%nat.

Definition lower_char (c : ascii) : ascii :=
  if is_upper c then ascii_of_nat (nat_of_ascii c + 32) else c.

(** [s.lower()] *)
Fixpoint lower (s : string) : string :=
  match s with
  | EmptyString => EmptyString
  | String c s' => String (lower_char c) (lower s')
  end.

(** [c in s] for a single character. *)
Fixpoint mem_char (c : ascii) (s : string) : bool :=
  match s with
  | EmptyString => false
  | String d s' => Ascii.eqb c d || mem_char c s'
  end.

(** [str(n)] and [int(s)] on decimal integers. *)
Definition str_of_int (z : Z) : string :=
  DecimalString.NilZero.string_of_int (Z.to_int z).

Definition int_of_str (s : string) : option Z :=
  option_map Z.of_int (DecimalString.NilZero.int_of_string s).

(** [hex(n)] for [n >= 0]: lower-case digits after the ["0x"] prefix. *)
Definition hex (n : N) : string :=
  "0x" +:+ HexadecimalString.NilZero.string_of_uint (N.to_hex_uint n).

(** [int(s, 16)] on a bare digit string. *)
Definition int_of_hex (s : string) : option Z :=
  option_map (fun d => Z.of_N (N.of_hex_uint d))
             (HexadecimalString.NilZero.uint_of_string s).

(** ** Stateful, raising computations

    Python code that mutates an object and may raise is a function from
    the state to an outcome and the state left behind; a raised exception
    keeps the mutations made before it. *)

Definition M (S A : Type) : Type := S -> result A * S.

Definition ret {S A : Type} (a : A) : M S A := fun s => (Ok a, s).

Definition raise {S A : Type} (msg : string) : M S A :=
  fun s => (Raise msg, s).

Definition bind {S A B : Type} (c : M S A) (k : A -> M S B) : M S B :=
  fun s =>
    match c s with
    | (Ok a, s') => k a s'
    | (Raise e, s') => (Raise e, s')
    end.

(** [try: c  except Exception as e: h e] *)
Definition try_except {S A : Type} (c : M S A) (h : string -> M S A)
  : M S A :=
  fun s =>
    match c s with
    | (Ok a, s') => (Ok a, s')
    | (Raise e, s') => h e s'
    end.

(** [try: c  finally: f] *)
Definition try_finally {S A : Type} (c : M S A) (f : M S unit) : M S A :=
  fun s =>
    match c s with
    | (Ok a, s') =>
        match f s' with
        | (Ok _, s'') => (Ok a, s'')
        | (Raise e, s'') => (Raise e, s'')
        end
    | (Raise e, s') =>
        match f s' with
        | (Ok _, s'') => (Raise e, s'')
        | (Raise e', s'') => (Raise e', s'')
        end
    end.

Definition gets {S A : Type} (f : S -> A) : M S A := fun s => (Ok (f s), s).

Definition modify {S : Type} (f : S -> S) : M S unit :=
  fun s => (Ok tt, f s).

Notation "'let!' x ':=' c 'in' k" := (bind c (fun x => k))
  (at level 10, x name, c at level 100, k at level 200).
Notation "'do!' c 'in' k" := (bind c (fun _ => k))
  (at level 10, c at level 100, k at level 200).

(** ** JSON-like values ([Any] in the request and response models) *)

#[local] Unset Elimination Schemes.
Inductive json : Type :=
| JNull
| JBool (b : bool)
| JInt (z : Z)
| JFloat (q : Q)
| JStr (s : string)
| JList (l : list json)
| JDict (d : list (string * json)).
#[local] Set Elimination Schemes.

(** [v == s] for a string literal [s]. *)
Definition json_eq_str (v : json) (s : string) : bool :=
  match v with
  | JStr t => String.eqb t s
  | _ => false
  end.

(** ** The [random] module

    The generator is used through its interface only: every draw is a
    function of the generator state and returns the next state. Floats
    drawn from it are the rationals they denote. *)

Class PyRandom : Type := {
  rng : Type;
  (** [random.Random(seed)] for an integer seed *)
  Random_seeded : Z -> rng;
  (** [_randbelow(n)], a number below [n] *)
  randbelow : nat -> rng -> nat * rng;
  (** [random()], in [0, 1) *)
  random : rng -> Q * rng;
  (** [uniform(a, b)] *)
  uniform : Q -> Q -> rng -> Q * rng;
  (** [getrandbits(k)] *)
  getrandbits : nat -> rng -> N * rng;
  (** the index picked by [choices(population, weights=w)[0]] *)
  weighted_index : list Q -> rng -> nat * rng;
  (** [sample(population, k)] *)
  sample : forall A : Type, list A -> nat -> rng -> list A * rng
}.

(** The [json] module. *)
Class PyJson : Type := {
  json_dumps : json -> string;
  json_loads : string -> result json
}.

(** The [hashlib] digest the sources call. *)
Class PyHashlib : Type := {
  (** [hashlib.sha256(s.encode()).hexdigest()] *)
  sha256_hexdigest : string -> string
}.

(** A stand-in digest for running the code on concrete inputs: the same
    64 hexadecimal digits for every input. *)
Definition constant_hashlib : PyHashlib :=
  {| sha256_hexdigest := fun _ =>
       "e3b0c44298fc1c149afbf4c8996fb92427ae41e4649b934ca495991b7852b855" |}.

(** [choice(seq)] is [seq[_randbelow(len(seq))]]; it raises [IndexError]
    on an empty sequence. *)
Definition choice `{PyRandom} {A : Type} (seq : list A) (g : rng)
  : result A * rng :=
  match seq with
  | [] => (Raise "Cannot choose from an empty sequence", g)
  | a :: _ =>
      let '(i, g') := randbelow (List.length seq) g in
      (Ok (nth i seq a), g')
  end.

(** [randint(a, b)] is [a + _randbelow(b - a + 1)]. *)
Definition randint `{PyRandom} (a b : Z) (g : rng) : Z * rng :=
  let '(i, g') := randbelow (Z.to_nat (b - a + 1)) g in
  ((a + Z.of_nat i)%Z, g').

Definition Qltb (x y : Q) : bool := negb (Qle_bool y x).

(** A small generator for running the code on concrete inputs: its state
    is a counter, every draw is read off the counter and advances it. *)
Definition counter_random : PyRandom :=
  {| rng := N;
     Random_seeded := fun seed => Z.to_N (Z.abs seed);
     randbelow := fun n g => (N.to_nat (g mod N.of_nat n), N.succ g);
     random := fun g => (Z.of_N (g mod 10) # 10, N.succ g);
     uniform := fun a b g => (a, N.succ g);
     getrandbits := fun k g => (g mod 2 ^ N.of_nat k, N.succ g)%N;
     weighted_index := fun ws g =>
       (N.to_nat (g mod N.of_nat (List.length ws)), N.succ g);
     sample := fun A population k g => (take k population, N.succ g) |}.

End Py.

Import Py.

(* ===================================================================== *)
(** * urllib.parse: the network location of a URL *)
(* ===================================================================== *)

Module Url.

(** [scheme_chars]: letters, digits and ["+-."]. *)
Definition is_scheme_char (c : ascii) : bool :=
  is_lower c || is_upper c || is_digit c || mem_char c "+-.".

Definition is_alpha (c : ascii) : bool := is_lower c || is_upper c.

(** [url.lstrip(_WHATWG_C0_CONTROL_OR_SPACE)]: leading bytes up to 0x20. *)
Fixpoint lstrip_c0 (s : string) : string :=
  match s with
  | String c s' => if (nat_of_ascii c <=? 32)%nat then lstrip_c0 s' else s
  | EmptyString => EmptyString
  end.

(** Removal of the bytes of [_UNSAFE_URL_BYTES_TO_REMOVE] (tab, CR, LF). *)
Fixpoint remove_unsafe (s : string) : string :=
  match s with
  | EmptyString => EmptyString
  | String c s' =>
      let n := nat_of_ascii c in
      if (n =? 9)%nat || (n =? 10)%nat || (n =? 13)%nat
      then remove_unsafe s' else String c (remove_unsafe s')
  end.

(** [url.find(':')], with [None] for -1. *)
Fixpoint find_colon (s : string) : option nat :=
  match s with
  | EmptyString => None
  | String c s' =>
      if Ascii.eqb c ":" then Some O
      else option_map S (find_colon s')
  end.

Fixpoint all_chars (p : ascii -> bool) (s : string) : bool :=
  match s with
  | EmptyString => true
  | String c s' => p c && all_chars p s'
  end.

(** The scheme step of [urlsplit]: when [url[:i]] is a scheme, the rest
    after the colon; otherwise the URL itself. *)
Definition strip_scheme (url : string) : string :=
  match find_colon url, url with
  | Some (S i), String c0 _ =>
      if is_alpha c0 && all_chars is_scheme_char (String.substring 0 (S i) url)
      then drop (S (S i)) url
      else url
  | _, _ => url
  end.

(** [_splitnetloc(url, 2)]: the text between ["//"] and the first of
    ["/?#"]. The argument is the URL after the two slashes. *)
Fixpoint upto_delim (s : string) : string :=
  match s with
  | EmptyString => EmptyString
  | String c s' =>
      if mem_char c "/?#" then EmptyString else String c (upto_delim s')
  end.

(** [urlparse(url).netloc]. A network location is recognised only when it
    is introduced by ["//"]; a URL without it is all path and its
    [netloc] is empty. [None] is the [ValueError] of [urlsplit] on a
    malformed authority. An authority with a square bracket is always
    mapped to [None]: an unbalanced bracket raises in every CPython
    release, and the release-dependent validation of a bracketed IP
    literal is not modelled, so no statement below speaks about such
    URLs. *)
Definition netloc (url0 : string) : option string :=
  let url := strip_scheme (remove_unsafe (lstrip_c0 url0)) in
  if String.prefix "//" url then
    let loc := upto_delim (drop 2 url) in
    if mem_char "[" loc || mem_char "]" loc then None else Some loc
  else Some "".

End Url.

(* ===================================================================== *)
(** * src/stealth/classifier.py *)
(* ===================================================================== *)

Module Classifier.

Inductive ProtectionLevel : Type :=
| NONE | LOW | MEDIUM | HIGH | AUTHENTICATED.

Inductive SiteCategory : Type :=
| BANKING | MEDICAL | GOVERNMENT | ECOMMERCE | SOCIAL | NEWS | GENERAL
| INTERNAL.

(** The [.value] of the string enums. *)
Definition protection_value (p : ProtectionLevel) : string :=
  match p with
  | NONE => "none" | LOW => "low" | MEDIUM => "medium" | HIGH => "high"
  | AUTHENTICATED => "auth"
  end.

Definition category_value (c : SiteCategory) : string :=
  match c with
  | BANKING => "banking" | MEDICAL => "medical"
  | GOVERNMENT => "government" | ECOMMERCE => "ecommerce"
  | SOCIAL => "social" | NEWS => "news" | GENERAL => "general"
  | INTERNAL => "internal"
  end.

Record SiteClassification : Type := mkSiteClassification {
  domain : string;
  protection_level : ProtectionLevel;
  category : SiteCategory;
  requires_residential : bool;
  requires_session : bool;
  use_flaresolverr : bool;
  notes : option string
}.

(** The curated domain sets. Only membership tests run over them, so the
    iteration order of a Python [set] does not matter. *)
Definition HIGH_PROTECTION_DOMAINS : list string :=
  [ "cloudflare.com"; "discord.com"; "medium.com";
    "ticketmaster.com"; "stubhub.com"; "nike.com";
    "footlocker.com"; "hermes.com";
    "linkedin.com"; "indeed.com" ].

Definition MEDIUM_PROTECTION_DOMAINS : list string :=
  [ "reddit.com"; "stackoverflow.com"; "twitch.tv";
    "twitter.com"; "x.com"; "instagram.com"; "facebook.com" ].

Definition BANKING_DOMAINS : list string :=
  [ "chase.com"; "bankofamerica.com"; "wellsfargo.com"; "citi.com";
    "usbank.com"; "capitalone.com"; "discover.com"; "ally.com";
    "marcus.com"; "schwab.com"; "fidelity.com"; "vanguard.com";
    "etrade.com"; "robinhood.com" ].

Definition MEDICAL_DOMAINS : list string :=
  [ "mychart.com"; "followmyhealth.com"; "patientportal"; "myhealth";
    "portal.epic"; "athenahealth.com"; "labcorp.com";
    "questdiagnostics.com"; "cvs.com"; "walgreens.com" ].

Definition GOVERNMENT_DOMAINS : list string :=
  [ "ssa.gov"; "irs.gov"; "healthcare.gov"; "usa.gov"; "dmv.gov";
    "txdmv.gov"; "texas.gov"; "uscis.gov"; "state.gov" ].

Definition INTERNAL_DOMAINS : list string :=
  [ "stephenscode.dev"; "sacvpn.com"; "localhost"; "127.0.0.1" ].

(** [_matches_any]: exact match, dotted-suffix match, or substring. *)
Definition _matches_any (dom : string) (domain_set : list string) : bool :=
  existsb (fun d =>
             (String.eqb dom d || endswith dom ("." +:+ d))
             || contains d dom)
          domain_set.

Definition _classify_domain (dom : string) : SiteClassification :=
  if _matches_any dom INTERNAL_DOMAINS then
    mkSiteClassification dom NONE INTERNAL false false false
      (Some "Internal site - direct access")
  else if _matches_any dom BANKING_DOMAINS then
    mkSiteClassification dom AUTHENTICATED BANKING true true false
      (Some "Banking - use home IP, maintain session")
  else if _matches_any dom MEDICAL_DOMAINS then
    mkSiteClassification dom AUTHENTICATED MEDICAL true true false
      (Some "Medical - use home IP, maintain session")
  else if _matches_any dom GOVERNMENT_DOMAINS then
    mkSiteClassification dom MEDIUM GOVERNMENT true true false
      (Some "Government - use home IP")
  else if _matches_any dom HIGH_PROTECTION_DOMAINS then
    mkSiteClassification dom HIGH GENERAL true false true
      (Some "Heavy protection - may need FlareSolverr")
  else if _matches_any dom MEDIUM_PROTECTION_DOMAINS then
    mkSiteClassification dom MEDIUM SOCIAL true false false
      (Some "Standard Cloudflare - residential IP recommended")
  else
    mkSiteClassification dom LOW GENERAL false false false
      (Some "Standard site - stealth browser sufficient").

(** Classification objects live on the heap; [_cache] maps a domain to
    the address of its object, so that "the same object" is equality of
    addresses. A new object is allocated at the end of the heap. *)
Definition ref : Type := nat.

Record SiteClassifier : Type := mkSiteClassifier {
  heap : list SiteClassification;
  _cache : gmap string ref
}.

(** [SiteClassifier()] *)
Definition new_classifier : SiteClassifier := mkSiteClassifier [] ∅.

Definition alloc (c : SiteClassification) (self : SiteClassifier)
  : ref * list SiteClassification :=
  (List.length (heap self), heap self ++ [c]).

(** The cache key of a URL: [parsed.netloc.lower()] without a leading
    ["www."]. *)
Definition strip_www (dom : string) : string :=
  if startswith dom "www." then drop 4 dom else dom.

Definition normalized_domain (url : string) : option string :=
  option_map (fun loc => strip_www (lower loc)) (Url.netloc url).

(** [classify]: returns the address of the classification object. *)
Definition classify (url : string) (self : SiteClassifier)
  : result ref * SiteClassifier :=
  match normalized_domain url with
  | None => (Raise "Invalid IPv6 URL", self)
  | Some dom =>
      match _cache self !! dom with
      | Some r => (Ok r, self)
      | None =>
          let '(r, h) := alloc (_classify_domain dom) self in
          (Ok r, mkSiteClassifier h (<[dom := r]> (_cache self)))
      end
  end.

(** The keyword arguments of [add_classification]; an absent key is
    [None] and [kwargs.get] supplies the default. *)
Record kwargs : Type := mkKwargs {
  kw_requires_residential : option bool;
  kw_requires_session : option bool;
  kw_use_flaresolverr : option bool;
  kw_notes : option string
}.

Definition no_kwargs : kwargs := mkKwargs None None None None.

Definition override (dom : string) (pl : ProtectionLevel)
    (cat : SiteCategory) (kw : kwargs) : SiteClassification :=
  mkSiteClassification dom pl cat
    (default false (kw_requires_residential kw))
    (default false (kw_requires_session kw))
    (default false (kw_use_flaresolverr kw))
    (kw_notes kw).

Definition add_classification (dom : string) (pl : ProtectionLevel)
    (cat : SiteCategory) (kw : kwargs) (self : SiteClassifier)
  : SiteClassifier :=
  let '(r, h) := alloc (override dom pl cat kw) self in
  mkSiteClassifier h (<[dom := r]> (_cache self)).

(** The object a call returned, read back from the heap. *)
Definition deref (self : SiteClassifier) (r : result ref)
  : option SiteClassification :=
  match r with
  | Ok a => heap self !! a
  | Raise _ => None
  end.

(** [classify(url)] on a fresh classifier, as a value. *)
Definition classify_fresh (url : string) : option SiteClassification :=
  let '(r, self) := classify url new_classifier in deref self r.

(** Scenario B of the specification, for the argument given to
    [classify]. *)
Definition banking_scenario (arg : string) : Prop :=
  exists c,
    classify_fresh arg = Some c /\
    category c = BANKING /\
    protection_level c = AUTHENTICATED /\
    requires_residential c = true /\
    requires_session c = true.

(** The addresses in the cache point into the heap. *)
Definition cache_in_heap (self : SiteClassifier) : Prop :=
  forall k r, _cache self !! k = Some r -> r < List.length (heap self).

End Classifier.


(* ===================================================================== *)
(** * src/config.py *)
(* ===================================================================== *)

Module Config.
Import Py.

(** The settings read by the modelled code. *)
Record Settings : Type := mkSettings {
  HOME_PROXY_ENABLED : bool;
  HOME_PROXY_URL : option string;
  SACVPN_NODES : option string
}.

(** Text made of ASCII characters only, as addresses of nodes are. *)
Fixpoint ascii_text (s : string) : bool :=
  match s with
  | EmptyString => true
  | String c rest => (nat_of_ascii c <? 128)%nat && ascii_text rest
  end.

(** [c.isspace()] for an ASCII character: tab, line feed, vertical tab,
    form feed, carriage return, the separators 0x1c to 0x1f, and the
    space. On [ascii_text] these are the characters [str.strip()]
    removes; beyond ASCII it also removes U+0085, U+00A0 and the other
    Unicode blanks, which a byte string does not single out: what is
    stated of [strip] on a setting is stated of ASCII settings. *)
Definition is_space (c : ascii) : bool :=
  let n := nat_of_ascii c in
  ((9 <=? n)%nat && (n <=? 13)%nat) || ((28 <=? n)%nat && (n <=? 32)%nat).

(** [s.lstrip()], [s.rstrip()], [s.strip()] *)
Fixpoint lstrip (s : string) : string :=
  match s with
  | EmptyString => EmptyString
  | String c rest => if is_space c then lstrip rest else s
  end.

Fixpoint rstrip (s : string) : string :=
  match s with
  | EmptyString => EmptyString
  | String c rest =>
      match rstrip rest with
      | EmptyString => if is_space c then EmptyString else String c EmptyString
      | kept => String c kept
      end
  end.

Definition strip (s : string) : string := rstrip (lstrip s).

(** [s.split(sep)] for a one-character separator: never an empty list. *)
Fixpoint split (sep : ascii) (s : string) : list string :=
  match s with
  | EmptyString => [EmptyString]
  | String c rest =>
      if Ascii.eqb c sep then EmptyString :: split sep rest
      else match split sep rest with
           | part :: parts => String c part :: parts
           | [] => [String c EmptyString]
           end
  end.

(** The [sacvpn_node_list] property. *)
Definition sacvpn_node_list (st : Settings) : list string :=
  match SACVPN_NODES st with
  | None => []
  | Some nodes =>
      if negb (truthy nodes) then []
      else map strip
               (List.filter (fun node => truthy (strip node))
                            (split "," nodes))
  end.

(** An entry of the list as written: the node between two runs of
    blanks. *)
Definition written (e : string * string * string) : string :=
  fst (fst e) +:+ snd (fst e) +:+ snd e.

Definition node_of (e : string * string * string) : string := snd (fst e).

(** Blank paddings around a node that is stripped already (possibly empty),
    and no comma in any of them. *)
Definition well_written (e : string * string * string) : Prop :=
  strip (fst (fst e)) = "" /\ strip (snd e) = "" /\
  strip (node_of e) = node_of e /\
  mem_char "," (written e) = false.

(** A node: not empty, no blank at either end, no comma. *)
Definition clean_node (n : string) : Prop :=
  n <> "" /\ strip n = n /\ mem_char "," n = false.

(** What [strip] leaves: no blank at the front, none at the back; and
    the strings it empties. *)
Definition first_nonspace (s : string) : bool :=
  match s with
  | EmptyString => true
  | String c _ => negb (is_space c)
  end.

Fixpoint last_nonspace (s : string) : bool :=
  match s with
  | EmptyString => true
  | String c EmptyString => negb (is_space c)
  | String _ rest => last_nonspace rest
  end.

Fixpoint blank (s : string) : bool :=
  match s with
  | EmptyString => true
  | String c rest => is_space c && blank rest
  end.

(** A list as it may stand in the environment: an address, a padded
    address, and an entry left blank. *)
Definition example_entries : list (string * string * string) :=
  [ ("", "10.0.0.1:1080", ""); (" ", "10.0.0.2:1080", " "); ("  ", "", "") ].

End Config.

(* ===================================================================== *)
(** * src/proxy/router.py *)
(* ===================================================================== *)

Module Router.
Import Classifier.

Record ProxyRouter : Type := mkProxyRouter {
  _home_proxy : option string;
  _sacvpn_nodes : list string;
  _node_health : gmap string bool;
  _last_used_node : option string
}.

(** [ProxyRouter()]: the home endpoint is [HOME_PROXY_URL] when
    [HOME_PROXY_ENABLED], the nodes are [settings.sacvpn_node_list]. *)
Definition new_router (HOME_PROXY_ENABLED : bool)
    (HOME_PROXY_URL : option string) (sacvpn_node_list : list string)
  : ProxyRouter :=
  mkProxyRouter (if HOME_PROXY_ENABLED then HOME_PROXY_URL else None)
                sacvpn_node_list ∅ None.

Section WithRandom.
Context `{PyRandom}.

(** What a call can read and change: the router object, the generator
    behind [random.choice], and the log sink. *)
Record State : Type := mkState {
  self : ProxyRouter;
  random_state : rng;
  logs : list log_record
}.

Definition log (l : level) (msg : string) : M State unit :=
  modify (fun s => mkState (self s) (random_state s) (logs s ++ [(l, msg)])).

Definition random_choice {A : Type} (seq : list A) : M State A :=
  fun s =>
    let '(r, g) := choice seq (random_state s) in
    (r, mkState (self s) g (logs s)).

Definition set_last_used_node (node : string) : M State unit :=
  modify (fun s =>
            mkState (mkProxyRouter (_home_proxy (self s))
                                   (_sacvpn_nodes (self s))
                                   (_node_health (self s))
                                   (Some node))
                    (random_state s) (logs s)).

Definition _is_internal (dom : string) : bool :=
  existsb (fun d => contains d dom)
          ["stephenscode.dev"; "sacvpn.com"; "localhost"; "127.0.0.1"].

Definition _auto_select (dom : string)
    (site_classification : option SiteClassification)
  : M State (option string) :=
  let! home := gets (fun s => _home_proxy (self s)) in
  match site_classification with
  | None =>
      if _is_internal dom then ret None
      else ret home
  | Some c =>
      if String.eqb (category_value (category c)) "internal" then ret None
      else if requires_residential c then
        if truthy_opt home then
          do! log DEBUG ("Using home proxy for " +:+ dom +:+
                         " (residential required)") in
          ret home
        else
          do! log WARNING ("Home proxy required for " +:+ dom +:+
                           " but not available") in
          ret None
      else
        let low_or_default :=
          match protection_level c with
          | NONE => ret None
          | _ => ret home
          end in
        match protection_level c with
        | HIGH | MEDIUM => if truthy_opt home then ret home else low_or_default
        | _ => low_or_default
        end
  end.

Definition _get_sacvpn_node : M State (option string) :=
  let! nodes := gets (fun s => _sacvpn_nodes (self s)) in
  match nodes with
  | [] =>
      do! log WARNING "No SACVPN nodes configured" in
      ret None
  | _ =>
      let! health := gets (fun s => _node_health (self s)) in
      let healthy0 :=
        List.filter (fun node => default true (health !! node)) nodes in
      let! healthy :=
        match healthy0 with
        | [] =>
            do! log WARNING "No healthy SACVPN nodes available" in
            ret nodes
        | _ => ret healthy0
        end in
      let! last := gets (fun s => _last_used_node (self s)) in
      let available0 :=
        List.filter
          (fun n => negb (match last with
                          | Some l => String.eqb n l
                          | None => false
                          end)) healthy in
      let available :=
        match available0 with [] => healthy | _ => available0 end in
      let! node := random_choice available in
      do! set_last_used_node node in
      ret (Some ("socks5://" +:+ node))
  end.

Definition _rotate_proxy : M State (option string) :=
  let! home := gets (fun s => _home_proxy (self s)) in
  let! nodes := gets (fun s => _sacvpn_nodes (self s)) in
  let all_proxies :=
    (match home with
     | Some h => if truthy h then [h] else []
     | None => []
     end) ++ map (fun node => "socks5://" +:+ node) nodes in
  match all_proxies with
  | [] => ret None
  | _ => let! p := random_choice all_proxies in ret (Some p)
  end.

Definition select (url : string) (mode : string)
    (site_classification : option SiteClassification)
  : M State (option string) :=
  match Url.netloc url with
  | None => raise "Invalid IPv6 URL"
  | Some loc =>
      let dom := lower loc in
      if String.eqb mode "direct" then ret None
      else if String.eqb mode "home" then
        gets (fun s => _home_proxy (self s))
      else if String.eqb mode "sacvpn" then _get_sacvpn_node
      else if String.eqb mode "rotate" then _rotate_proxy
      else if String.eqb mode "auto" then
        _auto_select dom site_classification
      else
        do! log WARNING ("Unknown proxy mode: " +:+ mode +:+
                         ", using direct") in
        ret None
  end.

(** [self._node_health.get(node, True)]: a node never probed counts as
    healthy. *)
Definition is_healthy (st : State) (node : string) : bool :=
  default true (_node_health (self st) !! node).

(** The nodes [_get_sacvpn_node] may return: the healthy ones, or all of
    them when none is healthy. *)
Definition eligible (st : State) (node : string) : Prop :=
  In node (_sacvpn_nodes (self st)) /\
  (is_healthy st node = true \/
   forall m, In m (_sacvpn_nodes (self st)) -> is_healthy st m = false).

End WithRandom.

(** "The filtered list, or the whole list when the filter leaves nothing":
    the idiom [_get_sacvpn_node] uses twice. *)
Definition filtered_or_all {A : Type} (f : A -> bool) (l : list A)
  : list A :=
  match List.filter f l with
  | [] => l
  | x :: rest => x :: rest
  end.

(** The modes [select] documents. *)
Definition known_modes : list string :=
  ["auto"; "home"; "sacvpn"; "direct"; "rotate"].



(** A router with a residential endpoint and two nodes, before any call,
    and one whose residential endpoint is disabled. *)
Definition example_state : @State counter_random :=
  @mkState counter_random
           (new_router true (Some "http://home.example:3128")
                       ["10.0.0.1:1080"; "10.0.0.2:1080"])
           0%N [].


End Router.

(* ===================================================================== *)
(** * src/stealth/fingerprint.py *)
(* ===================================================================== *)

Module Fingerprint.

Record Viewport : Type := mkViewport { width : Z; height : Z }.

Record Screen : Type := mkScreen {
  s_width : Z;
  s_height : Z;
  s_screen_width : Z;
  s_screen_height : Z;
  s_color_depth : Z;
  s_device_scale_factor : Q
}.

(** The dictionary [generate] returns, key by key. *)
Record Fingerprint : Type := mkFingerprint {
  viewport : Viewport;
  screen_width : Z;
  screen_height : Z;
  color_depth : Z;
  device_scale_factor : Q;
  user_agent : string;
  chrome_version : string;
  hardware_concurrency : Z;
  device_memory : Z;
  webgl_vendor : string;
  webgl_renderer : string;
  fonts : list string;
  timezone : string;
  has_touch : bool;
  is_mobile : bool;
  languages : list string;
  platform : string;
  canvas_seed : string;
  audio_context_noise : Q
}.

Definition SCREEN_RESOLUTIONS : list (Z * Z * Q) :=
  [ (1920, 1080, 35 # 100); (1366, 768, 20 # 100); (1536, 864, 10 # 100);
    (1440, 900, 8 # 100); (1280, 720, 7 # 100); (2560, 1440, 6 # 100);
    (1680, 1050, 5 # 100); (1600, 900, 4 # 100); (3840, 2160, 3 # 100);
    (2560, 1080, 2 # 100) ]%Z.

Definition CHROME_VERSIONS : list string :=
  [ "120.0.0.0"; "119.0.0.0"; "118.0.0.0"; "121.0.0.0" ].

Definition WEBGL_RENDERERS : list (string * string) :=
  [ ("Intel Inc.", "Intel Iris OpenGL Engine");
    ("Google Inc. (Intel)",
     "ANGLE (Intel, Intel(R) UHD Graphics 630 Direct3D11 vs_5_0 ps_5_0)");
    ("Google Inc. (NVIDIA)",
     "ANGLE (NVIDIA, NVIDIA GeForce GTX 1060 6GB Direct3D11 vs_5_0 ps_5_0)");
    ("Google Inc. (AMD)",
     "ANGLE (AMD, AMD Radeon RX 580 Series Direct3D11 vs_5_0 ps_5_0)");
    ("Intel Inc.", "Intel(R) UHD Graphics 620") ].

Definition COMMON_FONTS : list string :=
  [ "Arial"; "Verdana"; "Times New Roman"; "Georgia"; "Courier New";
    "Trebuchet MS"; "Comic Sans MS"; "Impact"; "Arial Black";
    "Lucida Console"; "Tahoma"; "Palatino Linotype"; "Segoe UI" ].

Section WithRuntime.
Context `{PyRandom} `{PyHashlib}.

(** A draw from the generator, as a computation over its state. *)
Definition draw {A : Type} (f : rng -> A * rng) : M rng A :=
  fun g => let '(a, g') := f g in (Ok a, g').

Definition rng_choice {A : Type} (seq : list A) : M rng A :=
  fun g => choice seq g.

(** [rng.choices(population, weights=w)[0]] *)
Definition rng_choices_first {A : Type} (population : list A)
    (weights : list Q) : M rng A :=
  let! i := draw (weighted_index weights) in
  match nth_error population i with
  | Some a => ret a
  | None => raise "list index out of range"
  end.

Definition _generate_screen : M rng Screen :=
  let weights := map (fun r => snd r) SCREEN_RESOLUTIONS in
  let resolutions := map (fun r => fst r) SCREEN_RESOLUTIONS in
  let! wh := rng_choices_first resolutions weights in
  let '(w, h) := wh in
  let screen_width := w in
  let screen_height := h in
  let! chrome := draw (randint 70 120) in
  let viewport_height := (h - chrome)%Z in
  let! dpr :=
    if (2560 <=? w)%Z
    then rng_choice [1 # 1; 125 # 100; 15 # 10; 2 # 1]
    else ret (1 # 1) in
  ret (mkScreen w viewport_height screen_width screen_height 24 dpr).

Definition _generate_user_agent (chrome_version : string) : M rng string :=
  let! x := draw random in
  let! platform :=
    if Qltb (3 # 10) x then ret "Windows NT 10.0; Win64; x64"
    else
      let mac_versions :=
        ["10_15_7"; "11_6_0"; "12_4_0"; "13_1_0"; "14_0_0"] in
      let! mac_ver := rng_choice mac_versions in
      ret ("Macintosh; Intel Mac OS X " +:+ mac_ver) in
  ret ("Mozilla/5.0 (" +:+ platform +:+ ") " +:+
       "AppleWebKit/537.36 (KHTML, like Gecko) " +:+
       "Chrome/" +:+ chrome_version +:+ " Safari/537.36").

Definition _select_fonts : M rng (list string) :=
  let fonts := ["Arial"; "Times New Roman"; "Courier New"] in
  let others :=
    List.filter (fun f => negb (existsb (String.eqb f) fonts))
                COMMON_FONTS in
  let! k := draw (randint 5 10) in
  let! additional := draw (sample string others (Z.to_nat k)) in
  ret (fonts ++ additional).

(** The generator [generate] draws from: seeded from the first eight hex
    digits of the SHA-256 of a truthy identity, otherwise the freshly
    seeded generator [fresh] that [random.Random()] builds from operating
    system entropy at this call. *)
Definition make_rng (fresh : rng) (identity : option string)
  : result rng :=
  if truthy_opt identity then
    match int_of_hex
            (String.substring 0 8 (sha256_hexdigest (default "" identity)))
    with
    | Some seed => Ok (Random_seeded seed)
    | None => Raise "invalid literal for int() with base 16"
    end
  else Ok fresh.

Definition generate_with (default_timezone : string)
    (identity : option string) : M rng Fingerprint :=
  let! screen := _generate_screen in
  let! chrome_version := rng_choice CHROME_VERSIONS in
  let! webgl := rng_choice WEBGL_RENDERERS in
  let! user_agent := _generate_user_agent chrome_version in
  let! hardware_concurrency := rng_choice [4; 8; 12; 16]%Z in
  let! device_memory := rng_choice [4; 8; 16; 32]%Z in
  let! fonts := _select_fonts in
  let! touch := draw random in
  let! plat := draw random in
  let! canvas_seed :=
    if truthy_opt identity then ret (default "" identity)
    else let! bits := draw (getrandbits 64) in ret (hex bits) in
  let! noise := draw (uniform (1 # 10000) (1 # 1000)) in
  ret (mkFingerprint
         (mkViewport (s_width screen) (s_height screen))
         (s_screen_width screen) (s_screen_height screen)
         (s_color_depth screen) (s_device_scale_factor screen)
         user_agent chrome_version
         hardware_concurrency device_memory
         (fst webgl) (snd webgl)
         fonts
         default_timezone
         (Qltb touch (1 # 10)) false
         ["en-US"; "en"]
         (if Qltb (3 # 10) plat then "Win32" else "MacIntel")
         canvas_seed
         noise).

(** [FingerprintGenerator(default_timezone).generate(identity)] *)
Definition generate (default_timezone : string) (fresh : rng)
    (identity : option string) : result Fingerprint :=
  match make_rng fresh identity with
  | Ok g => fst (generate_with default_timezone identity g)
  | Raise e => Raise e
  end.

(** [f"{base_identity}_{i}"] *)
Definition family_identity (base_identity : string) (i : nat) : string :=
  base_identity +:+ "_" +:+ str_of_int (Z.of_nat i).

(** The loop of [generate_family] over the indices still to do; [fresh i]
    is the generator an unseeded [random.Random()] would build at call
    [i]. The first call that raises ends the loop. *)
Fixpoint generate_each (default_timezone : string) (fresh : nat -> rng)
    (base_identity : string) (indices : list nat)
  : result (list Fingerprint) :=
  match indices with
  | [] => Ok []
  | i :: rest =>
      match generate default_timezone (fresh i)
                     (Some (family_identity base_identity i)) with
      | Raise e => Raise e
      | Ok fp =>
          match generate_each default_timezone fresh base_identity rest with
          | Raise e => Raise e
          | Ok fps => Ok (fp :: fps)
          end
      end
  end.

(** [generate_family(base_identity, count)]; [range(count)] is empty for a
    count below 1. *)
Definition generate_family (default_timezone : string) (fresh : nat -> rng)
    (base_identity : string) (count : Z) : result (list Fingerprint) :=
  generate_each default_timezone fresh base_identity
                (List.seq 0 (Z.to_nat count)).

(** The determinism the specification asks of a seed string: any two calls
    agree on every attribute, whatever generator an unseeded
    [random.Random()] would have produced at each call, and the canvas-noise
    seed of the fingerprint is the seed string. *)
Definition deterministic_for (default_timezone : string) (seed : string)
  : Prop :=
  forall fresh1 fresh2 : rng,
    generate default_timezone fresh1 (Some seed)
    = generate default_timezone fresh2 (Some seed) /\
    (forall fp,
        generate default_timezone fresh1 (Some seed) = Ok fp ->
        canvas_seed fp = seed).

End WithRuntime.

End Fingerprint.

(* ===================================================================== *)
(** * src/browser/pool.py *)
(* ===================================================================== *)

Module Pool.

(** The fields of [BrowserPool] that [acquire] and [status] touch.
    [_semaphore] is the counter of the [asyncio.Semaphore]: a task is let
    in only while it is positive, which decrements it, and [release]
    increments it. *)
Record BrowserPool : Type := mkBrowserPool {
  max_browsers : Z;
  _semaphore : Z;
  _active_count : Z;
  _total_requests : Z;
  _initialized : bool
}.

(** [BrowserPool(max_browsers)]; [asyncio.Semaphore] refuses a negative
    initial value. *)
Definition new_pool (max_browsers : Z) : result BrowserPool :=
  if (max_browsers <? 0)%Z
  then Raise "Semaphore initial value must be >= 0"
  else Ok (mkBrowserPool max_browsers max_browsers 0 0 false).

(** How the block under [async with pool.acquire()] ends. *)
Inductive outcome : Type := Returned | Raised.

(** Where a task stands with respect to [acquire]. *)
Inductive pc : Type :=
| Outside                 (* has not called [acquire] yet *)
| Waiting                 (* suspended on [async with self._semaphore] *)
| Granted                 (* given a slot by the semaphore, not resumed yet *)
| Initializing            (* counted; awaiting [self.initialize()] *)
| InBody                  (* suspended at [yield]: the caller's block runs *)
| Exited (o : outcome).   (* left the [async with] statement *)

(** A task holds a lease from [_active_count += 1] to the [finally]. *)
Definition holds_lease (p : pc) : bool :=
  match p with
  | Initializing | InBody => true
  | _ => false
  end.

(** It holds a slot of the semaphore a little longer: from the moment the
    semaphore lets it in. *)
Definition holds_slot (p : pc) : bool :=
  match p with
  | Granted | Initializing | InBody => true
  | _ => false
  end.

(** The pool object and the tasks of the event loop that use it. *)
Record System : Type := mkSystem {
  pool : BrowserPool;
  tasks : list pc
}.

(** The statements of [acquire] between two suspension points. The event
    loop runs them without interleaving. *)

(* the semaphore hands out a slot *)
Definition sem_acquire (p : BrowserPool) : BrowserPool :=
  mkBrowserPool (max_browsers p) (_semaphore p - 1)
                (_active_count p) (_total_requests p) (_initialized p).

(* the semaphore takes a slot back *)
Definition sem_release (p : BrowserPool) : BrowserPool :=
  mkBrowserPool (max_browsers p) (_semaphore p + 1)
                (_active_count p) (_total_requests p) (_initialized p).

(* [self._active_count += 1; self._total_requests += 1] *)
Definition on_enter (p : BrowserPool) : BrowserPool :=
  mkBrowserPool (max_browsers p) (_semaphore p)
                (_active_count p + 1) (_total_requests p + 1)
                (_initialized p).

(* [finally: self._active_count -= 1], then the [async with] on the
   semaphore releases it *)
Definition on_exit (p : BrowserPool) : BrowserPool :=
  sem_release
    (mkBrowserPool (max_browsers p) (_semaphore p)
                   (_active_count p - 1) (_total_requests p)
                   (_initialized p)).

(* [initialize()] returned *)
Definition on_initialized (p : BrowserPool) : BrowserPool :=
  mkBrowserPool (max_browsers p) (_semaphore p)
                (_active_count p) (_total_requests p) true.

(** What the event loop can let a task do next. *)
Inductive event : Type :=
| Enter          (* call [acquire] (again), reach the semaphore *)
| Grant          (* the semaphore gives the task a slot *)
| Resume         (* the task runs on: counted, then initializes or yields *)
| CancelWait     (* cancelled while waiting: [CancelledError] *)
| CancelGranted  (* cancelled after the grant: the slot is handed back *)
| InitOk         (* [initialize()] returns *)
| InitRaise      (* [initialize()] raises *)
| BodyReturn     (* the caller's block completes *)
| BodyRaise.     (* the caller's block raises *)

Definition set_task (i : nat) (p : pc) (s : System) (b : BrowserPool)
  : System :=
  mkSystem b (<[i := p]> (tasks s)).

(** One scheduling step of task [i]; [None] when the event is not enabled. *)
Definition fire (i : nat) (e : event) (s : System) : option System :=
  match tasks s !! i, e with
  | Some Outside, Enter => Some (set_task i Waiting s (pool s))
  | Some (Exited _), Enter => Some (set_task i Waiting s (pool s))
  | Some Waiting, Grant =>
      if (0 <? _semaphore (pool s))%Z
      then Some (set_task i Granted s (sem_acquire (pool s)))
      else None
  | Some Waiting, CancelWait => Some (set_task i (Exited Raised) s (pool s))
  | Some Granted, Resume =>
      let b := on_enter (pool s) in
      Some (set_task i (if _initialized b then InBody else Initializing) s b)
  | Some Granted, CancelGranted =>
      Some (set_task i (Exited Raised) s (sem_release (pool s)))
  | Some Initializing, InitOk =>
      Some (set_task i InBody s (on_initialized (pool s)))
  | Some Initializing, InitRaise =>
      Some (set_task i (Exited Raised) s (on_exit (pool s)))
  | Some InBody, BodyReturn =>
      Some (set_task i (Exited Returned) s (on_exit (pool s)))
  | Some InBody, BodyRaise =>
      Some (set_task i (Exited Raised) s (on_exit (pool s)))
  | _, _ => None
  end.

(** An interleaving is a schedule: which task moves, and how. *)
Fixpoint run (sched : list (nat * event)) (s : System) : option System :=
  match sched with
  | [] => Some s
  | (i, e) :: rest =>
      match fire i e s with
      | Some s' => run rest s'
      | None => None
      end
  end.

(** [n] tasks share a pool built with [max_browsers = K]. *)
Definition initial (K : Z) (n : nat) : option System :=
  match new_pool K with
  | Ok b => Some (mkSystem b (replicate n Outside))
  | Raise _ => None
  end.

Definition count_tasks (f : pc -> bool) (l : list pc) : nat :=
  List.length (List.filter f l).

(** The leases in use, and the slots of the semaphore taken. *)
Definition active_leases (s : System) : Z :=
  Z.of_nat (count_tasks holds_lease (tasks s)).

Definition slots_taken (s : System) : Z :=
  Z.of_nat (count_tasks holds_slot (tasks s)).

(** The accounting [acquire] maintains around a pool of [K] leases. *)
Definition accounted (K : Z) (s : System) : Prop :=
  max_browsers (pool s) = K /\
  _active_count (pool s) = active_leases s /\
  (_semaphore (pool s) + slots_taken s = K)%Z /\
  (0 <= _semaphore (pool s))%Z.

(** The lease of a task has gone back to the pool between [s] and [s']. *)
Definition released (s s' : System) : Prop :=
  active_leases s' = (active_leases s - 1)%Z /\
  _active_count (pool s') = (_active_count (pool s) - 1)%Z /\
  _semaphore (pool s') = (_semaphore (pool s) + 1)%Z.

(** The event that ends the caller's block with a given outcome. *)
Definition body_exit (o : outcome) : event :=
  match o with
  | Returned => BodyReturn
  | Raised => BodyRaise
  end.

(** Two tasks on a pool of one lease: the first is inside its block, the
    second has reached the semaphore. *)
Definition example_start : System :=
  mkSystem (mkBrowserPool 1 1 0 0 false) [Outside; Outside].

Definition example_schedule : list (nat * event) :=
  [(0, Enter); (0, Grant); (0, Resume); (0, InitOk); (1, Enter)]%nat.

Definition example_reached : System :=
  mkSystem (mkBrowserPool 1 0 1 1 true) [InBody; Waiting].

(** How many times a schedule lets a task past the semaphore and into
    [acquire]'s counted section. *)
Definition is_resume (step : nat * event) : bool :=
  match snd step with
  | Resume => true
  | _ => false
  end.

Definition entries (sched : list (nat * event)) : Z :=
  Z.of_nat (List.length (List.filter is_resume sched)).

(** [status()], for the keys that depend on the fields above. *)
Record Status : Type := mkStatus {
  st_initialized : bool;
  st_max_browsers : Z;
  st_active : Z;
  st_available : Z;
  st_total_requests : Z
}.

Definition status (p : BrowserPool) : Status :=
  mkStatus (_initialized p) (max_browsers p) (_active_count p)
           (max_browsers p - _active_count p) (_total_requests p).

(** The tasks queued on the semaphore. *)
Definition is_waiting (p : pc) : bool :=
  match p with
  | Waiting => true
  | _ => false
  end.

(** The steps by which a slot holder runs to the end of its block. *)
Definition finish_path (initialized : bool) (p : pc) : list event :=
  match p with
  | Granted =>
      if initialized then [Resume; BodyReturn]
      else [Resume; InitOk; BodyReturn]
  | Initializing => [InitOk; BodyReturn]
  | InBody => [BodyReturn]
  | _ => []
  end.

End Pool.

(* ===================================================================== *)
(** * src/api/routes/browse.py *)
(* ===================================================================== *)

Module Browse.

(** The values of [ActionType]. *)
Definition ActionType : list string :=
  [ "click"; "type"; "select"; "wait"; "scroll"; "screenshot"; "extract";
    "evaluate"; "wait_navigation"; "hover"; "press" ].

(** [action] is the tag as the string the enum compares by. *)
Record BrowseAction : Type := mkBrowseAction {
  action : string;
  selector : option string;
  value : option string;
  timeout : option Z;
  options : option (gmap string json)
}.

Record ActionResult : Type := mkActionResult {
  ar_action : string;
  success : bool;
  result : option json;
  error : option string
}.

Record BrowseRequest : Type := mkBrowseRequest {
  url : string;
  actions : list BrowseAction;
  req_timeout : option Z;
  human_like : option bool
}.

Record BrowseResponse : Type := mkBrowseResponse {
  resp_success : bool;
  resp_url : string;
  final_url : option string;
  action_results : list ActionResult;
  screenshot : option string;
  cookies : option (list json);
  resp_error : option string
}.

(** The browser automation engine and the other libraries the route
    calls ([asyncio.sleep], [random], [base64]). [world] is everything
    they can read or change; a call returns its value or raises an
    [Exception], and leaves a new world either way. *)
Class Engine : Type := {
  world : Type;
  element : Type;
  num : Type;                                  (* Python floats *)
  num_of_Q : Q -> num;
  num_add : num -> num -> num;
  num_div : num -> num -> num;
  num_ltb : num -> num -> bool;
  format_value : json -> string;               (* [f"{v}"] *)
  b64encode : string -> string;                (* [b64encode(b).decode()] *)
  page_click : option string -> option Z -> M world unit;
  page_fill : option string -> option string -> option Z -> M world unit;
  page_select_option :
    option string -> option string -> option Z -> M world unit;
  page_wait_for_selector :
    option string -> option Z -> M world (option element);
  page_wait_for_timeout : option Z -> M world unit;
  page_wait_for_load_state : string -> option Z -> M world unit;
  page_evaluate : option string -> M world json;
  page_screenshot : M world string;
  page_query_selector : option string -> M world (option element);
  page_hover : option string -> option Z -> M world unit;
  page_press : string -> option string -> option Z -> M world unit;
  page_goto : string -> option Z -> M world unit;
  page_url : world -> string;
  element_inner_text : element -> M world string;
  element_bounding_box : element -> M world (option (num * num * num * num));
  mouse_move : num -> num -> Z -> M world unit;
  mouse_click : num -> num -> M world unit;
  keyboard_type : string -> M world unit;
  asyncio_sleep : num -> M world unit;
  random_uniform : Q -> Q -> M world num;
  random_randint : Z -> Z -> M world Z;
  random_random : M world num;
  pool_acquire : M world unit;       (* entering [browser_pool.acquire()] *)
  pool_release : M world unit;       (* leaving it *)
  browser_new_context : M world unit;
  context_new_page : M world unit;
  context_cookies : M world (list json);
  context_close : M world unit
}.

Section WithEngine.
Context `{Engine}.

(** [bool(x)] for an optional string and an optional flag. *)
Definition flag (b : option bool) : bool := default false b.

Definition _human_click (sel : option string) : M world unit :=
  let! el := page_wait_for_selector sel None in
  match el with
  | None => raise "'NoneType' object has no attribute 'bounding_box'"
  | Some e =>
      let! box := element_bounding_box e in
      match box with
      | Some (bx, by_, bw, bh) =>
          let! jx := random_uniform (-5 # 1) (5 # 1) in
          let x := num_add (num_add bx (num_div bw (num_of_Q (2 # 1)))) jx in
          let! jy := random_uniform (-3 # 1) (3 # 1) in
          let y := num_add (num_add by_ (num_div bh (num_of_Q (2 # 1)))) jy in
          let! steps := random_randint 10 25 in
          do! mouse_move x y steps in
          let! pause := random_uniform (5 # 100) (15 # 100) in
          do! asyncio_sleep pause in
          mouse_click x y
      | None => page_click sel None
      end
  end.

(** The keystroke loop of [_human_type]. *)
Fixpoint type_chars (text : string) : M world unit :=
  match text with
  | EmptyString => ret tt
  | String c rest =>
      do! keyboard_type (String c EmptyString) in
      let! delay := random_uniform (3 # 100) (12 # 100) in
      let! r := random_random in
      let! delay' :=
        if num_ltb r (num_of_Q (5 # 100)) then
          let! extra := random_uniform (2 # 10) (5 # 10) in
          ret (num_add delay extra)
        else ret delay in
      do! asyncio_sleep delay' in
      type_chars rest
  end.

Definition _human_type (sel : option string) (text : option string)
  : M world unit :=
  do! page_click sel None in
  let! pause := random_uniform (1 # 10) (3 # 10) in
  do! asyncio_sleep pause in
  match text with
  | None => raise "'NoneType' object is not iterable"
  | Some t => type_chars t
  end.

(** [action.options.get(key, dflt) if action.options else dflt] *)
Definition option_or (a : BrowseAction) (key : string) (dflt : json)
  : json :=
  match options a with
  | Some d => if (size d =? 0)%nat then dflt else default dflt (d !! key)
  | None => dflt
  end.

Definition unknown_action (a : BrowseAction) : ActionResult :=
  mkActionResult (action a) false None
                 (Some ("Unknown action type: " +:+ action a)).

(** The [try] block of [_execute_action]: the [if]/[elif] chain over the
    tag. *)
Definition dispatch (a : BrowseAction) (human : bool)
  : M world ActionResult :=
  if String.eqb (action a) "click" then
    do! (if human then _human_click (selector a)
         else page_click (selector a) (timeout a)) in
    ret (mkActionResult "click" true None None)
  else if String.eqb (action a) "type" then
    do! (if human then _human_type (selector a) (value a)
         else page_fill (selector a) (value a) (timeout a)) in
    ret (mkActionResult "type" true None None)
  else if String.eqb (action a) "select" then
    do! page_select_option (selector a) (value a) (timeout a) in
    ret (mkActionResult "select" true None None)
  else if String.eqb (action a) "wait" then
    do! (if truthy_opt (selector a)
         then do! page_wait_for_selector (selector a) (timeout a) in ret tt
         else page_wait_for_timeout (timeout a)) in
    ret (mkActionResult "wait" true None None)
  else if String.eqb (action a) "wait_navigation" then
    do! page_wait_for_load_state "networkidle" (timeout a) in
    ret (mkActionResult "wait_navigation" true None None)
  else if String.eqb (action a) "scroll" then
    let direction := option_or a "direction" (JStr "down") in
    let amount := option_or a "amount" (JInt 500) in
    do! (if json_eq_str direction "down" then
           do! page_evaluate
                 (Some ("window.scrollBy(0, " +:+ format_value amount +:+ ")"))
           in ret tt
         else if json_eq_str direction "up" then
           do! page_evaluate
                 (Some ("window.scrollBy(0, -" +:+ format_value amount +:+ ")"))
           in ret tt
         else if json_eq_str direction "bottom" then
           do! page_evaluate
                 (Some "window.scrollTo(0, document.body.scrollHeight)")
           in ret tt
         else if json_eq_str direction "top" then
           do! page_evaluate (Some "window.scrollTo(0, 0)") in ret tt
         else ret tt) in
    ret (mkActionResult "scroll" true None None)
  else if String.eqb (action a) "screenshot" then
    let! screenshot_bytes := page_screenshot in
    ret (mkActionResult "screenshot" true
                        (Some (JStr (b64encode screenshot_bytes))) None)
  else if String.eqb (action a) "extract" then
    let! el := page_query_selector (selector a) in
    match el with
    | Some e =>
        let! text := element_inner_text e in
        ret (mkActionResult "extract" true (Some (JStr text)) None)
    | None =>
        ret (mkActionResult "extract" false None (Some "Element not found"))
    end
  else if String.eqb (action a) "evaluate" then
    let! r := page_evaluate (value a) in
    ret (mkActionResult "evaluate" true (Some r) None)
  else if String.eqb (action a) "hover" then
    do! page_hover (selector a) (timeout a) in
    ret (mkActionResult "hover" true None None)
  else if String.eqb (action a) "press" then
    do! page_press (if truthy_opt (selector a)
                    then default "" (selector a) else "body")
                   (value a) (timeout a) in
    ret (mkActionResult "press" true None None)
  else ret (unknown_action a).

(** What the [if]/[elif] chain can return: a result carrying the tag of the
    action, which is a success, the "Element not found" failure of
    [extract], or the unknown-tag failure. *)
Definition branch_result (a : BrowseAction) (r : ActionResult) : Prop :=
  ar_action r = action a /\
  (success r = true \/
   (success r = false /\ error r = Some "Element not found") \/
   r = unknown_action a).

(** [_execute_action]: the chain under [try], any exception turned into
    a failed result by [except Exception as e]. *)
Definition _execute_action (a : BrowseAction) (human : bool)
  : M world ActionResult :=
  try_except (dispatch a human)
             (fun e => ret (mkActionResult (action a) false None (Some e))).

(** The frame of [browse_page]: the engine's world, the [action_results]
    list it appends to, and the log. *)
Record Frame : Type := mkFrame {
  w : world;
  results : list ActionResult;
  logs : list log_record
}.

Definition engine {A : Type} (c : M world A) : M Frame A :=
  fun f =>
    let '(r, w') := c (w f) in (r, mkFrame w' (results f) (logs f)).

Definition log (l : level) (msg : string) : M Frame unit :=
  modify (fun f => mkFrame (w f) (results f) (logs f ++ [(l, msg)])).

Definition append_result (r : ActionResult) : M Frame unit :=
  modify (fun f => mkFrame (w f) (results f ++ [r]) (logs f)).

(** The [for i, action in enumerate(browse_req.actions)] loop; [i] is the
    index of the first action of [todo]. *)
Fixpoint execute_actions (i : nat) (todo : list BrowseAction)
    (human : bool) : M Frame unit :=
  match todo with
  | [] => ret tt
  | a :: rest =>
      do! log DEBUG ("Executing action " +:+ str_of_int (Z.of_nat (i + 1))
                     +:+ ": " +:+ action a) in
      let! r := engine (_execute_action a human) in
      do! append_result r in
      do! (if success r then ret tt
           else log WARNING ("Action " +:+ str_of_int (Z.of_nat (i + 1))
                             +:+ " failed: " +:+ default "None" (error r))) in
      execute_actions (S i) rest human
  end.

(** What the route reads of [request]: whether startup has set the
    [browser_pool] of main.py. *)
Record Request : Type := mkRequest {
  app_browser_pool : bool
}.

(** [request.app.state.get_browser_pool()] (main.py): the pool, or
    [HTTPException(status_code=503, detail="Browser pool not initialized")],
    whose [str()] is the message raised here. *)
Definition get_browser_pool (request : Request) : M Frame unit :=
  if app_browser_pool request then ret tt
  else raise "503: Browser pool not initialized".

(** [browse_page(request, browse_req)]. The pool is looked up before the
    [try]: its exception escapes the route. *)
Definition browse_page (request : Request) (req : BrowseRequest)
  : M Frame BrowseResponse :=
  do! get_browser_pool request in
  do! log INFO ("Browse request: " +:+ url req +:+ " with " +:+
                str_of_int (Z.of_nat (List.length (actions req)))
                +:+ " actions") in
  try_except
    (do! engine pool_acquire in
     try_finally
       (do! engine browser_new_context in
        do! engine context_new_page in
        try_finally
          (do! engine (page_goto (url req) (req_timeout req)) in
           do! execute_actions 0 (actions req) (flag (human_like req)) in
           let! final := gets (fun f => page_url (w f)) in
           let! cks := engine context_cookies in
           let! screenshot_bytes := engine page_screenshot in
           let! done := gets results in
           ret (mkBrowseResponse true (url req) (Some final) done
                                 (Some (b64encode screenshot_bytes))
                                 (Some cks) None))
          (engine context_close))
       (engine pool_release))
    (fun e =>
       do! log ERROR ("Browse failed for " +:+ url req +:+ ": " +:+ e) in
       let! done := gets results in
       ret (mkBrowseResponse false (url req) None done None None (Some e))).

(** A request starts with an empty [action_results]. *)
Definition start (w0 : world) : Frame := mkFrame w0 [] [].


End WithEngine.

(** ** An engine for running the executor on concrete actions

    Its world is the journal of the page calls made so far. Every selector
    is on the page except ["#missing"]; a call on a missing selector times
    out, [query_selector] returns [None] for it. *)
Definition on_page (sel : option string) : bool :=
  match sel with
  | Some s => negb (String.eqb s "#missing")
  | None => false
  end.

Definition call {A : Type} (name : string) (ok : bool) (a : A)
  : M (list string) A :=
  fun journal =>
    (if ok then Ok a else Raise "Timeout 5000ms exceeded.",
     journal ++ [name]).

Definition journal_engine : Engine :=
  {| world := list string;
     element := string;
     num := Q;
     num_of_Q := fun q => q;
     num_add := Qplus;
     num_div := Qdiv;
     num_ltb := Qltb;
     format_value := fun v =>
       match v with
       | JInt z => str_of_int z
       | JStr t => t
       | _ => "None"
       end;
     b64encode := fun b => "base64:" +:+ b;
     page_click := fun sel _ => call "click" (on_page sel) tt;
     page_fill := fun sel _ _ => call "fill" (on_page sel) tt;
     page_select_option := fun sel _ _ => call "select_option" (on_page sel) tt;
     page_wait_for_selector := fun sel _ =>
       call "wait_for_selector" (on_page sel) sel;
     page_wait_for_timeout := fun _ => call "wait_for_timeout" true tt;
     page_wait_for_load_state := fun _ _ => call "wait_for_load_state" true tt;
     page_evaluate := fun script =>
       call ("evaluate " +:+ default "None" script) true JNull;
     page_screenshot := call "screenshot" true "PNG";
     page_query_selector := fun sel =>
       call "query_selector" true (if on_page sel then sel else None);
     page_hover := fun sel _ => call "hover" (on_page sel) tt;
     page_press := fun sel _ _ => call "press" (on_page (Some sel)) tt;
     page_goto := fun u _ =>
       call ("goto " +:+ u) (negb (String.eqb u "https://down.example/")) tt;
     page_url := fun _ => "https://example.com/";
     element_inner_text := fun e => call "inner_text" true ("text of " +:+ e);
     element_bounding_box := fun _ =>
       call "bounding_box" true (Some (0 # 1, 0 # 1, 10 # 1, 10 # 1));
     mouse_move := fun _ _ _ => call "mouse.move" true tt;
     mouse_click := fun _ _ => call "mouse.click" true tt;
     keyboard_type := fun c => call ("keyboard.type " +:+ c) true tt;
     asyncio_sleep := fun _ => ret tt;
     random_uniform := fun a _ => ret a;
     random_randint := fun a _ => ret a;
     random_random := ret (1 # 2);
     pool_acquire := call "acquire" true tt;
     pool_release := call "release" true tt;
     browser_new_context := call "new_context" true tt;
     context_new_page := call "new_page" true tt;
     context_cookies := call "cookies" true [];
     context_close := call "close" true tt |}.

Definition missing_click : BrowseAction :=
  mkBrowseAction "click" (Some "#missing") None (Some 5000%Z) None.

Definition extract_title : BrowseAction :=
  mkBrowseAction "extract" (Some "h1") None (Some 5000%Z) None.

Definition drag_action : BrowseAction :=
  mkBrowseAction "drag" (Some "h1") None (Some 5000%Z) None.

End Browse.

(* ===================================================================== *)
(** * src/queue/manager.py *)
(* ===================================================================== *)

Module Queue.

(** ** The durable priority queue store *)

(** Modelled from the spec: the durable priority queue store (the Redis
    server behind [redis.asyncio], not part of the sources). It keeps a
    per-job hash record and "a priority-ordered set for dequeue ordering"
    that "orders entries by ascending priority value". The set is kept as
    the list of its (member, score) entries in ascending order of score,
    members of equal score in lexicographic order; a score is the integer
    it was given, which is exact for the priorities 1 to 10. *)
Record Store : Type := mkStore {
  hashes : gmap string (gmap string string);
  job_queue : list (string * Z)
}.

Definition empty_store : Store := mkStore ∅ [].

Definition entry_ltb (a b : string * Z) : bool :=
  (snd a <? snd b)%Z || ((snd a =? snd b)%Z && String.ltb (fst a) (fst b)).

Fixpoint zinsert (e : string * Z) (l : list (string * Z))
  : list (string * Z) :=
  match l with
  | [] => [e]
  | x :: rest => if entry_ltb e x then e :: x :: rest else x :: zinsert e rest
  end.

(** Modelled from the spec: [ZADD job_queue score member]; a member
    already present moves to its new score. *)
Definition zadd (member : string) (score : Z) (st : Store) : Store :=
  mkStore (hashes st)
          (zinsert (member, score)
             (List.filter (fun x => negb (String.eqb (fst x) member))
                          (job_queue st))).

(** Modelled from the spec: [ZPOPMIN job_queue 1], "dequeue pops the single
    minimum-priority entry". *)
Definition zpopmin (st : Store) : list (string * Z) * Store :=
  match job_queue st with
  | [] => ([], st)
  | x :: rest => ([x], mkStore (hashes st) rest)
  end.

(** Modelled from the spec: [HSET key field value ...] on the per-job hash
    record; fields not named keep their value. *)
Definition hset (key : string) (mapping : list (string * string))
    (st : Store) : Store :=
  let old := default ∅ (hashes st !! key) in
  mkStore (<[key := foldl (fun h kv => <[fst kv := snd kv]> h) old mapping]>
             (hashes st))
          (job_queue st).

(** Modelled from the spec: [HGETALL key]; a missing key is an empty hash. *)
Definition hgetall (key : string) (st : Store) : gmap string string :=
  default ∅ (hashes st !! key).

(** Modelled from the spec: [ZCARD job_queue]. *)
Definition zcard (st : Store) : nat := List.length (job_queue st).

(** ** QueueManager *)

(** [_redis] stands for the client and the data it reaches. *)
Record QueueManager : Type := mkQueueManager {
  redis_url : string;
  _redis : Store;
  _connected : bool;
  logs : list log_record
}.

(** The dictionary [dequeue] returns. *)
Record Job : Type := mkJob {
  job_id : string;
  data : json;
  priority : Z
}.

(** A manager after a successful [connect()] to an empty store. *)
Definition connected (url : string) : QueueManager :=
  mkQueueManager url empty_store true
                 [(INFO, "Connected to Redis at " +:+ url)].

Definition with_store (q : QueueManager) (st : Store) : QueueManager :=
  mkQueueManager (redis_url q) st (_connected q) (logs q).

Definition log (l : level) (msg : string) (q : QueueManager)
  : QueueManager :=
  mkQueueManager (redis_url q) (_redis q) (_connected q)
                 (logs q ++ [(l, msg)]).

Section WithJson.
Context `{PyJson}.

Definition enqueue (id : string) (job_data : json) (prio : Z)
    (q : QueueManager) : bool * QueueManager :=
  if negb (_connected q) then
    (false, log WARNING "Redis not connected, job stored in memory only" q)
  else
    let st1 :=
      hset ("job:" +:+ id)
           [ ("data", json_dumps job_data);
             ("status", "pending");
             ("priority", str_of_int prio) ]
           (_redis q) in
    let st2 := zadd id prio st1 in
    (true, with_store q st2).

(** [int(job_data.get("priority", 5))] *)
Definition priority_field (job_data : gmap string string) : result Z :=
  match job_data !! "priority" with
  | None => Ok 5%Z
  | Some s =>
      match int_of_str s with
      | Some z => Ok z
      | None =>
          Raise ("invalid literal for int() with base 10: '" +:+ s +:+ "'")
      end
  end.

Definition dequeue (q : QueueManager) : option Job * QueueManager :=
  if negb (_connected q) then (None, q)
  else
    match zpopmin (_redis q) with
    | ([], _) => (None, q)
    | ((id, _) :: _, st) =>
        let q1 := with_store q st in
        let job_data := hgetall ("job:" +:+ id) st in
        if (size job_data =? 0)%nat then (None, q1)
        else
          match json_loads (default "{}" (job_data !! "data")) with
          | Raise e => (None, log ERROR ("Failed to dequeue job: " +:+ e) q1)
          | Ok d =>
              match priority_field job_data with
              | Raise e =>
                  (None, log ERROR ("Failed to dequeue job: " +:+ e) q1)
              | Ok p => (Some (mkJob id d p), q1)
              end
          end
    end.

(** [queue_length()] *)
Definition queue_length (q : QueueManager) : nat :=
  if negb (_connected q) then O else zcard (_redis q).

(** A job as submitted: id, payload, priority. *)
Definition submission : Type := (string * json * Z)%type.

Definition enqueue_all (jobs : list submission) (q : QueueManager)
  : QueueManager :=
  foldl (fun q j => snd (enqueue (fst (fst j)) (snd (fst j)) (snd j) q))
        q jobs.

(** [n] calls of [dequeue] in a row, with what each returned. *)
Fixpoint dequeue_n (n : nat) (q : QueueManager)
  : list (option Job) * QueueManager :=
  match n with
  | O => ([], q)
  | S n' =>
      let '(j, q1) := dequeue q in
      let '(js, q2) := dequeue_n n' q1 in
      (j :: js, q2)
  end.


(** The ids waiting in the queue. *)
Definition queued (q : QueueManager) : list string :=
  map fst (job_queue (_redis q)).

(** Enqueues and dequeues in any order. *)
Inductive op : Type :=
| Enqueue (j : submission)
| Dequeue.

Definition apply_op (o : op) (q : QueueManager) : QueueManager :=
  match o with
  | Enqueue j => snd (enqueue (fst (fst j)) (snd (fst j)) (snd j) q)
  | Dequeue => snd (dequeue q)
  end.

Definition apply_ops (ops : list op) (q : QueueManager) : QueueManager :=
  foldl (fun q o => apply_op o q) q ops.






(** The jobs among the answers of [dequeue]. *)
Definition yielded (out : list (option Job)) : list Job :=
  omap (fun j => j) out.

End WithJson.

(** ** The other operations of [QueueManager] *)

(** The dictionary [get_job] returns; an absent key is [None]. *)
Record JobView : Type := mkJobView {
  v_job_id : string;
  v_status : option string;
  v_priority : Z;
  v_data : option json;
  v_result : option json;
  v_error : option string
}.

(** [QueueManager(redis_url)], before [connect()], in front of a store. *)
Definition new_manager (url : string) (st : Store) : QueueManager :=
  mkQueueManager url st false [].

(** [connect()]; [ping] is the outcome of the connectivity probe. *)
Definition connect (ping : result unit) (q : QueueManager) : QueueManager :=
  match ping with
  | Ok _ =>
      mkQueueManager (redis_url q) (_redis q) true
        (logs q ++ [(INFO, "Connected to Redis at " +:+ redis_url q)])
  | Raise e =>
      mkQueueManager (redis_url q) (_redis q) false
        (logs q ++ [(ERROR, "Failed to connect to Redis: " +:+ e)])
  end.

(** [disconnect()] *)
Definition disconnect (q : QueueManager) : QueueManager :=
  mkQueueManager (redis_url q) (_redis q) false (logs q).

Section Records.
Context `{PyJson}.

(** [update_status]. The result is the [EXPIRE key seconds] commands it
    sent after the [HSET]; the clock of the store is not modelled. *)
Definition update_status (id status : string)
    (result : option (list (string * json))) (error : option string)
    (q : QueueManager) : list (string * Z) * QueueManager :=
  if negb (_connected q) then ([], q)
  else
    let updates :=
      [("status", status)]
      ++ match result with
         | Some (kv :: rest) => [("result", json_dumps (JDict (kv :: rest)))]
         | _ => []
         end
      ++ (if truthy_opt error then [("error", default "" error)] else []) in
    let st := hset ("job:" +:+ id) updates (_redis q) in
    (if String.eqb status "completed" || String.eqb status "failed"
     then [("job:" +:+ id, 86400%Z)] else [],
     with_store q st).

(** [json.loads(data[key])] when [data.get(key)] is truthy. *)
Definition load_field (job_data : gmap string string) (key : string)
  : result (option json) :=
  match job_data !! key with
  | Some (String c s) =>
      match json_loads (String c s) with
      | Ok v => Ok (Some v)
      | Raise e => Raise e
      end
  | _ => Ok None
  end.

Definition get_job (id : string) (q : QueueManager)
  : option JobView * QueueManager :=
  if negb (_connected q) then (None, q)
  else
    let job_data := hgetall ("job:" +:+ id) (_redis q) in
    if (size job_data =? 0)%nat then (None, q)
    else
      let failed e :=
        (None, log ERROR ("Failed to get job " +:+ id +:+ ": " +:+ e) q) in
      match priority_field job_data with
      | Raise e => failed e
      | Ok p =>
          match load_field job_data "data" with
          | Raise e => failed e
          | Ok d =>
              match load_field job_data "result" with
              | Raise e => failed e
              | Ok r =>
                  (Some (mkJobView id (job_data !! "status") p d r
                           (match job_data !! "error" with
                            | Some (String c s) => Some (String c s)
                            | _ => None
                            end)),
                   q)
              end
          end
      end.

End Records.

(** A serialiser for payloads that are flat objects without keys, used to
    run the queue on concrete jobs. *)
Definition empty_object_json : PyJson :=
  {| json_dumps := fun _ => "{}";
     json_loads := fun s =>
       if String.eqb s "{}" then Ok (JDict [])
       else Raise "Expecting value" |}.

(** Three jobs submitted out of priority order. *)
Definition example_ops : list op :=
  [ Enqueue ("b", JDict [], 7%Z);
    Enqueue ("a", JDict [], 2%Z);
    Enqueue ("c", JDict [], 7%Z);
    Enqueue ("d", JDict [], 1%Z);
    Dequeue ].

End Queue.

(* ===================================================================== *)
(** * src/api/routes/queue.py *)
(* ===================================================================== *)

Module Jobs.

Inductive JobStatus : Type := PENDING | RUNNING | COMPLETED | FAILED.

Definition status_eqb (a b : JobStatus) : bool :=
  match a, b with
  | PENDING, PENDING | RUNNING, RUNNING | COMPLETED, COMPLETED
  | FAILED, FAILED => true
  | _, _ => false
  end.

Definition terminal (s : JobStatus) : bool :=
  match s with
  | COMPLETED | FAILED => true
  | _ => false
  end.

Record JobSubmitRequest : Type := mkJobSubmitRequest {
  req_job_type : string;
  req_url : string;
  req_actions : option (list json);
  req_extract : option (list (string * string));
  req_options : option json;
  req_callback_url : option string;
  req_priority : option Z
}.

(** The job dictionary. *)
Record JobRecord : Type := mkJobRecord {
  job_id : string;
  status : JobStatus;
  job_type : string;
  url : string;
  actions : option (list json);
  extract : option (list (string * string));
  options : json;
  callback_url : option string;
  priority : option Z;
  result : option json;
  error : option string;
  created_at : string;
  started_at : option string;
  completed_at : option string
}.

(** A response, or the [HTTPException] the handler raised. *)
Inductive http (A : Type) : Type :=
| Response (a : A)
| HTTPException (status_code : Z) (detail : string).
Arguments Response {A} a.
Arguments HTTPException {A} status_code detail.

Record JobSubmitResponse : Type := mkJobSubmitResponse {
  sub_success : bool;
  sub_job_id : option string;
  sub_position : option Z
}.

Record JobStatusResponse : Type := mkJobStatusResponse {
  r_job_id : string;
  r_status : JobStatus;
  r_job_type : string;
  r_url : string;
  r_result : option json;
  r_error : option string;
  r_created_at : string;
  r_started_at : option string;
  r_completed_at : option string
}.

Record CancelResponse : Type := mkCancelResponse {
  c_success : bool;
  c_job_id : option string;
  c_error : option string
}.

(** The body of the webhook POST. *)
Record Callback : Type := mkCallback {
  cb_url : string;
  cb_job_id : string;
  cb_status : JobStatus;
  cb_result : option json;
  cb_error : option string
}.

(** Job dictionaries are heap objects. The module-level [_jobs] maps an id
    to the address of its dictionary; a background task scheduled by
    [submit_job] holds the same address. [sent] lists the webhooks posted
    so far. *)
Definition ref : Type := nat.

Record State : Type := mkState {
  heap : list JobRecord;
  _jobs : gmap string ref;
  background : list (string * ref);
  sent : list Callback
}.

Definition empty_state : State := mkState [] ∅ [] [].

Definition set_heap (h : list JobRecord) (s : State) : State :=
  mkState h (_jobs s) (background s) (sent s).

(** [sum(1 for j in _jobs.values() if j["status"] == JobStatus.PENDING)] *)
Definition pending_count (s : State) : Z :=
  Z.of_nat
    (List.length
       (List.filter
          (fun kv =>
             match heap s !! snd kv with
             | Some j => status_eqb (status j) PENDING
             | None => false
             end)
          (map_to_list (_jobs s)))).

(** [submit_job]; [id] is [str(uuid.uuid4())[:12]] and [now] the timestamp
    of the call. *)
Definition submit_job (id : string) (now : string) (req : JobSubmitRequest)
    (s : State) : JobSubmitResponse * State :=
  let job :=
    mkJobRecord id PENDING (req_job_type req) (req_url req)
                (req_actions req) (req_extract req)
                (default (JDict []) (req_options req))
                (req_callback_url req) (req_priority req)
                None None now None None in
  let r := List.length (heap s) in
  let s1 :=
    mkState (heap s ++ [job]) (<[id := r]> (_jobs s))
            (background s ++ [(id, r)]) (sent s) in
  (mkJobSubmitResponse true (Some id) (Some (pending_count s1)), s1).

Definition get_job_status (id : string) (s : State)
  : http JobStatusResponse :=
  match _jobs s !! id with
  | None => HTTPException 404 "Job not found"
  | Some r =>
      match heap s !! r with
      | None => HTTPException 500 "Internal Server Error"
      | Some job =>
          Response
            (mkJobStatusResponse (job_id job) (status job) (job_type job)
               (url job) (result job) (error job) (created_at job)
               (started_at job) (completed_at job))
      end
  end.

Definition cancel_job (id : string) (s : State)
  : http CancelResponse * State :=
  match _jobs s !! id with
  | None => (HTTPException 404 "Job not found", s)
  | Some r =>
      match heap s !! r with
      | None => (HTTPException 500 "Internal Server Error", s)
      | Some job =>
          match status job with
          | RUNNING =>
              (Response (mkCancelResponse false None
                           (Some "Cannot cancel running job")), s)
          | COMPLETED | FAILED =>
              (Response (mkCancelResponse false None
                           (Some "Job already finished")), s)
          | PENDING =>
              (Response (mkCancelResponse true (Some id) None),
               mkState (heap s) (delete id (_jobs s)) (background s) (sent s))
          end
      end
  end.

(** [job[...] = ...] through the address the task holds. *)
Definition update (r : ref) (f : JobRecord -> JobRecord) (s : State)
  : State :=
  match heap s !! r with
  | Some job => set_heap (<[r := f job]> (heap s)) s
  | None => s
  end.

Definition set_running (now : string) (j : JobRecord) : JobRecord :=
  mkJobRecord (job_id j) RUNNING (job_type j) (url j) (actions j)
              (extract j) (options j) (callback_url j) (priority j)
              (result j) (error j) (created_at j) (Some now)
              (completed_at j).

Definition set_outcome (work : Py.result json) (now : string)
    (j : JobRecord) : JobRecord :=
  match work with
  | Ok res =>
      mkJobRecord (job_id j) COMPLETED (job_type j) (url j) (actions j)
                  (extract j) (options j) (callback_url j) (priority j)
                  (Some res) (error j) (created_at j) (started_at j)
                  (Some now)
  | Raise e =>
      mkJobRecord (job_id j) FAILED (job_type j) (url j) (actions j)
                  (extract j) (options j) (callback_url j) (priority j)
                  (result j) (Some e) (created_at j) (started_at j)
                  (Some now)
  end.

(** [_send_callback]; [delivered] tells whether the POST went through (a
    failure is logged and dropped). *)
Definition _send_callback (delivered : bool) (j : JobRecord) (s : State)
  : State :=
  if delivered then
    mkState (heap s) (_jobs s) (background s)
            (sent s ++ [mkCallback (default "" (callback_url j)) (job_id j)
                                   (status j) (result j) (error j)])
  else s.

(** [_process_job(job_id, job, get_browser_pool)], the background task.
    [work] is how the block under [try] ends: the [result] dictionary it
    built, or the message of the exception it raised. [started] and
    [finished] are the two timestamps it reads. *)
Definition _process_job (r : ref) (started finished : string)
    (work : Py.result json) (delivered : bool) (s : State) : State :=
  let s1 := update r (set_running started) s in
  let s2 := update r (set_outcome work finished) s1 in
  match heap s2 !! r with
  | Some j =>
      if truthy_opt (callback_url j) then _send_callback delivered j s2
      else s2
  | None => s2
  end.

(** The status written in the dictionary at address [r]. *)
Definition status_at (r : ref) (s : State) : option JobStatus :=
  status <$> heap s !! r.

(** The request used in the examples. *)
Definition example_request : JobSubmitRequest :=
  mkJobSubmitRequest "fetch" "https://example.com/" None None None
                     (Some "https://client.example/hook") (Some 5%Z).

(** [_process_job] awaits the browser between marking the job running
    and recording its outcome, so other requests can be served in between:
    the two halves of a run. *)
Definition start_job (r : ref) (started : string) (s : State) : State :=
  update r (set_running started) s.

Definition finish_job (r : ref) (finished : string) (work : Py.result json)
    (delivered : bool) (s : State) : State :=
  let s2 := update r (set_outcome work finished) s in
  match heap s2 !! r with
  | Some j =>
      if truthy_opt (callback_url j) then _send_callback delivered j s2
      else s2
  | None => s2
  end.

(** The requests and background steps that change the job store;
    [Start k] and [Finish k] are the halves of the [k]-th task scheduled
    so far. *)
Inductive op : Type :=
| Submit (id now : string) (req : JobSubmitRequest)
| Cancel (id : string)
| Start (k : nat) (started : string)
| Finish (k : nat) (finished : string) (work : Py.result json)
         (delivered : bool).

Definition on_task (k : nat) (f : ref -> State -> State) (s : State)
  : State :=
  match background s !! k with
  | Some (_, r) => f r s
  | None => s
  end.

Definition apply_op (o : op) (s : State) : State :=
  match o with
  | Submit id now req => snd (submit_job id now req s)
  | Cancel id => snd (cancel_job id s)
  | Start k started => on_task k (fun r => start_job r started) s
  | Finish k finished work delivered =>
      on_task k (fun r => finish_job r finished work delivered) s
  end.

Definition apply_ops (ops : list op) (s : State) : State :=
  foldl (fun s o => apply_op o s) s ops.

(** Every address held by [_jobs] or by a background task is allocated. *)
Definition allocated (s : State) : Prop :=
  (forall id r, _jobs s !! id = Some r -> r < List.length (heap s)) /\
  (forall id r, In (id, r) (background s) -> r < List.length (heap s)).

(** The status a finished run leaves. *)
Definition outcome_status (work : Py.result json) : JobStatus :=
  match work with Ok _ => COMPLETED | Raise _ => FAILED end.

(** A store with three jobs: the first has failed, the second is
    running, the third is pending. *)
Definition example_ops : list op :=
  [ Submit "3f2a9c1e-7b4" "2024-01-01T00:00:00Z" example_request;
    Submit "90d1e2aa-c3f" "2024-01-01T00:00:01Z" example_request;
    Start 0 "2024-01-01T00:00:05Z";
    Submit "0b6f4e1d-2a8" "2024-01-01T00:00:06Z" example_request;
    Finish 0 "2024-01-01T00:00:09Z" (Raise "net::ERR_NAME_NOT_RESOLVED")
           true;
    Start 1 "2024-01-01T00:00:10Z" ].
End Jobs.

(* ===================================================================== *)
(** * Properties *)
(* ===================================================================== *)

(** ** Python built-ins *)

Module PyFacts.

Lemma truthy_opt_true (o : option string) :
  truthy_opt o = true <-> exists s, o = Some s /\ s <> "".
Proof.
  split.
  - destruct o as [[|c s]|]; simpl; try discriminate.
    intros _. exists (String c s). split; [reflexivity | discriminate].
  - intros (s & -> & Hs). destruct s; [contradiction | reflexivity].
Qed.

Lemma truthy_opt_false (o : option string) :
  truthy_opt o = false <-> o = None \/ o = Some "".
Proof.
  split.
  - destruct o as [[|c s]|]; simpl; auto; discriminate.
  - intros [-> | ->]; reflexivity.
Qed.

Lemma bind_Ok_inv {S A B : Type} (c : M S A) (k : A -> M S B)
    (s s' : S) (b : B) :
  bind c k s = (Ok b, s') ->
  exists a s1, c s = (Ok a, s1) /\ k a s1 = (Ok b, s').
Proof.
  unfold bind. destruct (c s) as [[a|e] s1]; [eauto | discriminate].
Qed.

Lemma ret_Ok_inv {S A : Type} (a b : A) (s s' : S) :
  ret a s = (Ok b, s') -> a = b /\ s = s'.
Proof. unfold ret. intros [= -> ->]. auto. Qed.

(** *** Substrings *)

Lemma prefix_cons (c d : ascii) (s t : string) :
  String.prefix (String c s) (String d t) = true ->
  c = d /\ String.prefix s t = true.
Proof.
  simpl. destruct (ascii_dec c d) as [-> | _]; [auto | discriminate].
Qed.

Lemma prefix_substring (m : nat) (s : string) :
  String.prefix (String.substring 0 m s) s = true.
Proof.
  revert m. induction s as [|c s IH]; intros [|m]; simpl; try reflexivity.
  destruct (ascii_dec c c) as [_ | Hne]; [apply IH | contradiction].
Qed.

Lemma prefix_contains (sub s : string) :
  String.prefix sub s = true -> contains sub s = true.
Proof. intros Hp. destruct s; simpl in *; rewrite Hp; reflexivity. Qed.

(** A slice of a string occurs in it. *)
Lemma contains_substring (k m : nat) (s : string) :
  contains (String.substring k m s) s = true.
Proof.
  revert k. induction s as [|c s IH]; intros k.
  - destruct k, m; reflexivity.
  - destruct k as [|k].
    + apply prefix_contains, prefix_substring.
    + simpl String.substring. simpl contains. rewrite IH.
      apply orb_true_r.
Qed.

(** What occurs with a leading character occurs without it. *)
Lemma contains_tail (c : ascii) (t s : string) :
  contains (String c t) s = true -> contains t s = true.
Proof.
  induction s as [|a s IH]; [simpl; discriminate |].
  intros Hc. simpl in Hc. apply orb_true_iff in Hc as [Hp | Hrest].
  - simpl. apply (prefix_cons c a t s) in Hp as [_ Hp].
    rewrite (prefix_contains _ _ Hp). apply orb_true_r.
  - simpl. rewrite (IH Hrest). apply orb_true_r.
Qed.

Lemma prefix_refl (s : string) : String.prefix s s = true.
Proof.
  induction s as [|c s IH]; simpl; [reflexivity |].
  destruct (ascii_dec c c) as [_ | Hne]; [exact IH | contradiction].
Qed.

Lemma eqb_contains (s d : string) :
  String.eqb s d = true -> contains d s = true.
Proof.
  intros Heq. apply String.eqb_eq in Heq as ->.
  apply prefix_contains, prefix_refl.
Qed.

(** The dotted-suffix match implies the substring match. *)
Lemma endswith_contains (s d : string) :
  endswith s ("." +:+ d) = true -> contains d s = true.
Proof.
  unfold endswith. intros Hend.
  apply andb_true_iff in Hend as [_ Hsub].
  apply String.eqb_eq in Hsub.
  apply (contains_tail ".").
  change (String "." d) with ("." +:+ d). rewrite <- Hsub.
  apply contains_substring.
Qed.

(** [int(str(z)) == z] *)
Lemma int_of_str_of_int (z : Z) : int_of_str (str_of_int z) = Some z.
Proof.
  unfold int_of_str, str_of_int.
  rewrite DecimalString.NilZero.isi.
  - simpl. f_equal. apply DecimalZ.of_to.
  - destruct z; simpl; try discriminate.
    intros [= Hnil]. exact (DecimalPos.Unsigned.to_uint_nonnil _ Hnil).
  - destruct z; simpl; try discriminate.
    intros [= Hnil]. exact (DecimalPos.Unsigned.to_uint_nonnil _ Hnil).
Qed.

End PyFacts.

(** ** Site classification *)

Module ClassifierProofs.
Import Classifier.

(** What [classify] returns for the bare host name: [urlparse] sees no
    ["//"], the network location is empty and no table matches it. *)
Lemma classify_bare_chase :
  classify_fresh "chase.com" =
  Some (mkSiteClassification "" LOW GENERAL false false false
          (Some "Standard site - stealth browser sufficient")).
Proof. vm_compute. reflexivity. Qed.

(** C5, as stated: [classify("chase.com")] is not classified as banking. *)
Lemma classify_bare_chase_not_banking : ~ banking_scenario "chase.com".
Proof.
  intros (c & Hc & Hcat & _).
  rewrite classify_bare_chase in Hc.
  injection Hc as <-. discriminate Hcat.
Qed.

(** The banking table decides the domain itself. *)
Lemma classify_domain_chase :
  _classify_domain "chase.com" =
  mkSiteClassification "chase.com" AUTHENTICATED BANKING true true false
    (Some "Banking - use home IP, maintain session").
Proof. vm_compute. reflexivity. Qed.

(** C5, amended: for the URL ["https://chase.com"] a fresh classifier
    returns category banking, protection level authenticated,
    requires-residential and requires-session both true. *)
Theorem classify_chase_url : banking_scenario "https://chase.com".
Proof.
  exists (_classify_domain "chase.com").
  split; [vm_compute; reflexivity |].
  rewrite classify_domain_chase. simpl. auto.
Qed.





End ClassifierProofs.

(** ** Proxy selection *)

Module RouterProofs.
Import Classifier Router.

Section WithRandom.
Context `{PyRandom}.

Lemma eqb_known_false (mode k : string) :
  ~ In mode known_modes -> In k known_modes -> String.eqb mode k = false.
Proof.
  intros Hout Hk. apply String.eqb_neq. intros ->. exact (Hout Hk).
Qed.



(** C10: for every mode outside the five documented ones, and every URL
    [urlparse] accepts, [select] returns [None] without raising, after
    logging one warning that names the mode; the router is unchanged. *)
Theorem select_unknown_mode (url loc mode : string)
    (cls : option SiteClassification) (st : State) :
  Url.netloc url = Some loc ->
  ~ In mode known_modes ->
  select url mode cls st
  = (Ok None,
     mkState (self st) (random_state st)
             (logs st ++ [(WARNING, "Unknown proxy mode: " +:+ mode +:+
                                    ", using direct")])).
Proof.
  intros Hloc Hout. unfold select. rewrite Hloc.
  rewrite !(eqb_known_false mode) by (assumption || (simpl; tauto)).
  reflexivity.
Qed.

(** With an empty string as residential endpoint, every branch returns a
    falsy value: the caller's [if proxy:] sees no proxy. *)
Lemma auto_select_empty_home (dom : string) (c : SiteClassification)
    (st : State) :
  _home_proxy (self st) = Some "" ->
  truthy_opt
    (match fst (_auto_select dom (Some c) st) with
     | Ok r => r
     | Raise _ => None
     end) = false.
Proof.
  intros Hhome.
  destruct st as [[home nodes health last] g l]. simpl in *. subst home.
  unfold _auto_select, bind, gets, ret, log, modify. simpl.
  destruct (category c); simpl; try reflexivity;
    destruct (requires_residential c); simpl; try reflexivity;
    destruct (protection_level c); reflexivity.
Qed.

(** *** Internal domains

    [_auto_select] reads "internal" off the classification. For the
    classification that [classify] computes for the same URL, this is the
    test [_is_internal] makes on the domain. *)

Lemma matches_any_contains (dom : string) (domain_set : list string) :
  _matches_any dom domain_set
  = existsb (fun d => contains d dom) domain_set.
Proof.
  unfold _matches_any.
  induction domain_set as [|d rest IH]; simpl; [reflexivity |].
  rewrite IH. f_equal.
  destruct (contains d dom) eqn:Hc; [apply orb_true_r |].
  rewrite orb_false_r.
  destruct (String.eqb dom d) eqn:Heq.
  - apply PyFacts.eqb_contains in Heq. congruence.
  - destruct (endswith dom ("." +:+ d)) eqn:Hend; [| reflexivity].
    apply PyFacts.endswith_contains in Hend. congruence.
Qed.

Lemma is_internal_strip_www (dom : string) :
  _is_internal (strip_www dom) = _is_internal dom.
Proof.
  unfold strip_www, startswith.
  destruct (String.prefix "www." dom) eqn:Hwww; [| reflexivity].
  do 4 (destruct dom as [|? dom]; [discriminate Hwww |];
        apply PyFacts.prefix_cons in Hwww as [<- Hwww]).
  reflexivity.
Qed.

Lemma classified_internal (dom : string) :
  category (_classify_domain dom) = INTERNAL
  <-> _matches_any dom INTERNAL_DOMAINS = true.
Proof.
  unfold _classify_domain.
  destruct (_matches_any dom INTERNAL_DOMAINS); simpl; [tauto |].
  repeat match goal with
         | |- context [if ?b then _ else _] => destruct b
         end; simpl; split; discriminate.
Qed.

(** The classification of a URL's own domain is internal exactly when the
    router's own test calls the domain internal. *)
Lemma internal_category_iff_internal_domain (loc : string) :
  category (_classify_domain (strip_www (lower loc))) = INTERNAL
  <-> _is_internal (lower loc) = true.
Proof.
  rewrite classified_internal, matches_any_contains.
  rewrite <- (is_internal_strip_www (lower loc)).
  unfold _is_internal, INTERNAL_DOMAINS. tauto.
Qed.

End WithRandom.


Lemma select_unknown_mode_witness :
  select "https://example.com/" "tor" None example_state
  = (Ok None,
     mkState (self example_state) (random_state example_state)
             [(WARNING, "Unknown proxy mode: tor, using direct")]).
Proof.
  apply (select_unknown_mode "https://example.com/" "example.com" "tor"
                             None example_state).
  - vm_compute. reflexivity.
  - simpl. intros [E|[E|[E|[E|[E|[]]]]]]; discriminate E.
Defined.

End RouterProofs.

(** ** Fingerprints *)

Module FingerprintProofs.
Import Fingerprint PyFacts.

(** Peel one [let!] off a computation known to return. *)
Ltac peel H :=
  let a := fresh "a" in
  let g := fresh "g" in
  let Hc := fresh "Hdraw" in
  apply bind_Ok_inv in H; destruct H as (a & g & Hc & H).

Section WithRuntime.
Context `{PyRandom} `{PyHashlib}.

(** A truthy identity is the only input of the generator it seeds. *)
Lemma make_rng_seeded (fresh1 fresh2 : rng) (identity : option string) :
  truthy_opt identity = true ->
  make_rng fresh1 identity = make_rng fresh2 identity.
Proof. intros Ht. unfold make_rng. rewrite Ht. reflexivity. Qed.

(** The canvas-noise seed of a fingerprint: the identity when truthy,
    otherwise the [hex] of a draw. *)
Lemma canvas_seed_generated (tz : string) (identity : option string)
    (g g' : rng) (fp : Fingerprint) :
  generate_with tz identity g = (Ok fp, g') ->
  if truthy_opt identity
  then canvas_seed fp = default "" identity
  else exists bits : N, canvas_seed fp = hex bits.
Proof.
  intros Hgen. unfold generate_with in Hgen.
  do 9 peel Hgen.
  destruct (truthy_opt identity).
  - peel Hgen. apply ret_Ok_inv in Hdraw8 as [<- _].
    peel Hgen. apply ret_Ok_inv in Hgen as [<- _]. reflexivity.
  - peel Hgen. peel Hdraw8. apply ret_Ok_inv in Hdraw8 as [<- _].
    peel Hgen. apply ret_Ok_inv in Hgen as [<- _]. simpl. eauto.
Qed.

(** An empty identity is falsy: the canvas-noise seed starts with ["0x"]
    and is never the identity. *)
Lemma canvas_seed_empty_identity (tz : string) (fresh : rng)
    (fp : Fingerprint) :
  generate tz fresh (Some "") = Ok fp -> canvas_seed fp <> "".
Proof.
  unfold generate, make_rng. simpl.
  destruct (generate_with tz (Some "") fresh) as [r g'] eqn:Hgen.
  simpl. intros ->.
  apply canvas_seed_generated in Hgen. simpl in Hgen.
  destruct Hgen as [bits ->]. unfold hex. discriminate.
Qed.

(** What does hold: for a non-empty seed [s], two calls [generate(s)]
    return the same fingerprint, attribute by attribute, and its
    canvas-noise seed is [s]. *)
Theorem generate_deterministic (tz : string) (s : string) :
  s <> "" -> deterministic_for tz s.
Proof.
  intros Hs fresh1 fresh2.
  assert (Ht : truthy_opt (Some s) = true)
    by (destruct s; [contradiction | reflexivity]).
  split.
  - unfold generate. rewrite (make_rng_seeded fresh1 fresh2 _ Ht).
    reflexivity.
  - intros fp. unfold generate.
    destruct (make_rng fresh1 (Some s)) as [g|e]; [| discriminate].
    destruct (generate_with tz (Some s) g) as [r g'] eqn:Hgen.
    simpl. intros ->.
    apply canvas_seed_generated in Hgen. rewrite Ht in Hgen. exact Hgen.
Qed.

End WithRuntime.

(** What [generate("")] returns with the counter generator started at 0
    and at 1: the empty seed is treated as no seed. *)
Lemma generate_empty_seed_canvas :
  (canvas_seed <$>
     match @generate counter_random constant_hashlib "America/Chicago"
                     0%N (Some "") with
     | Ok fp => Some fp
     | Raise _ => None
     end) = Some "0xb" /\
  (canvas_seed <$>
     match @generate counter_random constant_hashlib "America/Chicago"
                     1%N (Some "") with
     | Ok fp => Some fp
     | Raise _ => None
     end) = Some "0xc".
Proof. split; vm_compute; reflexivity. Qed.

(** At the empty seed string two calls differ, and the canvas-noise seed
    is not the seed string. *)
Lemma generate_empty_seed_not_deterministic :
  ~ @deterministic_for counter_random constant_hashlib "America/Chicago" "".
Proof.
  intros Hdet. destruct (Hdet 0%N 1%N) as [Hsame _].
  vm_compute in Hsame. discriminate Hsame.
Qed.

(** C4 on the code: the empty string is a seed string, yet [generate("")]
    is [generate(None)], whatever the generator and the hash: the seed is
    tested by truthiness, so the call draws from the unseeded generator.
    Hence the canvas-noise seed of [generate("")] is never the seed
    string, and two calls [generate("")] differ: on the counter generator
    started at 0 and at 1 their canvas-noise seeds are ["0xb"] and
    ["0xc"]. The claim asks the same fingerprint of every seed string,
    with the seed string as canvas-noise seed. *)
Theorem generate_empty_seed_is_unseeded :
  (forall (R : PyRandom) (Hh : PyHashlib) (tz : string) (fresh : @rng R),
      @generate R Hh tz fresh (Some "") = @generate R Hh tz fresh None) /\
  (forall (R : PyRandom) (Hh : PyHashlib) (tz : string) (fresh : @rng R)
          (fp : Fingerprint),
      @generate R Hh tz fresh (Some "") = Ok fp -> canvas_seed fp <> "") /\
  ~ @deterministic_for counter_random constant_hashlib "America/Chicago" "" /\
  (canvas_seed <$>
     match @generate counter_random constant_hashlib "America/Chicago"
                     0%N (Some "") with
     | Ok fp => Some fp
     | Raise _ => None
     end) = Some "0xb" /\
  (canvas_seed <$>
     match @generate counter_random constant_hashlib "America/Chicago"
                     1%N (Some "") with
     | Ok fp => Some fp
     | Raise _ => None
     end) = Some "0xc".
Proof.
  split; [intros R Hh tz fresh; reflexivity |].
  split; [intros R Hh tz fresh fp;
          exact (@canvas_seed_empty_identity R Hh tz fresh fp) |].
  split; [exact generate_empty_seed_not_deterministic |].
  exact generate_empty_seed_canvas.
Qed.

(** The seed ["user-42"] on the counter generator: both calls return the
    same fingerprint, with canvas-noise seed ["user-42"]. *)
Lemma generate_deterministic_witness :
  @deterministic_for counter_random constant_hashlib "America/Chicago"
                     "user-42".
Proof.
  apply (@generate_deterministic counter_random constant_hashlib
           "America/Chicago" "user-42").
  discriminate.
Defined.

(** The seeded call does return a fingerprint. *)
Lemma generate_seeded_returns :
  exists fp,
    @generate counter_random constant_hashlib "America/Chicago" 0%N
              (Some "user-42") = Ok fp /\
    canvas_seed fp = "user-42" /\
    viewport fp = mkViewport 1920 1007 /\
    chrome_version fp = "120.0.0.0".
Proof.
  eexists. split; [vm_compute; reflexivity |]. repeat split; reflexivity.
Qed.

End FingerprintProofs.

(** ** The browser pool *)

Module PoolProofs.
Import Pool.

Lemma count_tasks_insert (f : pc -> bool) (l : list pc) (i : nat)
    (p q : pc) :
  l !! i = Some p ->
  (count_tasks f (<[i := q]> l) + Nat.b2n (f p)
   = count_tasks f l + Nat.b2n (f q))%nat.
Proof.
  unfold count_tasks. revert i.
  induction l as [|x l IH]; intros i Hi; [discriminate |].
  destruct i as [|i]; simpl in *.
  - injection Hi as ->.
    destruct (f p), (f q); simpl; lia.
  - specialize (IH i Hi).
    destruct (f x); simpl; lia.
Qed.

Lemma count_tasks_le (l : list pc) :
  (count_tasks holds_lease l <= count_tasks holds_slot l)%nat.
Proof.
  unfold count_tasks.
  induction l as [|x l IH]; simpl; [lia |].
  destruct x; simpl; lia.
Qed.

(** Moving one task changes the two counts by what the task held. *)
Lemma counts_set_task (s : System) (i : nat) (p q : pc) (b : BrowserPool) :
  tasks s !! i = Some p ->
  (active_leases (set_task i q s b) + Z.b2z (holds_lease p)
   = active_leases s + Z.b2z (holds_lease q))%Z /\
  (slots_taken (set_task i q s b) + Z.b2z (holds_slot p)
   = slots_taken s + Z.b2z (holds_slot q))%Z.
Proof.
  intros Hi. unfold active_leases, slots_taken, set_task. simpl.
  pose proof (count_tasks_insert holds_lease (tasks s) i p q Hi) as Hl.
  pose proof (count_tasks_insert holds_slot (tasks s) i p q Hi) as Hs.
  split.
  - destruct (holds_lease p), (holds_lease q); simpl in *; lia.
  - destruct (holds_slot p), (holds_slot q); simpl in *; lia.
Qed.

Lemma task_after_set (s : System) (i : nat) (p q : pc) (b : BrowserPool) :
  tasks s !! i = Some p -> tasks (set_task i q s b) !! i = Some q.
Proof.
  intros Hi. unfold set_task. simpl.
  apply list_lookup_insert_eq. eapply lookup_lt_Some. exact Hi.
Qed.

Lemma leases_within_slots (s : System) :
  (0 <= active_leases s <= slots_taken s)%Z.
Proof.
  unfold active_leases, slots_taken.
  pose proof (count_tasks_le (tasks s)). lia.
Qed.

Lemma initial_accounted (K : Z) (n : nat) (s0 : System) :
  initial K n = Some s0 -> accounted K s0.
Proof.
  unfold initial, new_pool.
  destruct (K <? 0)%Z eqn:HK; [discriminate |].
  intros [= <-]. apply Z.ltb_ge in HK.
  unfold accounted, active_leases, slots_taken, count_tasks. simpl.
  assert (Hnone : forall f, f Outside = false ->
                            List.filter f (replicate n Outside) = []).
  { intros f Hf. induction n as [|n IH]; simpl; [reflexivity |].
    rewrite Hf. exact IH. }
  rewrite !Hnone by reflexivity. simpl. repeat split; lia.
Qed.

(** One scheduling step keeps the accounting. *)
Lemma fire_accounted (K : Z) (i : nat) (e : event) (s s' : System) :
  accounted K s -> fire i e s = Some s' -> accounted K s'.
Proof.
  intros (Hmax & Hact & Hsem & Hpos) Hfire.
  unfold fire in Hfire.
  destruct (tasks s !! i) as [p|] eqn:Hp; [| discriminate Hfire].
  pose proof (fun q b => counts_set_task s i p q b Hp) as Hset.
  destruct p, e; try discriminate Hfire;
    try (destruct (0 <? _semaphore (pool s))%Z eqn:Hfree;
         [apply Z.ltb_lt in Hfree | discriminate Hfire]);
    injection Hfire as <-;
    match goal with
    | |- accounted K (set_task i ?q s ?b) =>
        destruct (Hset q b) as [Hl Hs]
    end;
    unfold accounted; simpl;
    try (destruct (_initialized (pool s)); simpl in Hl, Hs);
    simpl in Hl, Hs; repeat split; lia.
Qed.

Lemma run_accounted (K : Z) (sched : list (nat * event)) (s s' : System) :
  accounted K s -> run sched s = Some s' -> accounted K s'.
Proof.
  revert s. induction sched as [|[i e] rest IH]; intros s Hacc Hrun.
  - injection Hrun as <-. exact Hacc.
  - simpl in Hrun.
    destruct (fire i e s) as [s1|] eqn:Hfire; [| discriminate].
    apply (IH s1); [eapply fire_accounted; eauto | exact Hrun].
Qed.

(** Whatever a lease holder does next, it keeps the lease or returns it. *)
Lemma fire_holder (i : nat) (e : event) (s s' : System) (p : pc) :
  tasks s !! i = Some p -> holds_lease p = true ->
  fire i e s = Some s' ->
  (tasks s' !! i = Some InBody /\ active_leases s' = active_leases s) \/
  ((exists o, tasks s' !! i = Some (Exited o)) /\ released s s').
Proof.
  intros Hp Hholds Hfire.
  unfold fire in Hfire. rewrite Hp in Hfire.
  pose proof (fun q b => counts_set_task s i p q b Hp) as Hset.
  pose proof (fun q b => task_after_set s i p q b Hp) as Htask.
  destruct p; try discriminate Hholds; destruct e; try discriminate Hfire;
    injection Hfire as <-;
    match goal with
    | |- context [set_task i ?q s ?b] =>
        destruct (Hset q b) as [Hl _]; specialize (Htask q b)
    end;
    simpl in Hl.
  - left. split; [exact Htask | lia].
  - right. split; [eauto |]. unfold released. simpl. repeat split; lia.
  - right. split; [eauto |]. unfold released. simpl. repeat split; lia.
  - right. split; [eauto |]. unfold released. simpl. repeat split; lia.
Qed.

(** The caller's block can end either way, and both ways return the
    lease. *)
Lemma body_exit_releases (i : nat) (o : outcome) (s : System) :
  tasks s !! i = Some InBody ->
  exists s',
    fire i (body_exit o) s = Some s' /\
    tasks s' !! i = Some (Exited o) /\ released s s'.
Proof.
  intros Hp.
  exists (set_task i (Exited o) s (on_exit (pool s))).
  destruct (counts_set_task s i _ (Exited o) (on_exit (pool s)) Hp)
    as [Hl _].
  simpl in Hl.
  split; [| split].
  - unfold fire. rewrite Hp. destruct o; reflexivity.
  - eapply task_after_set; eauto.
  - unfold released. simpl. repeat split; lia.
Qed.

(** C1: on a pool built with [max_browsers = K] and used by any number of
    tasks, after any interleaving of their steps the number of active
    leases is between 0 and [K] and is what [_active_count] reports;
    a task that holds a lease either still holds it after its next step or
    has left the [async with] block with the lease returned, and its block
    can end by returning or by raising, with the lease returned in both
    cases; once no task holds a slot of the semaphore, all [K] are free
    again. *)
Theorem acquire_bounded_and_released (K : Z) (n : nat)
    (sched : list (nat * event)) (s0 s : System) :
  initial K n = Some s0 ->
  run sched s0 = Some s ->
  (0 <= active_leases s <= K)%Z /\
  _active_count (pool s) = active_leases s /\
  (forall i e s' p,
      tasks s !! i = Some p -> holds_lease p = true ->
      fire i e s = Some s' ->
      (tasks s' !! i = Some InBody /\ active_leases s' = active_leases s) \/
      ((exists o, tasks s' !! i = Some (Exited o)) /\ released s s')) /\
  (forall i o,
      tasks s !! i = Some InBody ->
      exists s',
        fire i (body_exit o) s = Some s' /\
        tasks s' !! i = Some (Exited o) /\ released s s') /\
  (slots_taken s = 0%Z ->
   _active_count (pool s) = 0%Z /\ _semaphore (pool s) = K).
Proof.
  intros Hinit Hrun.
  pose proof (run_accounted K sched s0 s (initial_accounted K n s0 Hinit) Hrun)
    as (Hmax & Hact & Hsem & Hpos).
  pose proof (leases_within_slots s) as Hle.
  split; [lia |]. split; [exact Hact |].
  split; [| split].
  - intros i e s' p Hp Hholds Hfire.
    exact (fire_holder i e s s' p Hp Hholds Hfire).
  - intros i o Hp. apply body_exit_releases. exact Hp.
  - intros Hzero. split; lia.
Qed.

Lemma acquire_bounded_and_released_witness :
  (0 <= active_leases example_reached <= 1)%Z /\
  _active_count (pool example_reached) = active_leases example_reached /\
  (forall i e s' p,
      tasks example_reached !! i = Some p -> holds_lease p = true ->
      fire i e example_reached = Some s' ->
      (tasks s' !! i = Some InBody /\
       active_leases s' = active_leases example_reached) \/
      ((exists o, tasks s' !! i = Some (Exited o)) /\
       released example_reached s')) /\
  (forall i o,
      tasks example_reached !! i = Some InBody ->
      exists s',
        fire i (body_exit o) example_reached = Some s' /\
        tasks s' !! i = Some (Exited o) /\ released example_reached s') /\
  (slots_taken example_reached = 0%Z ->
   _active_count (pool example_reached) = 0%Z /\
   _semaphore (pool example_reached) = 1%Z).
Proof.
  apply (acquire_bounded_and_released 1 2 example_schedule example_start
                                      example_reached).
  - vm_compute. reflexivity.
  - vm_compute. reflexivity.
Defined.

(** Scenario D: with one lease, the second task is let in only after the
    first has left its block. *)
Lemma second_acquire_waits :
  fire 1 Grant example_reached = None /\
  (exists s1 s2,
      fire 0 (body_exit Raised) example_reached = Some s1 /\
      run [(1, Grant); (1, Resume)]%nat s1 = Some s2 /\
      tasks s2 = [Exited Raised; InBody] /\
      _active_count (pool s2) = 1%Z).
Proof.
  split; [reflexivity |].
  eexists. eexists. repeat split; reflexivity.
Qed.

End PoolProofs.

(** ** The action executor *)

Module BrowseProofs.
Import Browse PyFacts.

Section WithEngine.
Context `{Engine}.

Ltac finish_branch Hrun Htag :=
  apply ret_Ok_inv in Hrun as [<- _];
  split; [simpl; symmetry; exact Htag | simpl; auto].

Ltac step_branch Hrun Htag :=
  let x := fresh "x" in
  let w' := fresh "w'" in
  let Hx := fresh "Hx" in
  apply bind_Ok_inv in Hrun as (x & w' & Hx & Hrun);
  try finish_branch Hrun Htag.

Lemma dispatch_result (a : BrowseAction) (human : bool) (w0 w1 : world)
    (r : ActionResult) :
  dispatch a human w0 = (Ok r, w1) -> branch_result a r.
Proof.
  intros Hrun. unfold dispatch in Hrun.
  repeat match type of Hrun with
         | context [String.eqb (action a) ?t] =>
             destruct (String.eqb_spec (action a) t) as [Htag|?];
             [ step_branch Hrun Htag;
               try (destruct x;
                    [ step_branch Hrun Htag | finish_branch Hrun Htag ])
             | ]
         end.
  apply ret_Ok_inv in Hrun as [<- _].
  split; [reflexivity | auto].
Qed.

(** [_execute_action] returns a result for every action, engine behaviour
    and world: the one of the chain, or the failure made from the
    exception the chain raised. *)
Lemma execute_action_total (a : BrowseAction) (human : bool) (w0 : world) :
  exists r w1,
    _execute_action a human w0 = (Ok r, w1) /\
    ar_action r = action a /\
    (forall e, fst (dispatch a human w0) = Raise e ->
               r = mkActionResult (action a) false None (Some e)).
Proof.
  unfold _execute_action, try_except.
  destruct (dispatch a human w0) as [[r|e] w1] eqn:Hrun.
  - exists r, w1. split; [reflexivity |]. split.
    + apply dispatch_result in Hrun. apply Hrun.
    + intros e [=].
  - eexists. exists w1. split; [reflexivity |]. split; [reflexivity |].
    simpl. intros e' [= ->]. reflexivity.
Qed.

(** The loop appends one result per action, in order, whatever the
    actions do. *)
Lemma execute_actions_results (todo : list BrowseAction) (i : nat)
    (human : bool) (f : Frame) :
  exists f' rs,
    execute_actions i todo human f = (Ok tt, f') /\
    results f' = results f ++ rs /\
    map ar_action rs = map action todo.
Proof.
  revert i f. induction todo as [|a rest IH]; intros i f.
  - exists f, []. simpl. rewrite app_nil_r. auto.
  - destruct (execute_action_total a human (w f)) as (r & w1 & Hr & Htag & _).
    simpl execute_actions.
    unfold bind at 1. unfold log at 1, modify. 
    unfold bind at 1. unfold engine at 1. simpl w. rewrite Hr.
    unfold bind at 1. unfold append_result at 1, modify. simpl.
    unfold bind at 1.
    destruct (success r).
    + unfold ret at 1.
      match goal with
      | |- context [execute_actions (S i) rest human ?f1] =>
          destruct (IH (S i) f1) as (f' & rs & Hrun & Hres & Hmap)
      end.
      exists f', (r :: rs). split; [exact Hrun |].
      simpl in Hres. rewrite Hres, <- app_assoc. simpl.
      split; [reflexivity | congruence].
    + unfold log at 1, modify.
      match goal with
      | |- context [execute_actions (S i) rest human ?f1] =>
          destruct (IH (S i) f1) as (f' & rs & Hrun & Hres & Hmap)
      end.
      exists f', (r :: rs). split; [exact Hrun |].
      simpl in Hres. rewrite Hres, <- app_assoc. simpl.
      split; [reflexivity | congruence].
Qed.


(** C8: every tag of [ActionType] has a branch, that is, the chain never
    answers such a tag with the unknown-tag result: what it returns is a
    success or the "Element not found" failure of [extract]; and for every
    action whose tag is none of them, [_execute_action] returns, without
    raising and without touching the page, a result with [success = false]
    and the non-empty error ["Unknown action type: <tag>"]. *)
Theorem unknown_tag_fails_cleanly :
  (forall a human w0 w1 r,
      In (action a) ActionType ->
      dispatch a human w0 = (Ok r, w1) ->
      r <> unknown_action a /\
      ar_action r = action a /\
      (success r = true \/ error r = Some "Element not found")) /\
  (forall a human w0,
      ~ In (action a) ActionType ->
      _execute_action a human w0 = (Ok (unknown_action a), w0) /\
      success (unknown_action a) = false /\
      exists e, error (unknown_action a) = Some e /\ e <> "").
Proof.
  split.
  - intros a human w0 w1 r Hin Hrun.
    assert (Hknown : r <> unknown_action a).
    { intros ->. unfold dispatch in Hrun.
      simpl in Hin.
      repeat match type of Hrun with
             | context [String.eqb (action a) ?t] =>
                 destruct (String.eqb_spec (action a) t) as [Htag|?];
                 [ apply bind_Ok_inv in Hrun as (x & w' & Hx & Hrun);
                   first
                     [ apply ret_Ok_inv in Hrun as [Hr _]; discriminate Hr
                     | destruct x;
                       [ apply bind_Ok_inv in Hrun as (y & w'' & Hy & Hrun)
                       | ];
                       apply ret_Ok_inv in Hrun as [Hr _]; discriminate Hr ]
                 | ]
             end.
      intuition congruence. }
    split; [exact Hknown |].
    destruct (dispatch_result a human w0 w1 r Hrun) as [Htag Hkind].
    split; [exact Htag |].
    destruct Hkind as [Hs | [[_ He] | Hu]]; auto.
  - intros a human w0 Hout.
    assert (Hneq : forall t, In t ActionType ->
                             String.eqb (action a) t = false).
    { intros t Ht. apply String.eqb_neq. intros Heq. apply Hout.
      rewrite Heq. exact Ht. }
    split; [| split; [reflexivity |]].
    + unfold _execute_action, try_except, dispatch.
      rewrite !Hneq by (simpl; tauto). reflexivity.
    + eexists. split; [reflexivity | discriminate].
Qed.

(** Once the pool is there, [browse_page] answers every request: the
    response lists the results appended so far, one per action once navigation has succeeded, none
    when the session or the navigation failed. *)
Lemma browse_page_results (request : Request) (req : BrowseRequest)
    (w0 : world) :
  app_browser_pool request = true ->
  exists resp f',
    browse_page request req (start w0) = (Ok resp, f') /\
    action_results resp = results f' /\
    (List.length (action_results resp) = List.length (actions req) \/
     (action_results resp = [] /\ resp_success resp = false)) /\
    (resp_success resp = true ->
     List.length (action_results resp) = List.length (actions req)).
Proof.
  intros Hpool. unfold browse_page, get_browser_pool, start. rewrite Hpool.
  unfold try_except, try_finally, bind, engine, log, modify, gets, ret.
  cbn beta iota delta [w results logs].
  repeat match goal with
         | |- context [match ?c with | (_, _) => _ end] =>
             lazymatch c with
             | context [match _ with | (_, _) => _ end] => fail
             | execute_actions ?i ?l ?h ?f =>
                 let Hrun := fresh "Hrun" in
                 let Hres := fresh "Hres" in
                 let Hmap := fresh "Hmap" in
                 destruct (execute_actions_results l i h f)
                   as (? & ? & Hrun & Hres & Hmap);
                 rewrite Hrun; simpl in Hres
             | _ => destruct c as [[?|?] ?]
             end;
             cbn beta iota delta [w results logs]
         end;
    eexists; eexists; (split; [reflexivity |]); simpl;
    (split; [reflexivity |]);
    try match goal with
        | Hres : results ?x = ?l, Hmap : map ar_action ?l = map action _
          |- _ =>
            assert (Hlen : List.length (results x)
                           = List.length (actions req))
              by (rewrite Hres, <- (length_map ar_action l), Hmap;
                  apply length_map)
        end;
    (split;
     [ first [left; assumption | right; split; reflexivity]
     | intros Hok; first [assumption | discriminate Hok] ]).
Qed.

End WithEngine.

(** A click on a missing element, then an extraction: the click fails with
    the engine's message, and the extraction still runs. *)
Lemma failing_click_then_extract :
  fst (@execute_actions journal_engine 0 [missing_click; extract_title]
                        false (@start journal_engine []))
  = Ok tt /\
  @results journal_engine
    (snd (@execute_actions journal_engine 0 [missing_click; extract_title]
                           false (@start journal_engine [])))
  = [ mkActionResult "click" false None (Some "Timeout 5000ms exceeded.");
      mkActionResult "extract" true (Some (JStr "text of h1")) None ].
Proof. split; vm_compute; reflexivity. Qed.


Lemma unknown_tag_fails_cleanly_witness :
  @_execute_action journal_engine drag_action true []
  = (Ok (unknown_action drag_action), []) /\
  success (unknown_action drag_action) = false /\
  exists e, error (unknown_action drag_action) = Some e /\ e <> "".
Proof.
  apply (proj2 (@unknown_tag_fails_cleanly journal_engine) drag_action true []).
  vm_compute. intuition discriminate.
Defined.

End BrowseProofs.

(** ** The durable priority queue *)

Module QueueProofs.
Import Queue PyFacts.

Lemma job_key_inj (a b : string) : "job:" +:+ a = "job:" +:+ b -> a = b.
Proof. simpl. intros Hkey. injection Hkey as Hkey. exact Hkey. Qed.

(** *** The priority set *)

Lemma zinsert_In (e x : string * Z) (l : list (string * Z)) :
  In x (zinsert e l) <-> x = e \/ In x l.
Proof.
  induction l as [|y l IH]; simpl.
  - intuition.
  - destruct (entry_ltb e y); simpl; rewrite ?IH; intuition.
Qed.







Section WithJson.
Context `{PyJson}.

(** *** The hash records *)



(** *** [enqueue] *)


(** *** [dequeue] *)









End WithJson.

(** The example queue after its operations: [d] (priority 1) has been
    dequeued, and three further dequeues return [a], [b], [c]. *)
Lemma example_dequeues :
  map (fun j => (job_id j, priority j))
      (yielded (fst (@dequeue_n empty_object_json 3
                       (@apply_ops empty_object_json example_ops
                          (connected "redis://localhost:6379")))))
  = [("a", 2%Z); ("b", 7%Z); ("c", 7%Z)].
Proof. vm_compute. reflexivity. Qed.


End QueueProofs.

(** ** Job records *)

Module JobsProofs.
Import Jobs.

(** The worker does not touch [_jobs]. *)
Lemma process_job_keeps_jobs (r : ref) (started finished : string)
    (work : Py.result json) (delivered : bool) (s : State) :
  _jobs (_process_job r started finished work delivered s) = _jobs s.
Proof.
  unfold _process_job, update, _send_callback, set_heap.
  destruct (heap s !! r) as [j|] eqn:Hj; simpl.
  - rewrite list_lookup_insert_eq by (eapply lookup_lt_Some; exact Hj).
    simpl.
    rewrite list_lookup_insert_eq
      by (rewrite length_insert; eapply lookup_lt_Some; exact Hj).
    destruct (truthy_opt _), delivered; reflexivity.
  - rewrite Hj. simpl. rewrite Hj. reflexivity.
Qed.

(** The worker takes the dictionary it holds to a terminal status. *)
Lemma process_job_terminal (r : ref) (started finished : string)
    (work : Py.result json) (delivered : bool) (s : State) (j : JobRecord) :
  heap s !! r = Some j ->
  status_at r (_process_job r started finished work delivered s)
  = Some (match work with Ok _ => COMPLETED | Raise _ => FAILED end).
Proof.
  intros Hj.
  assert (Hlt : r < List.length (heap s)) by (eapply lookup_lt_Some; exact Hj).
  unfold _process_job, update, set_heap, status_at. rewrite Hj. simpl.
  rewrite list_lookup_insert_eq by exact Hlt. simpl.
  rewrite list_lookup_insert_eq by (rewrite length_insert; exact Hlt).
  assert (Hfinal :
            forall h, h = <[r := set_outcome work finished
                                   (set_running started j)]>
                          (<[r := set_running started j]> (heap s)) ->
                      status <$> h !! r
                      = Some (match work with
                              | Ok _ => COMPLETED
                              | Raise _ => FAILED
                              end)).
  { intros h ->.
    rewrite list_lookup_insert_eq by (rewrite length_insert; exact Hlt).
    destruct work; reflexivity. }
  unfold _send_callback.
  destruct (truthy_opt _), delivered; simpl; apply Hfinal; reflexivity.
Qed.

(** Cancelling a pending job removes its entry, and the status query
    answers 404 from then on. *)
Lemma cancel_pending (id : string) (r : ref) (j : JobRecord) (s : State) :
  _jobs s !! id = Some r -> heap s !! r = Some j -> status j = PENDING ->
  cancel_job id s
  = (Response (mkCancelResponse true (Some id) None),
     mkState (heap s) (delete id (_jobs s)) (background s) (sent s)) /\
  get_job_status id (snd (cancel_job id s))
  = HTTPException 404 "Job not found".
Proof.
  intros Hid Hj Hst. unfold cancel_job. rewrite Hid, Hj, Hst.
  split; [reflexivity |].
  unfold get_job_status. simpl. rewrite lookup_delete_eq. reflexivity.
Qed.

(** Cancelling a running or finished job is refused and changes nothing. *)
Lemma cancel_not_pending (id : string) (r : ref) (j : JobRecord)
    (s : State) :
  _jobs s !! id = Some r -> heap s !! r = Some j -> status j <> PENDING ->
  exists msg,
    cancel_job id s = (Response (mkCancelResponse false None (Some msg)), s).
Proof.
  intros Hid Hj Hst. unfold cancel_job. rewrite Hid, Hj.
  destruct (status j); [contradiction | eauto | eauto | eauto].
Qed.

(** A job cancelled while pending is still processed: the background task
    scheduled by [submit_job] holds the dictionary, and takes it to
    [COMPLETED] or [FAILED] although the status query answers 404. *)
Lemma cancelled_job_still_processed (id now started finished : string)
    (req : JobSubmitRequest) (work : Py.result json) (delivered : bool)
    (s : State) :
  let r := List.length (heap s) in
  let s1 := snd (submit_job id now req s) in
  let s2 := snd (cancel_job id s1) in
  let s3 := _process_job r started finished work delivered s2 in
  fst (cancel_job id s1) = Response (mkCancelResponse true (Some id) None) /\
  get_job_status id s2 = HTTPException 404 "Job not found" /\
  In (id, r) (background s2) /\
  get_job_status id s3 = HTTPException 404 "Job not found" /\
  status_at r s3
  = Some (match work with Ok _ => COMPLETED | Raise _ => FAILED end).
Proof.
  intros r s1 s2 s3.
  set (job := mkJobRecord id PENDING (req_job_type req) (req_url req)
                (req_actions req) (req_extract req)
                (default (JDict []) (req_options req))
                (req_callback_url req) (req_priority req)
                None None now None None).
  assert (Hid : _jobs s1 !! id = Some r)
    by (subst s1; simpl; apply lookup_insert_eq).
  assert (Hj : heap s1 !! r = Some job).
  { subst s1 r. simpl. rewrite lookup_app_r by lia.
    rewrite Nat.sub_diag. reflexivity. }
  destruct (cancel_pending id r job s1 Hid Hj eq_refl) as [Hcancel H404].
  fold s2 in H404.
  assert (Hs2 : s2 = mkState (heap s1) (delete id (_jobs s1))
                             (background s1) (sent s1))
    by (subst s2; rewrite Hcancel; reflexivity).
  split; [rewrite Hcancel; reflexivity |].
  split; [exact H404 |].
  split.
  { rewrite Hs2. subst s1. simpl. apply List.in_or_app. right. left.
    reflexivity. }
  split.
  - unfold get_job_status. subst s3.
    rewrite process_job_keeps_jobs, Hs2. simpl.
    rewrite lookup_delete_eq. reflexivity.
  - subst s3. apply (process_job_terminal r _ _ _ _ _ job).
    rewrite Hs2. exact Hj.
Qed.

(** C9 on the code: a job is submitted with a callback, cancelled while
    pending (the cancel succeeds and the status query answers 404), and the
    background task then runs it: the job dictionary ends [COMPLETED] with
    its result, and the webhook reports the job as completed. The claim
    says the job never reaches a terminal state. *)
Theorem cancelled_job_reaches_completed :
  let s1 := snd (submit_job "3f2a9c1e-7b4" "2024-01-01T00:00:00Z"
                            example_request empty_state) in
  let s2 := snd (cancel_job "3f2a9c1e-7b4" s1) in
  let s3 := _process_job 0 "2024-01-01T00:00:05Z" "2024-01-01T00:00:09Z"
                         (Ok (JDict [("html", JStr "<html></html>")]))
                         true s2 in
  fst (cancel_job "3f2a9c1e-7b4" s1)
  = Response (mkCancelResponse true (Some "3f2a9c1e-7b4") None) /\
  get_job_status "3f2a9c1e-7b4" s2 = HTTPException 404 "Job not found" /\
  get_job_status "3f2a9c1e-7b4" s3 = HTTPException 404 "Job not found" /\
  status_at 0 s3 = Some COMPLETED /\
  sent s3
  = [ mkCallback "https://client.example/hook" "3f2a9c1e-7b4" COMPLETED
                 (Some (JDict [("html", JStr "<html></html>")])) None ].
Proof. vm_compute. repeat split; reflexivity. Qed.

End JobsProofs.

(* ===================================================================== *)
(** * Further properties of the modelled code *)
(* ===================================================================== *)

(** ** Proxy rotation *)

Module RouterExtra.
Import Classifier Router PyFacts.

Section WithRandom.
Context `{PyRandom}.

(** [random.choice] on a non-empty sequence returns one of its elements,
    whatever index the generator draws. *)
Lemma choice_In {A : Type} (seq : list A) (g : rng) :
  seq <> [] ->
  exists x g', choice seq g = (Ok x, g') /\ In x seq.
Proof.
  destruct seq as [|a rest]; [contradiction |]. intros _.
  unfold choice. destruct (randbelow _ g) as [i g'].
  exists (nth i (a :: rest) a), g'. split; [reflexivity |].
  destruct (nth_in_or_default i (a :: rest) a) as [Hin | ->];
    [exact Hin | left; reflexivity].
Qed.

Lemma filter_nil_none {A : Type} (f : A -> bool) (l : list A) :
  List.filter f l = [] -> forall x, In x l -> f x = false.
Proof.
  intros Hnil x Hx. destruct (f x) eqn:Hf; [| reflexivity].
  assert (Hin : In x (List.filter f l)) by (apply List.filter_In; auto).
  rewrite Hnil in Hin. contradiction.
Qed.

Lemma filtered_or_all_In {A : Type} (f : A -> bool) (l : list A) (x : A) :
  In x (filtered_or_all f l) <->
  In x l /\ (f x = true \/ forall y, In y l -> f y = false).
Proof.
  unfold filtered_or_all.
  destruct (List.filter f l) as [|z zs] eqn:Hf.
  - pose proof (filter_nil_none f l Hf) as Hnone.
    split; [auto | tauto].
  - rewrite <- Hf, List.filter_In.
    split; [intros [Hx Hok]; auto |].
    intros [Hx [Hok | Hnone]]; [auto |].
    assert (Hz : In z (List.filter f l)) by (rewrite Hf; left; reflexivity).
    apply List.filter_In in Hz as [Hz Hok]. rewrite (Hnone z Hz) in Hok.
    discriminate Hok.
Qed.

Lemma filtered_or_all_nonempty {A : Type} (f : A -> bool) (l : list A) :
  l <> [] -> filtered_or_all f l <> [].
Proof.
  unfold filtered_or_all. intros Hl.
  destruct (List.filter f l); [exact Hl | discriminate].
Qed.

Lemma forallb_negb_filter {A : Type} (f : A -> bool) (l : list A) :
  forallb (fun x => negb (f x)) l
  = match List.filter f l with [] => true | _ => false end.
Proof.
  induction l as [|x l IH]; simpl; [reflexivity |].
  destruct (f x); simpl; [reflexivity | exact IH].
Qed.

(** [_get_sacvpn_node] on a router with nodes: the draw is made among
    the nodes left by the two filters. *)
Lemma get_sacvpn_node_run (home : option string) (nodes : list string)
    (health : gmap string bool) (last : option string) (g : rng)
    (l : list log_record) :
  nodes <> [] ->
  let healthy_of := fun node : string => default true (health !! node) in
  let not_last := fun n : string =>
                    negb (match last with
                          | Some x => String.eqb n x
                          | None => false
                          end) in
  let available :=
    filtered_or_all not_last (filtered_or_all healthy_of nodes) in
  exists node g',
    choice available g = (Ok node, g') /\
    In node available /\
    _get_sacvpn_node (mkState (mkProxyRouter home nodes health last) g l)
    = (Ok (Some ("socks5://" +:+ node)),
       mkState (mkProxyRouter home nodes health (Some node)) g'
               (l ++ if forallb (fun n => negb (healthy_of n)) nodes
                     then [(WARNING, "No healthy SACVPN nodes available")]
                     else [])).
Proof.
  intros Hnodes healthy_of not_last available.
  assert (Hne : available <> [])
    by (apply filtered_or_all_nonempty, filtered_or_all_nonempty, Hnodes).
  destruct (choice_In available g Hne) as (node & g' & Hchoice & Hin).
  exists node, g'. split; [exact Hchoice |]. split; [exact Hin |].
  rewrite forallb_negb_filter.
  unfold available, filtered_or_all in Hchoice.
  destruct nodes as [|n0 ns]; [contradiction |].
  unfold _get_sacvpn_node, bind, gets, ret, log, modify, random_choice,
    set_last_used_node.
  cbn beta iota delta [self _sacvpn_nodes _node_health _last_used_node
                       _home_proxy random_state logs fst snd].
  fold healthy_of.
  destruct (List.filter healthy_of (n0 :: ns)) as [|h0 hs];
    cbn beta iota delta [self _sacvpn_nodes _node_health _last_used_node
                         _home_proxy random_state logs fst snd];
    fold not_last;
    match goal with
    | |- context [List.filter not_last ?p] =>
        destruct (List.filter not_last p) as [|a0 rest]
    end;
    rewrite Hchoice;
    cbn beta iota delta [self _sacvpn_nodes _node_health _last_used_node
                         _home_proxy random_state logs fst snd modify];
    rewrite ?app_nil_r; reflexivity.
Qed.

(** X1: with at least one node configured, [_get_sacvpn_node] returns
    ["socks5://" + node] for a configured node that is healthy (or any
    configured node when none is healthy), records it as last used and
    leaves the rest of the router alone; the node differs from the one
    used last whenever some eligible node does; a warning is logged
    exactly when no node is healthy. *)
Theorem sacvpn_node_rotation (st : State) :
  _sacvpn_nodes (self st) <> [] ->
  exists node st',
    _get_sacvpn_node st = (Ok (Some ("socks5://" +:+ node)), st') /\
    eligible st node /\
    self st' = mkProxyRouter (_home_proxy (self st))
                             (_sacvpn_nodes (self st))
                             (_node_health (self st)) (Some node) /\
    ((exists n, eligible st n /\ _last_used_node (self st) <> Some n) ->
     _last_used_node (self st) <> Some node) /\
    logs st'
    = logs st ++
      (if forallb (fun n => negb (is_healthy st n)) (_sacvpn_nodes (self st))
       then [(WARNING, "No healthy SACVPN nodes available")] else []).
Proof.
  intros Hnodes.
  destruct st as [[home nodes health last] g l]. simpl in Hnodes.
  destruct (get_sacvpn_node_run home nodes health last g l Hnodes)
    as (node & g' & _ & Hin & Hrun).
  exists node. eexists. split; [exact Hrun |].
  unfold eligible, is_healthy. simpl.
  apply filtered_or_all_In in Hin as [Hpool Hfresh].
  apply filtered_or_all_In in Hpool as [Hnode Hhealthy].
  split; [split; assumption |].
  split; [reflexivity |].
  split; [| reflexivity].
  intros (n & [Hn Hnh] & Hlast).
  assert (Hn_fresh : negb (match last with
                           | Some x => String.eqb n x
                           | None => false
                           end) = true).
  { destruct last as [x|]; [| reflexivity].
    apply negb_true_iff, String.eqb_neq. congruence. }
  destruct Hfresh as [Hok | Hnone].
  - destruct last as [x|]; [| discriminate].
    apply negb_true_iff, String.eqb_neq in Hok. congruence.
  - rewrite Hnone in Hn_fresh; [discriminate |].
    apply filtered_or_all_In. split; assumption.
Qed.

Lemma random_choice_In {A : Type} (seq : list A) (st : State) :
  seq <> [] ->
  exists x st',
    random_choice seq st = (Ok x, st') /\ In x seq /\
    self st' = self st /\ logs st' = logs st.
Proof.
  intros Hne. unfold random_choice.
  destruct (choice_In seq (random_state st) Hne) as (x & g' & -> & Hx).
  eexists. eexists. repeat split; [exact Hx].
Qed.

(** X2: [_rotate_proxy] never raises and changes nothing; it returns
    [None] exactly when there is neither a usable home endpoint nor a node,
    and otherwise the home endpoint or ["socks5://" + node] for a
    configured node. *)
Theorem rotate_proxy_pool (st : State) :
  exists r st',
    _rotate_proxy st = (Ok r, st') /\
    self st' = self st /\
    logs st' = logs st /\
    (r = None <->
     truthy_opt (_home_proxy (self st)) = false /\
     _sacvpn_nodes (self st) = []) /\
    (forall p,
        r = Some p ->
        (_home_proxy (self st) = Some p /\ p <> "") \/
        exists node,
          In node (_sacvpn_nodes (self st)) /\ p = "socks5://" +:+ node).
Proof.
  destruct st as [[home nodes health last] g l].
  unfold _rotate_proxy, bind, gets, ret.
  cbn beta iota delta [self _sacvpn_nodes _home_proxy].
  match goal with
  | |- context [random_choice ?seq] => remember seq as all_proxies eqn:Hall
  end.
  assert (Hin : forall p,
             In p all_proxies ->
             (home = Some p /\ p <> "") \/
             exists node, In node nodes /\ p = "socks5://" +:+ node).
  { intros p Hp. rewrite Hall in Hp.
    apply List.in_app_or in Hp as [Hp | Hp].
    - left. destruct home as [[|c h]|]; simpl in Hp; try contradiction.
      destruct Hp as [<- | []]. split; [reflexivity | discriminate].
    - right. apply List.in_map_iff in Hp as (node & <- & Hnode). eauto. }
  assert (Hnil : all_proxies = [] <-> truthy_opt home = false /\ nodes = []).
  { rewrite Hall.
    destruct home as [[|c h]|], nodes; simpl;
      intuition (try discriminate; try congruence). }
  clear Hall.
  destruct all_proxies as [|p0 ps].
  - eexists. eexists. split; [reflexivity |]. simpl.
    repeat split; try tauto; try discriminate.
  - destruct (random_choice_In (p0 :: ps)
                (mkState (mkProxyRouter home nodes health last) g l))
      as (p & st' & Hchoice & Hp & Hself & Hlogs); [discriminate |].
    rewrite Hchoice. eexists. eexists. split; [reflexivity |].
    split; [exact Hself |]. split; [exact Hlogs |].
    split.
    + split; [discriminate |]. intros Hboth. apply Hnil in Hboth.
      discriminate Hboth.
    + intros q [= <-]. apply Hin. exact Hp.
Qed.

(** What a fresh classifier returns for a URL. *)
Lemma classify_fresh_netloc (url loc : string) :
  Url.netloc url = Some loc ->
  classify_fresh url = Some (_classify_domain (strip_www (lower loc))).
Proof.
  intros Hloc. unfold classify_fresh, classify, normalized_domain.
  rewrite Hloc. simpl. rewrite lookup_empty. reflexivity.
Qed.

(** X3: the classifier-then-router step of [fetch_page] on a URL whose
    domain holds an internal marker: whatever proxies are configured and
    whatever the router state, mode ["auto"] selects no proxy, logs nothing
    and leaves the router untouched, with the classification of a fresh
    classifier and without any classification alike. *)
Theorem internal_url_goes_direct (url loc : string)
    (c : SiteClassification) (st : State) :
  Url.netloc url = Some loc ->
  _is_internal (lower loc) = true ->
  classify_fresh url = Some c ->
  select url "auto" (Some c) st = (Ok None, st) /\
  select url "auto" None st = (Ok None, st).
Proof.
  intros Hloc Hint Hc.
  rewrite (classify_fresh_netloc url loc Hloc) in Hc. injection Hc as <-.
  apply RouterProofs.internal_category_iff_internal_domain in Hint.
  unfold select. rewrite Hloc. simpl.
  unfold _auto_select, bind, gets, ret. simpl.
  rewrite Hint. simpl.
  apply RouterProofs.internal_category_iff_internal_domain in Hint.
  rewrite Hint. split; reflexivity.
Qed.

End WithRandom.

Lemma sacvpn_node_rotation_witness :
  exists node st',
    _get_sacvpn_node example_state
    = (Ok (Some ("socks5://" +:+ node)), st') /\
    eligible example_state node /\
    self st' = mkProxyRouter (_home_proxy (self example_state))
                             (_sacvpn_nodes (self example_state))
                             (_node_health (self example_state))
                             (Some node) /\
    ((exists n, eligible example_state n /\
                _last_used_node (self example_state) <> Some n) ->
     _last_used_node (self example_state) <> Some node) /\
    logs st'
    = logs example_state ++
      (if forallb (fun n => negb (is_healthy example_state n))
                  (_sacvpn_nodes (self example_state))
       then [(WARNING, "No healthy SACVPN nodes available")] else []).
Proof.
  apply (@sacvpn_node_rotation counter_random example_state).
  simpl. discriminate.
Defined.

Lemma internal_url_goes_direct_witness :
  select "http://www.localhost:8000/admin" "auto"
         (Some (_classify_domain "localhost:8000")) example_state
  = (Ok None, example_state) /\
  select "http://www.localhost:8000/admin" "auto" None example_state
  = (Ok None, example_state).
Proof.
  apply (@internal_url_goes_direct counter_random
           "http://www.localhost:8000/admin" "www.localhost:8000"
           (_classify_domain "localhost:8000") example_state);
    vm_compute; reflexivity.
Defined.

End RouterExtra.

(** ** Site classification *)

Module ClassifierExtra.
Import Classifier PyFacts.

(** X4: the three match rules of [_matches_any] amount to the last one: a
    domain matches a set exactly when some entry of the set occurs in it
    as a substring. Hence a domain that holds a banking name anywhere, and
    no internal marker, is classified as banking. *)
Theorem matches_any_substring (dom : string) (domain_set : list string) :
  (_matches_any dom domain_set = true <->
   exists d, In d domain_set /\ contains d dom = true) /\
  (forall d,
      In d BANKING_DOMAINS -> contains d dom = true ->
      _matches_any dom INTERNAL_DOMAINS = false ->
      _classify_domain dom
      = mkSiteClassification dom AUTHENTICATED BANKING true true false
          (Some "Banking - use home IP, maintain session")).
Proof.
  assert (Hiff : forall s,
             _matches_any dom s = true <->
             exists d, In d s /\ contains d dom = true).
  { intros s. rewrite RouterProofs.matches_any_contains.
    rewrite List.existsb_exists. reflexivity. }
  split; [apply Hiff |].
  intros d Hd Hsub Hint. unfold _classify_domain. rewrite Hint.
  replace (_matches_any dom BANKING_DOMAINS) with true; [reflexivity |].
  symmetry. apply Hiff. eauto.
Qed.

(** ["purchase.com"] holds ["chase.com"]: it is classified as a bank. *)
Lemma matches_any_substring_witness :
  _classify_domain "purchase.com"
  = mkSiteClassification "purchase.com" AUTHENTICATED BANKING true true false
      (Some "Banking - use home IP, maintain session").
Proof.
  apply (proj2 (matches_any_substring "purchase.com" BANKING_DOMAINS)
           "chase.com").
  - simpl. auto.
  - vm_compute. reflexivity.
  - vm_compute. reflexivity.
Defined.

(** X5: what every classification computed by [_classify_domain] satisfies:
    it carries the domain it was asked about; a session is required only
    together with a residential address; the fallback solver is used
    exactly at protection level high; protection is none exactly for the
    internal category; a residential address is required exactly above
    protection level low; the categories e-commerce and news are never
    assigned, and a note is always given. *)
Theorem classify_domain_invariants (dom : string) :
  let c := _classify_domain dom in
  domain c = dom /\
  (requires_session c = true -> requires_residential c = true) /\
  (use_flaresolverr c = true <-> protection_level c = HIGH) /\
  (protection_level c = NONE <-> category c = INTERNAL) /\
  (requires_residential c = false <->
   protection_level c = NONE \/ protection_level c = LOW) /\
  category c <> ECOMMERCE /\ category c <> NEWS /\
  notes c <> None.
Proof.
  unfold _classify_domain.
  repeat match goal with
         | |- context [if ?b then _ else _] => destruct b
         end;
    simpl; repeat split; try discriminate; try tauto; auto;
    intros [E | E]; discriminate E.
Qed.

(** [str.lower] is idempotent and commutes with slicing. *)
Lemma lower_char_idem (c : ascii) : lower_char (lower_char c) = lower_char c.
Proof. destruct c as [[] [] [] [] [] [] [] []]; reflexivity. Qed.

Lemma lower_idem (s : string) : lower (lower s) = lower s.
Proof.
  induction s as [|c s IH]; simpl; [reflexivity |].
  rewrite lower_char_idem, IH. reflexivity.
Qed.

Lemma lower_drop (n : nat) (s : string) : lower (drop n s) = drop n (lower s).
Proof.
  revert s. induction n as [|n IH]; intros [|c s]; simpl; auto.
Qed.

(** A cache key is in lower case. *)
Lemma normalized_domain_lower (url d : string) :
  normalized_domain url = Some d -> lower d = d.
Proof.
  unfold normalized_domain.
  destruct (Url.netloc url) as [loc|]; [| discriminate].
  intros Hd. injection Hd as <-. unfold strip_www.
  destruct (startswith (lower loc) "www.").
  - rewrite lower_drop, lower_idem. reflexivity.
  - apply lower_idem.
Qed.



(** X7: [add_classification] stores under the key it is given, while
    [classify] looks up lower-case keys only: an override registered under
    a domain with an upper-case letter is never returned, for any URL. *)
Theorem override_needs_lower_case_key (dom0 : string)
    (pl : ProtectionLevel) (cat : SiteCategory) (kw : kwargs)
    (url : string) (self : SiteClassifier) :
  lower dom0 <> dom0 ->
  cache_in_heap self ->
  let self1 := add_classification dom0 pl cat kw self in
  heap self1 !! List.length (heap self) = Some (override dom0 pl cat kw) /\
  fst (classify url self1) <> Ok (List.length (heap self)).
Proof.
  intros Hcase Hwf self1. subst self1.
  unfold add_classification, alloc. simpl. split.
  - rewrite lookup_app_r by lia. rewrite Nat.sub_diag. reflexivity.
  - unfold classify.
    destruct (normalized_domain url) as [d|] eqn:Hd; [| discriminate].
    simpl.
    assert (Hne : dom0 <> d).
    { intros ->. apply Hcase. eapply normalized_domain_lower; eauto. }
    rewrite lookup_insert_ne by exact Hne.
    destruct (_cache self !! d) as [r|] eqn:Hhit; simpl.
    + apply Hwf in Hhit. intros [= ->]. lia.
    + rewrite length_app. simpl. intros [= Heq]. lia.
Qed.

Lemma override_needs_lower_case_key_witness :
  let self1 := add_classification "Chase.com" LOW NEWS no_kwargs
                                  new_classifier in
  heap self1 !! List.length (heap new_classifier)
  = Some (override "Chase.com" LOW NEWS no_kwargs) /\
  fst (classify "https://Chase.com/" self1)
  <> Ok (List.length (heap new_classifier)).
Proof.
  apply (override_needs_lower_case_key "Chase.com" LOW NEWS no_kwargs
           "https://Chase.com/" new_classifier).
  - vm_compute. discriminate.
  - intros k r Hk. simpl in Hk. rewrite lookup_empty in Hk. discriminate Hk.
Defined.

End ClassifierExtra.

(** ** Fingerprints *)

Module FingerprintExtra.
Import Fingerprint PyFacts.

(** Peel one [let!] off a computation known to return, naming the value,
    the state and the fact about the first step. *)
Ltac peel_as H a g Hc :=
  apply bind_Ok_inv in H; destruct H as (a & g & Hc & H).

Section WithRuntime.
Context `{PyRandom} `{PyHashlib}.

Lemma choice_Ok_In {A : Type} (seq : list A) (g g' : rng) (x : A) :
  choice seq g = (Ok x, g') -> In x seq.
Proof.
  unfold choice. destruct seq as [|a rest]; [discriminate |].
  destruct (randbelow _ g) as [i g1]. intros Heq.
  injection Heq as Hx _. subst x.
  change (In (nth i (a :: rest) a) (a :: rest)).
  destruct (nth_in_or_default i (a :: rest) a) as [Hin | Hd];
    [exact Hin | rewrite Hd; left; reflexivity].
Qed.

Lemma draw_Ok_inv {A : Type} (f : rng -> A * rng) (g g' : rng) (a : A) :
  draw f g = (Ok a, g') -> f g = (a, g').
Proof. unfold draw. destruct (f g). intros [= -> ->]. reflexivity. Qed.

(** What [_generate_screen] returns. *)
Lemma generate_screen_invariants (g g' : rng) (s : Screen) :
  _generate_screen g = (Ok s, g') ->
  s_screen_width s = s_width s /\
  In (s_screen_width s, s_screen_height s) (map fst SCREEN_RESOLUTIONS) /\
  (s_height s <= s_screen_height s - 70)%Z /\
  s_color_depth s = 24%Z /\
  In (s_device_scale_factor s) [1 # 1; 125 # 100; 15 # 10; 2 # 1] /\
  (s_device_scale_factor s <> 1 # 1 -> (2560 <= s_screen_width s)%Z).
Proof.
  intros Hs. unfold _generate_screen in Hs.
  peel_as Hs wh g1 Hres. destruct wh as [w h].
  unfold rng_choices_first in Hres. peel_as Hres i g1' Hidx.
  destruct (nth_error _ i) as [wh|] eqn:Hnth; [| discriminate Hres].
  apply ret_Ok_inv in Hres as [-> _].
  apply nth_error_In in Hnth.
  peel_as Hs chrome g2 Hchrome. apply draw_Ok_inv in Hchrome.
  unfold randint in Hchrome. destruct (randbelow _ g1) as [k g3].
  injection Hchrome as <- <-.
  peel_as Hs dpr g4 Hdpr. apply ret_Ok_inv in Hs as [<- _]. simpl.
  split; [reflexivity |]. split; [exact Hnth |]. split; [lia |].
  split; [reflexivity |].
  destruct (2560 <=? w)%Z eqn:Hwide.
  - apply choice_Ok_In in Hdpr. apply Z.leb_le in Hwide. auto.
  - apply ret_Ok_inv in Hdpr as [<- _]. split; [left; reflexivity |].
    intros Hne. contradiction.
Qed.

(** X8: what every fingerprint returned by [generate] satisfies, for any
    generator and any seed: the viewport is as wide as the screen and at
    least 70 pixels lower; the screen is one of the listed resolutions;
    the device pixel ratio is one of four values and is 1 below a width of
    2560; the Chrome version is a listed one and is the one in the user
    agent; the WebGL pair, the hardware concurrency and the device memory
    come from their lists; the fonts start with the three core fonts; the
    time zone is the generator's default; the device is never mobile. *)
Theorem generate_invariants (tz : string) (fresh : rng)
    (identity : option string) (fp : Fingerprint) :
  generate tz fresh identity = Ok fp ->
  width (viewport fp) = screen_width fp /\
  In (screen_width fp, screen_height fp) (map fst SCREEN_RESOLUTIONS) /\
  (height (viewport fp) <= screen_height fp - 70)%Z /\
  color_depth fp = 24%Z /\
  In (device_scale_factor fp) [1 # 1; 125 # 100; 15 # 10; 2 # 1] /\
  (device_scale_factor fp <> 1 # 1 -> (2560 <= screen_width fp)%Z) /\
  In (chrome_version fp) CHROME_VERSIONS /\
  (exists platform_part,
      user_agent fp
      = "Mozilla/5.0 (" +:+ platform_part +:+ ") " +:+
        "AppleWebKit/537.36 (KHTML, like Gecko) " +:+
        "Chrome/" +:+ chrome_version fp +:+ " Safari/537.36") /\
  In (webgl_vendor fp, webgl_renderer fp) WEBGL_RENDERERS /\
  In (hardware_concurrency fp) [4; 8; 12; 16]%Z /\
  In (device_memory fp) [4; 8; 16; 32]%Z /\
  firstn 3 (fonts fp) = ["Arial"; "Times New Roman"; "Courier New"] /\
  timezone fp = tz /\
  is_mobile fp = false /\
  languages fp = ["en-US"; "en"] /\
  In (platform fp) ["Win32"; "MacIntel"].
Proof.
  unfold generate.
  destruct (make_rng fresh identity) as [g|e]; [| discriminate].
  destruct (generate_with tz identity g) as [r g'] eqn:Hgen.
  simpl. intros ->. unfold generate_with in Hgen.
  peel_as Hgen screen g1 Hscreen.
  apply generate_screen_invariants in Hscreen
    as (Hw & Hres & Hh & Hdepth & Hdpr & Hwide).
  peel_as Hgen version g2 Hversion. apply choice_Ok_In in Hversion.
  peel_as Hgen webgl g3 Hwebgl. apply choice_Ok_In in Hwebgl.
  peel_as Hgen ua g4 Hua.
  assert (Hagent : exists platform_part,
             ua = "Mozilla/5.0 (" +:+ platform_part +:+ ") " +:+
                  "AppleWebKit/537.36 (KHTML, like Gecko) " +:+
                  "Chrome/" +:+ version +:+ " Safari/537.36").
  { unfold _generate_user_agent in Hua.
    peel_as Hua x g5 Hx. peel_as Hua plat g6 Hplat.
    apply ret_Ok_inv in Hua as [<- _]. eauto. }
  peel_as Hgen cores g7 Hcores. apply choice_Ok_In in Hcores.
  peel_as Hgen memory g8 Hmemory. apply choice_Ok_In in Hmemory.
  peel_as Hgen fnts g9 Hfnts.
  assert (Hcore : firstn 3 fnts
                  = ["Arial"; "Times New Roman"; "Courier New"]).
  { unfold _select_fonts in Hfnts.
    peel_as Hfnts k g10 Hk. peel_as Hfnts extra g11 Hextra.
    apply ret_Ok_inv in Hfnts as [<- _]. reflexivity. }
  peel_as Hgen touch g12 Htouch.
  peel_as Hgen plat g13 Hplat.
  peel_as Hgen seed g14 Hseed.
  peel_as Hgen noise g15 Hnoise.
  apply ret_Ok_inv in Hgen as [<- _]. simpl.
  destruct webgl as [vendor renderer]. simpl.
  repeat split; try assumption; try reflexivity; auto.
  destruct (Qltb (3 # 10) plat); simpl; auto.
Qed.

(** *** Families *)

Lemma family_identity_truthy (base : string) (i : nat) :
  truthy_opt (Some (family_identity base i)) = true.
Proof. unfold family_identity. destruct base; reflexivity. Qed.

Lemma append_inv_head (p s t : string) : p +:+ s = p +:+ t -> s = t.
Proof.
  induction p as [|c p IH]; simpl; [auto |].
  intros Heq. injection Heq as Heq. auto.
Qed.

Lemma family_identity_inj (base : string) (i j : nat) :
  family_identity base i = family_identity base j -> i = j.
Proof.
  unfold family_identity. intros Heq.
  apply append_inv_head in Heq. apply (append_inv_head "_") in Heq.
  apply Nat2Z.inj.
  assert (Hi := int_of_str_of_int (Z.of_nat i)).
  rewrite Heq, int_of_str_of_int in Hi. congruence.
Qed.

(** A family member is generated from its identity alone, and carries it
    as canvas-noise seed. *)
Lemma family_member (tz : string) (fresh1 fresh2 : rng) (base : string)
    (i : nat) :
  generate tz fresh1 (Some (family_identity base i))
  = generate tz fresh2 (Some (family_identity base i)) /\
  (forall fp,
      generate tz fresh1 (Some (family_identity base i)) = Ok fp ->
      canvas_seed fp = family_identity base i).
Proof.
  pose proof (family_identity_truthy base i) as Ht.
  split.
  - unfold generate.
    rewrite (FingerprintProofs.make_rng_seeded fresh1 fresh2 _ Ht).
    reflexivity.
  - intros fp. unfold generate.
    destruct (make_rng fresh1 _) as [g|e]; [| discriminate].
    destruct (generate_with tz _ g) as [r g'] eqn:Hgen.
    simpl. intros ->.
    apply FingerprintProofs.canvas_seed_generated in Hgen.
    rewrite Ht in Hgen. exact Hgen.
Qed.

Lemma generate_each_spec (tz : string) (fresh1 fresh2 : nat -> rng)
    (base : string) (indices : list nat) :
  generate_each tz fresh1 base indices
  = generate_each tz fresh2 base indices /\
  (forall fps,
      generate_each tz fresh1 base indices = Ok fps ->
      map canvas_seed fps = map (family_identity base) indices).
Proof.
  induction indices as [|i rest [IHeq IHseed]]; simpl.
  - split; [reflexivity |]. intros fps [= <-]. reflexivity.
  - destruct (family_member tz (fresh1 i) (fresh2 i) base i) as [Heq Hseed].
    rewrite <- Heq, <- IHeq. split; [reflexivity |].
    destruct (generate tz (fresh1 i) _) as [fp|e]; [| discriminate].
    destruct (generate_each tz fresh1 base rest) as [fps0|e];
      [| discriminate].
    intros fps [= <-]. simpl.
    rewrite (Hseed fp eq_refl), (IHseed fps0 eq_refl). reflexivity.
Qed.

(** X9: [generate_family] does not depend on the entropy of the machine,
    even for an empty base identity: every member is seeded by
    [base_i]. When it returns, it returns [count] fingerprints (none for
    a count below 1), the [i]-th with canvas-noise seed [base_i], and
    these seeds are pairwise distinct. *)
Theorem generate_family_seeded (tz : string) (fresh1 fresh2 : nat -> rng)
    (base : string) (count : Z) :
  generate_family tz fresh1 base count
  = generate_family tz fresh2 base count /\
  (forall fps,
      generate_family tz fresh1 base count = Ok fps ->
      List.length fps = Z.to_nat count /\
      map canvas_seed fps
      = map (family_identity base) (List.seq 0 (Z.to_nat count)) /\
      List.NoDup (map canvas_seed fps)).
Proof.
  unfold generate_family.
  destruct (generate_each_spec tz fresh1 fresh2 base
              (List.seq 0 (Z.to_nat count))) as [Heq Hseed].
  split; [exact Heq |].
  intros fps Hfps. specialize (Hseed fps Hfps).
  split; [| split; [exact Hseed |]].
  - rewrite <- (length_map canvas_seed fps), Hseed, length_map.
    apply List.length_seq.
  - rewrite Hseed. apply NoDup_ListNoDup.
    assert (Hinj : Inj eq eq (family_identity base))
      by (intros i j; apply family_identity_inj).
    apply (NoDup_fmap_2 (family_identity base)). apply NoDup_seq.
Qed.

End WithRuntime.

Lemma generate_invariants_witness :
  exists fp,
    @generate counter_random constant_hashlib "America/Chicago" 0%N
              (Some "user-42") = Ok fp /\
    width (viewport fp) = screen_width fp /\
    (height (viewport fp) <= screen_height fp - 70)%Z /\
    firstn 3 (fonts fp) = ["Arial"; "Times New Roman"; "Courier New"].
Proof.
  eexists. split; [vm_compute; reflexivity |].
  match goal with
  | |- context [viewport ?fp] =>
      pose proof (@generate_invariants counter_random constant_hashlib
                    "America/Chicago" 0%N (Some "user-42") fp) as Hinv
  end.
  destruct Hinv as (Hw & _ & Hh & _ & _ & _ & _ & _ & _ & _ & _ & Hf & _);
    [vm_compute; reflexivity |].
  split; [exact Hw |]. split; [exact Hh | exact Hf].
Defined.

Lemma generate_family_seeded_witness :
  exists fps,
    @generate_family counter_random constant_hashlib "America/Chicago"
                     (fun _ => 0%N) "" 3 = Ok fps /\
    List.length fps = 3 /\
    map canvas_seed fps = ["_0"; "_1"; "_2"] /\
    List.NoDup (map canvas_seed fps).
Proof.
  eexists. split; [vm_compute; reflexivity |].
  apply (proj2 (@generate_family_seeded counter_random constant_hashlib
                  "America/Chicago" (fun _ => 0%N) (fun _ => 1%N) "" 3)).
  vm_compute. reflexivity.
Defined.

End FingerprintExtra.

(** ** The browser pool *)

Module PoolExtra.
Import Pool.

Lemma run_app (a b : list (nat * event)) (s : System) :
  run (a ++ b) s
  = match run a s with
    | Some s1 => run b s1
    | None => None
    end.
Proof.
  revert s. induction a as [|[i e] a IH]; intros s; simpl; [reflexivity |].
  destruct (fire i e s); [apply IH | reflexivity].
Qed.

(** One step adds one request exactly when it is a [Resume], and never
    lets [_active_count] exceed [_total_requests]. *)
Lemma fire_requests (i : nat) (e : event) (s s' : System) :
  fire i e s = Some s' ->
  _total_requests (pool s')
  = (_total_requests (pool s) + entries [(i, e)])%Z /\
  (_active_count (pool s) <= _total_requests (pool s) ->
   _active_count (pool s') <= _total_requests (pool s'))%Z.
Proof.
  unfold fire, entries.
  destruct (tasks s !! i) as [p|]; [| discriminate].
  destruct p, e; try discriminate;
    try (destruct (0 <? _semaphore (pool s))%Z; [| discriminate]);
    intros [= <-]; simpl; split; lia.
Qed.

Lemma run_requests (sched : list (nat * event)) (s s' : System) :
  run sched s = Some s' ->
  _total_requests (pool s')
  = (_total_requests (pool s) + entries sched)%Z /\
  (_active_count (pool s) <= _total_requests (pool s) ->
   _active_count (pool s') <= _total_requests (pool s'))%Z.
Proof.
  revert s. induction sched as [|[i e] rest IH]; intros s Hrun.
  - injection Hrun as <-. unfold entries. simpl. split; lia.
  - simpl in Hrun. destruct (fire i e s) as [s1|] eqn:Hfire; [| discriminate].
    destruct (fire_requests i e s s1 Hfire) as [Ht Ha].
    destruct (IH s1 Hrun) as [Ht' Ha'].
    unfold entries in *. simpl in *.
    destruct (is_resume (i, e)); simpl in *; split; lia.
Qed.

(** X10: what [status()] reports after any interleaving on a pool of
    [K] leases: [active + available = max_browsers = K] with both between 0
    and [K]; [total_requests] is the number of times a task was let into
    [acquire] so far, is never below [active], and never decreases as the
    interleaving goes on. *)
Theorem status_counters (K : Z) (n : nat) (sched more : list (nat * event))
    (s0 s s' : System) :
  initial K n = Some s0 ->
  run sched s0 = Some s ->
  run more s = Some s' ->
  st_max_browsers (status (pool s)) = K /\
  (st_active (status (pool s)) + st_available (status (pool s)) = K)%Z /\
  (0 <= st_active (status (pool s)) <= K)%Z /\
  (0 <= st_available (status (pool s)) <= K)%Z /\
  st_total_requests (status (pool s)) = entries sched /\
  (st_active (status (pool s)) <= st_total_requests (status (pool s)))%Z /\
  (st_total_requests (status (pool s))
   <= st_total_requests (status (pool s')))%Z.
Proof.
  intros Hinit Hrun Hmore.
  pose proof (PoolProofs.initial_accounted K n s0 Hinit) as Hacc0.
  pose proof (PoolProofs.run_accounted K sched s0 s Hacc0 Hrun)
    as (Hmax & Hact & Hsem & Hpos).
  pose proof (PoolProofs.leases_within_slots s) as Hle.
  destruct (run_requests sched s0 s Hrun) as [Htotal Hbound].
  destruct (run_requests more s s' Hmore) as [Htotal' _].
  assert (Hstart : _total_requests (pool s0) = 0%Z /\
                   _active_count (pool s0) = 0%Z).
  { unfold initial, new_pool in Hinit.
    destruct (K <? 0)%Z; [discriminate |].
    injection Hinit as <-. split; reflexivity. }
  destruct Hstart as [Ht0 Ha0].
  assert (Hentries : (0 <= entries more)%Z) by (unfold entries; lia).
  unfold status. simpl. repeat split; lia.
Qed.

Lemma status_counters_witness :
  st_max_browsers (status (pool example_reached)) = 1%Z /\
  (st_active (status (pool example_reached))
   + st_available (status (pool example_reached)) = 1)%Z /\
  (0 <= st_active (status (pool example_reached)) <= 1)%Z /\
  (0 <= st_available (status (pool example_reached)) <= 1)%Z /\
  st_total_requests (status (pool example_reached))
  = entries example_schedule /\
  (st_active (status (pool example_reached))
   <= st_total_requests (status (pool example_reached)))%Z /\
  (st_total_requests (status (pool example_reached))
   <= st_total_requests (status (pool example_reached)))%Z.
Proof.
  apply (status_counters 1 2 example_schedule [] example_start
                         example_reached example_reached);
    vm_compute; reflexivity.
Defined.

(** *** Waiters are not stuck *)

Lemma count_tasks_pos (f : pc -> bool) (l : list pc) :
  (0 < count_tasks f l)%nat -> exists j p, l !! j = Some p /\ f p = true.
Proof.
  unfold count_tasks. induction l as [|x l IH]; simpl; [lia |].
  destruct (f x) eqn:Hf.
  - intros _. exists 0%nat, x. split; [reflexivity | exact Hf].
  - intros Hpos. destruct (IH Hpos) as (j & p & Hj & Hp).
    exists (S j), p. split; [exact Hj | exact Hp].
Qed.

Lemma set_task_twice (j : nat) (p q : pc) (s : System) (b b' : BrowserPool) :
  set_task j q (set_task j p s b) b' = set_task j q s b'.
Proof.
  unfold set_task. simpl. rewrite list_insert_insert_eq. reflexivity.
Qed.

(** A slot holder that runs to the end of its block frees one slot and
    moves no other task. *)
Lemma finish_path_frees (j : nat) (p : pc) (s : System) :
  tasks s !! j = Some p -> holds_slot p = true ->
  exists b,
    run (map (fun e => (j, e)) (finish_path (_initialized (pool s)) p)) s
    = Some (set_task j (Exited Returned) s b) /\
    _semaphore b = (_semaphore (pool s) + 1)%Z.
Proof.
  intros Hp Hslot.
  assert (Hlt : j < List.length (tasks s)) by (eapply lookup_lt_Some; eauto).
  assert (Hget : forall q b, tasks (set_task j q s b) !! j = Some q)
    by (intros q b; unfold set_task; simpl;
        apply list_lookup_insert_eq; exact Hlt).
  destruct p; try discriminate Hslot; simpl.
  - (* Granted *)
    destruct (_initialized (pool s)) eqn:Hinit; simpl;
      unfold fire at 1; rewrite Hp; simpl; rewrite Hinit;
      unfold fire at 1; rewrite Hget; simpl.
    + eexists. rewrite set_task_twice. split; [reflexivity |]. simpl. lia.
    + unfold fire at 1. rewrite set_task_twice, Hget. simpl.
      eexists. rewrite set_task_twice. split; [reflexivity |]. simpl. lia.
  - (* Initializing *)
    unfold fire at 1. rewrite Hp. simpl.
    unfold fire at 1. rewrite Hget. simpl.
    eexists. rewrite set_task_twice. split; [reflexivity |]. simpl. lia.
  - (* InBody *)
    unfold fire at 1. rewrite Hp. simpl.
    eexists. split; [reflexivity |]. simpl. lia.
Qed.

(** X11: a task that is the only one waiting on the semaphore of a pool
    with at least one lease is never stuck for good: either the semaphore
    can let it in at once, or some other task holds a slot, and once that
    task has run to the end of its block (at most three of its own steps)
    the semaphore lets the waiter in, and no task is left waiting. The
    semaphore wakes its waiters in the order they arrived, which the step
    relation does not record; with a single waiter there is no order to
    respect. *)
Theorem waiter_can_be_granted (K : Z) (n : nat)
    (sched : list (nat * event)) (s0 s : System) (i : nat) :
  initial K n = Some s0 ->
  run sched s0 = Some s ->
  (0 < K)%Z ->
  tasks s !! i = Some Waiting ->
  count_tasks is_waiting (tasks s) = 1%nat ->
  exists (path : list (nat * event)) (s1 s2 : System),
    List.length path <= 3 /\
    Forall (fun step => fst step <> i) path /\
    run path s = Some s1 /\
    fire i Grant s1 = Some s2 /\
    tasks s2 !! i = Some Granted /\
    count_tasks is_waiting (tasks s2) = 0%nat.
Proof.
  intros Hinit Hrun HK Hwait Hsole.
  pose proof (PoolProofs.initial_accounted K n s0 Hinit) as Hacc0.
  pose proof (PoolProofs.run_accounted K sched s0 s Hacc0 Hrun)
    as (Hmax & Hact & Hsem & Hpos).
  assert (Hi : i < List.length (tasks s)) by (eapply lookup_lt_Some; eauto).
  destruct (0 <? _semaphore (pool s))%Z eqn:Hfree.
  - exists [], s. eexists. split; [simpl; lia |].
    split; [constructor |]. split; [reflexivity |].
    unfold fire. rewrite Hwait, Hfree. split; [reflexivity |].
    unfold set_task. simpl.
    split; [apply list_lookup_insert_eq; exact Hi |].
    pose proof (PoolProofs.count_tasks_insert is_waiting (tasks s) i
                  Waiting Granted Hwait) as Hcount.
    simpl in Hcount. lia.
  - apply Z.ltb_ge in Hfree.
    assert (Hheld : (0 < count_tasks holds_slot (tasks s))%nat)
      by (unfold slots_taken in Hsem; lia).
    destruct (count_tasks_pos _ _ Hheld) as (j & p & Hj & Hslot).
    assert (Hji : j <> i).
    { intros ->. rewrite Hwait in Hj. injection Hj as <-.
      discriminate Hslot. }
    destruct (finish_path_frees j p s Hj Hslot) as (b & Hpath & Hb).
    eexists. eexists. eexists.
    split; [| split; [| split; [exact Hpath |]]].
    + rewrite length_map. destruct p; simpl; try lia.
      destruct (_initialized (pool s)); simpl; lia.
    + apply List.Forall_map. apply List.Forall_forall.
      intros e _. exact Hji.
    + assert (Hwait' : tasks (set_task j (Exited Returned) s b) !! i
                       = Some Waiting).
      { unfold set_task. simpl.
        rewrite list_lookup_insert_ne by exact Hji. exact Hwait. }
      unfold fire. rewrite Hwait'. simpl.
      replace (0 <? _semaphore b)%Z with true
        by (symmetry; apply Z.ltb_lt; lia).
      split; [reflexivity |].
      unfold set_task. simpl.
      split; [apply list_lookup_insert_eq; rewrite length_insert; exact Hi |].
      pose proof (PoolProofs.count_tasks_insert is_waiting (tasks s) j
                    p (Exited Returned) Hj) as Hleft.
      pose proof (PoolProofs.count_tasks_insert is_waiting
                    (<[j := Exited Returned]> (tasks s)) i
                    Waiting Granted Hwait') as Hcount.
      assert (Hp : is_waiting p = false)
        by (destruct p; try reflexivity; discriminate Hslot).
      rewrite Hp in Hleft. cbn [Nat.b2n is_waiting] in Hleft, Hcount.
      assert (Harith : forall a c t : nat,
                 t = 1%nat -> (a + 0 = t + 0)%nat -> (c + 1 = a + 0)%nat ->
                 c = 0%nat) by (intros; lia).
      exact (Harith _ _ _ Hsole Hleft Hcount).
Qed.

Lemma waiter_can_be_granted_witness :
  exists (path : list (nat * event)) (s1 s2 : System),
    List.length path <= 3 /\
    Forall (fun step => fst step <> 1%nat) path /\
    run path example_reached = Some s1 /\
    fire 1 Grant s1 = Some s2 /\
    tasks s2 !! 1%nat = Some Granted /\
    count_tasks is_waiting (tasks s2) = 0%nat.
Proof.
  apply (waiter_can_be_granted 1 2 example_schedule example_start
                               example_reached 1);
    [vm_compute; reflexivity | vm_compute; reflexivity | lia
    | reflexivity | reflexivity].
Defined.

End PoolExtra.

(** ** The queue manager *)

Module QueueExtra.
Import Queue PyFacts.

Section WithJson.
Context `{PyJson}.

(** *** What [dequeue] does to the store *)

Lemma dequeue_store (q : QueueManager) :
  hashes (_redis (snd (dequeue q))) = hashes (_redis q) /\
  job_queue (_redis (snd (dequeue q)))
  = (if _connected q then tl (job_queue (_redis q))
     else job_queue (_redis q)) /\
  _connected (snd (dequeue q)) = _connected q.
Proof.
  unfold dequeue, zpopmin.
  destruct (_connected q) eqn:Hconn; simpl; [| auto].
  destruct (job_queue (_redis q)) as [|[id p] rest] eqn:Hqueue; simpl.
  - rewrite Hqueue, Hconn. auto.
  - destruct (size _ =? 0)%nat; simpl; [auto |].
    destruct (json_loads _); simpl; [| auto].
    destruct (priority_field _); simpl; auto.
Qed.

Lemma enqueue_connected (id : string) (d : json) (p : Z)
    (q : QueueManager) :
  _connected (snd (enqueue id d p q)) = _connected q.
Proof. unfold enqueue. destruct (_connected q) eqn:Hconn; exact Hconn. Qed.

(** X12: a manager that is not connected degrades to no-ops: [enqueue]
    answers [False] and only logs a warning, [dequeue] and [get_job] answer
    [None], [queue_length] answers 0, [update_status] sends nothing, and
    none of them touches the store. *)
Theorem disconnected_is_noop (q : QueueManager) (id status : string)
    (d : json) (p : Z) (result : option (list (string * json)))
    (error : option string) :
  _connected q = false ->
  enqueue id d p q
  = (false, log WARNING "Redis not connected, job stored in memory only" q) /\
  dequeue q = (None, q) /\
  get_job id q = (None, q) /\
  queue_length q = 0 /\
  update_status id status result error q = ([], q).
Proof.
  intros Hconn.
  unfold enqueue, dequeue, get_job, queue_length, update_status.
  rewrite Hconn. simpl. repeat split; reflexivity.
Qed.

(** *** Records *)

Lemma enqueue_hash (id : string) (d : json) (p : Z) (q : QueueManager) :
  _connected q = true ->
  hgetall ("job:" +:+ id) (_redis (snd (enqueue id d p q)))
  = <["priority" := str_of_int p]>
      (<["status" := "pending"]>
         (<["data" := json_dumps d]> (hgetall ("job:" +:+ id) (_redis q)))).
Proof.
  intros Hconn. unfold enqueue. rewrite Hconn. simpl.
  unfold hgetall. simpl. rewrite lookup_insert_eq. reflexivity.
Qed.

Lemma insert_nonempty (h : gmap string string) (k v : string) :
  (size (<[k := v]> h) =? 0)%nat = false.
Proof.
  apply Nat.eqb_neq. intros Hsize. apply map_size_empty_iff in Hsize.
  apply (f_equal (fun m => m !! k)) in Hsize.
  rewrite lookup_insert_eq, lookup_empty in Hsize. discriminate Hsize.
Qed.

(** X13: round trip through the store: after [enqueue(id, data, p)] on a
    connected manager, [get_job(id)] returns status ["pending"], priority
    [p] and the payload, provided the payload survives JSON; a [result]
    stored for an earlier use of the id must be absent, and an [error]
    stored earlier is still reported. *)
Theorem enqueue_then_get_job (id : string) (d : json) (p : Z)
    (q : QueueManager) :
  _connected q = true ->
  json_loads (json_dumps d) = Ok d ->
  json_dumps d <> "" ->
  hgetall ("job:" +:+ id) (_redis q) !! "result" = None ->
  let q1 := snd (enqueue id d p q) in
  fst (enqueue id d p q) = true /\
  get_job id q1
  = (Some (mkJobView id (Some "pending") p (Some d) None
             (match hgetall ("job:" +:+ id) (_redis q) !! "error" with
              | Some (String c s) => Some (String c s)
              | _ => None
              end)),
     q1).
Proof.
  intros Hconn Hload Hdump Hres q1.
  split; [unfold enqueue; rewrite Hconn; reflexivity |].
  unfold get_job. subst q1.
  rewrite enqueue_connected, Hconn. simpl negb. cbv iota.
  rewrite (enqueue_hash id d p q Hconn).
  rewrite insert_nonempty.
  unfold priority_field. rewrite lookup_insert_eq, int_of_str_of_int.
  unfold load_field.
  rewrite !(lookup_insert_ne _ "priority") by discriminate.
  rewrite !(lookup_insert_ne _ "status") by discriminate.
  rewrite lookup_insert_eq.
  rewrite !(lookup_insert_ne _ "data") by discriminate.
  rewrite (lookup_insert_eq _ "status").
  rewrite Hres.
  rewrite !(lookup_insert_ne _ _ "error") by discriminate.
  destruct (json_dumps d) as [|c s] eqn:Hd; [contradiction |].
  rewrite Hload. reflexivity.
Qed.

Lemma hgetall_hset (key : string) (mapping : list (string * string))
    (st : Store) :
  hgetall key (hset key mapping st)
  = foldl (fun h kv => <[fst kv := snd kv]> h) (hgetall key st) mapping.
Proof. unfold hgetall, hset. simpl. rewrite lookup_insert_eq. reflexivity. Qed.

Lemma hgetall_hset_ne (key key' : string) (mapping : list (string * string))
    (st : Store) :
  key <> key' -> hgetall key' (hset key mapping st) = hgetall key' st.
Proof.
  intros Hne. unfold hgetall, hset. simpl.
  rewrite lookup_insert_ne by exact Hne. reflexivity.
Qed.

(** X14: [update_status] merges into the record: the status is replaced; a
    non-empty result and a non-empty error are stored, an absent or empty
    one leaves what was stored before; all other fields, all other records
    and the queue itself are untouched; and a 24 hour expiry is requested
    exactly for the statuses ["completed"] and ["failed"]. *)
Theorem update_status_merges (id status : string)
    (result : option (list (string * json))) (error : option string)
    (q : QueueManager) :
  _connected q = true ->
  let q1 := snd (update_status id status result error q) in
  let before := hgetall ("job:" +:+ id) (_redis q) in
  let after := hgetall ("job:" +:+ id) (_redis q1) in
  fst (update_status id status result error q)
  = (if String.eqb status "completed" || String.eqb status "failed"
     then [("job:" +:+ id, 86400%Z)] else []) /\
  job_queue (_redis q1) = job_queue (_redis q) /\
  after !! "status" = Some status /\
  after !! "result"
  = match result with
    | Some (kv :: rest) => Some (json_dumps (JDict (kv :: rest)))
    | _ => before !! "result"
    end /\
  after !! "error"
  = (if truthy_opt error then error else before !! "error") /\
  (forall k, k <> "status" -> k <> "result" -> k <> "error" ->
             after !! k = before !! k) /\
  (forall id', id' <> id ->
               hgetall ("job:" +:+ id') (_redis q1)
               = hgetall ("job:" +:+ id') (_redis q)).
Proof.
  intros Hconn q1 before after. subst q1 before after.
  unfold update_status. rewrite Hconn. simpl negb. cbv iota.
  split; [reflexivity |]. split; [reflexivity |].
  cbn beta iota zeta delta [snd with_store _redis].
  split; [| split; [| split; [| split]]].
  5: { intros id' Hne. apply hgetall_hset_ne.
       intros Heq. apply QueueProofs.job_key_inj in Heq. congruence. }
  all: rewrite hgetall_hset;
    generalize (hgetall ("job:" +:+ id) (_redis q)); intros before;
    destruct result as [[|kv rest]|]; destruct error as [[|c e]|]; simpl;
    try (intros k Hs Hr He);
    repeat first
      [ rewrite lookup_insert_eq
      | rewrite lookup_insert_ne by (discriminate || congruence) ];
    reflexivity.
Qed.

(** *** The queue holds an id once *)

Lemma zinsert_length (e : string * Z) (l : list (string * Z)) :
  List.length (zinsert e l) = S (List.length l).
Proof.
  induction l as [|x l IH]; simpl; [reflexivity |].
  destruct (entry_ltb e x); simpl; [reflexivity | rewrite IH; reflexivity].
Qed.

Lemma zinsert_ids_NoDup (e : string * Z) (l : list (string * Z)) :
  ~ In (fst e) (map fst l) ->
  List.NoDup (map fst l) -> List.NoDup (map fst (zinsert e l)).
Proof.
  induction l as [|x l IH]; simpl; intros Hnew Hnd.
  - constructor; [auto | constructor].
  - destruct (entry_ltb e x); simpl.
    + constructor; [exact Hnew | exact Hnd].
    + inversion Hnd as [|? ? Hx Hrest]; subst.
      constructor.
      * intros Hin. apply List.in_map_iff in Hin as (y & Hy & Hin).
        apply QueueProofs.zinsert_In in Hin as [-> | Hin];
          [apply Hnew; left; congruence |].
        apply Hx. rewrite <- Hy. apply List.in_map. exact Hin.
      * apply IH; [tauto | exact Hrest].
Qed.

Lemma filter_ids (id : string) (l : list (string * Z)) :
  let kept := List.filter (fun x => negb (String.eqb (fst x) id)) l in
  ~ In id (map fst kept) /\
  (List.NoDup (map fst l) -> List.NoDup (map fst kept)) /\
  (forall x, In x (map fst kept) <-> x <> id /\ In x (map fst l)) /\
  (List.NoDup (map fst l) ->
   List.length kept
   = if existsb (String.eqb id) (map fst l)
     then pred (List.length l) else List.length l) /\
  (existsb (String.eqb id) (map fst l) = true -> l <> []).
Proof.
  induction l as [|[y p] l (Hout & Hnd & Hin & Hlen & _)]; simpl.
  - repeat split; try tauto; try constructor; discriminate.
  - destruct (String.eqb_spec y id) as [-> | Hne]; simpl.
    + rewrite String.eqb_refl. simpl.
      split; [exact Hout |]. split.
      { intros Hall. inversion Hall; auto. }
      split.
      { intros x. rewrite Hin. split; [tauto |].
        intros [Hx [-> | Hx']]; [contradiction | tauto]. }
      split; [| discriminate].
      intros Hall. inversion Hall as [|? ? Hfresh Hrest]; subst.
      rewrite (Hlen Hrest).
      destruct (existsb (String.eqb id) (map fst l)) eqn:Hex; [| reflexivity].
      apply List.existsb_exists in Hex as (z & Hz & Heq).
      apply String.eqb_eq in Heq. subst z. contradiction.
    + assert (Hneq : String.eqb id y = false)
        by (apply String.eqb_neq; congruence).
      rewrite Hneq. simpl.
      split; [intros [Heq | Hbad]; [congruence | exact (Hout Hbad)] |].
      split.
      { intros Hall. inversion Hall as [|? ? Hfresh Hrest]; subst.
        constructor; [| auto].
        intros Hbad. apply Hin in Hbad. tauto. }
      split.
      { intros x. rewrite Hin. split.
        - intros [<- | [Hx Hx']]; [split; [congruence | auto] | tauto].
        - intros [Hx [<- | Hx']]; [auto | tauto]. }
      split; [| discriminate].
      intros Hall. inversion Hall as [|? ? Hfresh Hrest]; subst.
      rewrite (Hlen Hrest).
      destruct (existsb (String.eqb id) (map fst l)) eqn:Hex; [| reflexivity].
      apply List.existsb_exists in Hex as (z & Hz & _).
      destruct l; [contradiction | reflexivity].
Qed.

Lemma enqueue_queue (id : string) (d : json) (p : Z) (q : QueueManager) :
  _connected q = true ->
  job_queue (_redis (snd (enqueue id d p q)))
  = zinsert (id, p)
      (List.filter (fun x => negb (String.eqb (fst x) id))
                   (job_queue (_redis q))).
Proof. intros Hconn. unfold enqueue. rewrite Hconn. reflexivity. Qed.

Lemma enqueue_NoDup (id : string) (d : json) (p : Z) (q : QueueManager) :
  List.NoDup (queued q) -> List.NoDup (queued (snd (enqueue id d p q))).
Proof.
  intros Hnd. unfold queued in *.
  destruct (_connected q) eqn:Hconn.
  - rewrite (enqueue_queue id d p q Hconn).
    destruct (filter_ids id (job_queue (_redis q))) as (Hout & Hkeep & _).
    apply zinsert_ids_NoDup; [exact Hout | exact (Hkeep Hnd)].
  - unfold enqueue. rewrite Hconn. exact Hnd.
Qed.

Lemma dequeue_NoDup (q : QueueManager) :
  List.NoDup (queued q) -> List.NoDup (queued (snd (dequeue q))).
Proof.
  intros Hnd. unfold queued in *.
  destruct (dequeue_store q) as (_ & -> & _).
  destruct (_connected q); [| exact Hnd].
  destruct (job_queue (_redis q)); [exact Hnd |].
  simpl in *. inversion Hnd; assumption.
Qed.

Lemma apply_ops_invariant (ops : list op) (q : QueueManager) :
  List.NoDup (queued q) ->
  List.NoDup (queued (apply_ops ops q)) /\
  _connected (apply_ops ops q) = _connected q.
Proof.
  unfold apply_ops. revert q.
  induction ops as [|o ops IH]; intros q Hnd; simpl; [auto |].
  destruct o as [[[id d] p]|]; simpl.
  - destruct (IH _ (enqueue_NoDup id d p q Hnd)) as [Hnd' Hconn'].
    split; [exact Hnd' |]. rewrite Hconn'. apply enqueue_connected.
  - destruct (IH _ (dequeue_NoDup q Hnd)) as [Hnd' Hconn'].
    split; [exact Hnd' |]. rewrite Hconn'.
    destruct (dequeue_store q) as (_ & _ & Hconn). exact Hconn.
Qed.

(** X15: the queue holds a job id at most once. After any sequence of
    enqueues and dequeues on a connected manager the queued ids are
    pairwise distinct; enqueueing an id that is already queued moves it to
    the new priority without lengthening the queue, and enqueueing a new id
    lengthens it by one. *)
Theorem enqueue_queues_once (url : string) (ops : list op) (id : string)
    (d : json) (p : Z) :
  let q := apply_ops ops (connected url) in
  let q1 := snd (enqueue id d p q) in
  List.NoDup (queued q) /\
  List.NoDup (queued q1) /\
  (forall x, In x (queued q1) <-> x = id \/ In x (queued q)) /\
  In (id, p) (job_queue (_redis q1)) /\
  (forall p', In (id, p') (job_queue (_redis q1)) -> p' = p) /\
  queue_length q1
  = (if existsb (String.eqb id) (queued q)
     then queue_length q else S (queue_length q)).
Proof.
  intros q q1.
  assert (Hstart : List.NoDup (queued (connected url))) by constructor.
  destruct (apply_ops_invariant ops (connected url) Hstart) as [Hnd Hconn].
  fold q in Hnd, Hconn. simpl in Hconn.
  pose proof (enqueue_NoDup id d p q Hnd) as Hnd1. fold q1 in Hnd1.
  pose proof (enqueue_queue id d p q Hconn) as Hq1. fold q1 in Hq1.
  destruct (filter_ids id (job_queue (_redis q)))
    as (Hout & _ & Hin & Hlen & Hne).
  split; [exact Hnd |]. split; [exact Hnd1 |].
  split; [| split; [| split]].
  - intros x. unfold queued. rewrite Hq1.
    split.
    + intros Hx. apply List.in_map_iff in Hx as (e & <- & He).
      apply QueueProofs.zinsert_In in He as [-> | He]; [left; reflexivity |].
      right. apply (List.in_map fst) in He. apply Hin in He. tauto.
    + intros Hx. destruct (String.eqb_spec x id) as [-> | Hxne].
      * apply List.in_map_iff. exists (id, p). split; [reflexivity |].
        apply QueueProofs.zinsert_In. left. reflexivity.
      * destruct Hx as [-> | Hx]; [contradiction |].
        assert (Hkept : In x (map fst
                  (List.filter (fun y => negb (String.eqb (fst y) id))
                               (job_queue (_redis q)))))
          by (apply Hin; auto).
        apply List.in_map_iff in Hkept as (e & <- & He).
        apply List.in_map. apply QueueProofs.zinsert_In. right. exact He.
  - rewrite Hq1. apply QueueProofs.zinsert_In. left. reflexivity.
  - intros p' Hp'. rewrite Hq1 in Hp'.
    apply QueueProofs.zinsert_In in Hp' as [[= ->] | Hp']; [reflexivity |].
    exfalso. apply Hout. apply (List.in_map fst) in Hp'. exact Hp'.
  - unfold queue_length, zcard. rewrite Hq1. unfold q1.
    rewrite enqueue_connected, Hconn. simpl.
    rewrite zinsert_length, (Hlen Hnd). unfold queued.
    destruct (existsb (String.eqb id) (map fst (job_queue (_redis q))))
      eqn:Hex; [| reflexivity].
    specialize (Hne eq_refl).
    destruct (job_queue (_redis q)); [contradiction | reflexivity].
Qed.

(** X16: [dequeue] removes the head of the queue unconditionally: on a
    connected manager the queue gets one shorter (if it was not empty) even
    when [dequeue] answers [None] because the record of the job is missing,
    and then the job is queued no more; and [dequeue] never writes to a
    record, so [get_job] answers afterwards what it answered before. *)
Theorem dequeue_always_pops (q : QueueManager) :
  _connected q = true ->
  queue_length (snd (dequeue q)) = pred (queue_length q) /\
  queued (snd (dequeue q)) = tl (queued q) /\
  (forall id, fst (get_job id (snd (dequeue q))) = fst (get_job id q)) /\
  (forall id p rest,
      job_queue (_redis q) = (id, p) :: rest ->
      hashes (_redis q) !! ("job:" +:+ id) = None ->
      dequeue q = (None, with_store q (mkStore (hashes (_redis q)) rest))).
Proof.
  intros Hconn.
  destruct (dequeue_store q) as (Hhashes & Hqueue & Hconn').
  rewrite Hconn in Hqueue, Hconn'.
  split; [| split; [| split]].
  - unfold queue_length, zcard. rewrite Hconn', Hconn, Hqueue. simpl.
    destruct (job_queue (_redis q)); reflexivity.
  - unfold queued. rewrite Hqueue.
    destruct (job_queue (_redis q)); reflexivity.
  - intros id. unfold get_job, hgetall.
    rewrite Hconn', Hconn, Hhashes. simpl.
    destruct (size _ =? 0)%nat; [reflexivity |].
    destruct (priority_field _); [| reflexivity].
    destruct (load_field _ "data"); [| reflexivity].
    destruct (load_field _ "result"); reflexivity.
  - intros id p rest Hq Hmissing.
    unfold dequeue, zpopmin. rewrite Hconn, Hq. simpl.
    unfold hgetall. simpl. rewrite Hmissing. reflexivity.
Qed.

End WithJson.

Lemma disconnected_is_noop_witness :
  let q := disconnect (@apply_ops empty_object_json example_ops
                         (connected "redis://localhost:6379")) in
  @enqueue empty_object_json "e" (JDict []) 5 q
  = (false, log WARNING "Redis not connected, job stored in memory only" q) /\
  @dequeue empty_object_json q = (None, q) /\
  @get_job empty_object_json "a" q = (None, q) /\
  queue_length q = 0 /\
  @update_status empty_object_json "a" "completed" None None q = ([], q).
Proof.
  intros q.
  apply (@disconnected_is_noop empty_object_json q "a" "completed"
           (JDict []) 5 None None).
  reflexivity.
Defined.

Lemma enqueue_then_get_job_witness :
  let q := @apply_ops empty_object_json example_ops
                      (connected "redis://localhost:6379") in
  let q1 := snd (@enqueue empty_object_json "e" (JDict []) 3 q) in
  fst (@enqueue empty_object_json "e" (JDict []) 3 q) = true /\
  @get_job empty_object_json "e" q1
  = (Some (mkJobView "e" (Some "pending") 3 (Some (JDict [])) None
             (match hgetall "job:e" (_redis q) !! "error" with
              | Some (String c s) => Some (String c s)
              | _ => None
              end)),
     q1).
Proof.
  intros q.
  apply (@enqueue_then_get_job empty_object_json "e" (JDict []) 3 q).
  - vm_compute. reflexivity.
  - reflexivity.
  - discriminate.
  - vm_compute. reflexivity.
Defined.

Lemma update_status_merges_witness :
  let q := @apply_ops empty_object_json example_ops
                      (connected "redis://localhost:6379") in
  let q1 := snd (@update_status empty_object_json "a" "failed" (Some [])
                   (Some "timeout") q) in
  hgetall "job:a" (_redis q1) !! "status" = Some "failed" /\
  hgetall "job:a" (_redis q1) !! "error" = Some "timeout" /\
  hgetall "job:a" (_redis q1) !! "result"
  = hgetall "job:a" (_redis q) !! "result" /\
  fst (@update_status empty_object_json "a" "failed" (Some [])
         (Some "timeout") q)
  = [("job:a", 86400%Z)].
Proof.
  intros q q1.
  destruct (@update_status_merges empty_object_json "a" "failed" (Some [])
              (Some "timeout") q)
    as (Hexpire & _ & Hstatus & Hresult & Herror & _).
  - vm_compute. reflexivity.
  - exact (conj Hstatus (conj Herror (conj Hresult Hexpire))).
Defined.

Lemma dequeue_always_pops_witness :
  let q := @apply_ops empty_object_json example_ops
                      (connected "redis://localhost:6379") in
  queue_length (snd (@dequeue empty_object_json q)) = pred (queue_length q) /\
  queued (snd (@dequeue empty_object_json q)) = tl (queued q).
Proof.
  intros q.
  destruct (@dequeue_always_pops empty_object_json q) as (Hlen & Hids & _).
  - vm_compute. reflexivity.
  - split; [exact Hlen | exact Hids].
Defined.

End QueueExtra.

(** ** Job records *)

Module JobsExtra.
Import Jobs.

Lemma process_job_effect (r : ref) (started finished : string)
    (work : Py.result json) (delivered : bool) (s : State) (j : JobRecord) :
  heap s !! r = Some j ->
  let j' := set_outcome work finished (set_running started j) in
  let s' := _process_job r started finished work delivered s in
  heap s' = <[r := j']> (heap s) /\
  _jobs s' = _jobs s /\
  background s' = background s /\
  sent s'
  = sent s ++ (if truthy_opt (callback_url j) && delivered
               then [mkCallback (default "" (callback_url j)) (job_id j)
                                (outcome_status work) (result j')
                                (error j')]
               else []).
Proof.
  intros Hj j' s'.
  assert (Hlt : r < List.length (heap s)) by (eapply lookup_lt_Some; exact Hj).
  subst s'. unfold _process_job, update, set_heap. rewrite Hj. simpl.
  rewrite list_lookup_insert_eq by exact Hlt. simpl.
  rewrite list_lookup_insert_eq by (rewrite length_insert; exact Hlt).
  rewrite list_insert_insert_eq.
  assert (Hcb : callback_url (set_outcome work finished
                                (set_running started j)) = callback_url j)
    by (destruct work; reflexivity).
  assert (Hid : job_id (set_outcome work finished
                          (set_running started j)) = job_id j)
    by (destruct work; reflexivity).
  assert (Hst : status (set_outcome work finished
                          (set_running started j)) = outcome_status work)
    by (destruct work; reflexivity).
  rewrite Hcb. unfold _send_callback.
  destruct (truthy_opt (callback_url j)), delivered; simpl;
    rewrite ?Hcb, ?Hid, ?Hst, ?app_nil_r; repeat split; reflexivity.
Qed.

Lemma process_job_steps (r : ref) (started finished : string)
    (work : Py.result json) (delivered : bool) (s : State) :
  _process_job r started finished work delivered s
  = finish_job r finished work delivered (start_job r started s).
Proof. reflexivity. Qed.

Lemma submit_job_effect (id now : string) (req : JobSubmitRequest)
    (s : State) :
  let s1 := snd (submit_job id now req s) in
  let job := mkJobRecord id PENDING (req_job_type req) (req_url req)
                (req_actions req) (req_extract req)
                (default (JDict []) (req_options req))
                (req_callback_url req) (req_priority req)
                None None now None None in
  heap s1 = heap s ++ [job] /\
  _jobs s1 = <[id := List.length (heap s)]> (_jobs s) /\
  background s1 = background s ++ [(id, List.length (heap s))] /\
  sent s1 = sent s /\
  heap s1 !! List.length (heap s) = Some job.
Proof.
  simpl. repeat split.
  rewrite lookup_app_r by lia. rewrite Nat.sub_diag. reflexivity.
Qed.

(** X17: a job can be followed through the status endpoint: right after
    [submit_job] it is reported pending and its task is scheduled; once the
    task has started it is reported running with its start time; once the
    task has run it is reported completed with the result, or failed with
    the message of the exception, with both timestamps; and the webhook, if
    one was asked for and the POST goes through, carries the same status. *)
Theorem job_lifecycle_through_status (id now started finished : string)
    (req : JobSubmitRequest) (work : Py.result json) (delivered : bool)
    (s : State) :
  let s1 := snd (submit_job id now req s) in
  let s2 := _process_job (List.length (heap s)) started finished work
                         delivered s1 in
  fst (submit_job id now req s)
  = mkJobSubmitResponse true (Some id) (Some (pending_count s1)) /\
  get_job_status id s1
  = Response (mkJobStatusResponse id PENDING (req_job_type req) (req_url req)
                None None now None None) /\
  In (id, List.length (heap s)) (background s1) /\
  get_job_status id (start_job (List.length (heap s)) started s1)
  = Response (mkJobStatusResponse id RUNNING (req_job_type req) (req_url req)
                None None now (Some started) None) /\
  (exists resp,
      get_job_status id s2 = Response resp /\
      r_job_id resp = id /\
      r_status resp = outcome_status work /\
      r_job_type resp = req_job_type req /\
      r_url resp = req_url req /\
      r_created_at resp = now /\
      r_started_at resp = Some started /\
      r_completed_at resp = Some finished /\
      match work with
      | Ok res => r_result resp = Some res /\ r_error resp = None
      | Raise e => r_error resp = Some e
      end) /\
  (if truthy_opt (req_callback_url req) && delivered
   then exists cb,
       sent s2 = sent s ++ [cb] /\
       cb_url cb = default "" (req_callback_url req) /\
       cb_job_id cb = id /\
       cb_status cb = outcome_status work /\
       match work with
       | Ok res => cb_result cb = Some res /\ cb_error cb = None
       | Raise e => cb_error cb = Some e
       end
   else sent s2 = sent s).
Proof.
  intros s1 s2.
  destruct (submit_job_effect id now req s) as (Hheap & Hjobs & Hbg & Hsent & Hj).
  fold s1 in Hheap, Hjobs, Hbg, Hsent, Hj.
  destruct (process_job_effect (List.length (heap s)) started finished work
              delivered s1 _ Hj) as (Hheap2 & Hjobs2 & _ & Hsent2).
  fold s2 in Hheap2, Hjobs2, Hsent2.
  assert (Hlt : List.length (heap s) < List.length (heap s1))
    by (eapply lookup_lt_Some; exact Hj).
  split; [reflexivity |].
  split.
  { unfold get_job_status, ref. rewrite Hjobs, lookup_insert_eq.
    cbv beta iota.
    rewrite Hj. reflexivity. }
  split.
  { rewrite Hbg. apply List.in_or_app. right. left. reflexivity. }
  split.
  { unfold get_job_status, start_job, update, ref. rewrite Hj. simpl _jobs.
    rewrite lookup_insert_eq. cbv beta iota. simpl heap.
    rewrite list_lookup_insert_eq by (rewrite <- Hheap; exact Hlt).
    reflexivity. }
  split.
  - unfold get_job_status, ref.
    rewrite Hjobs2, Hjobs, lookup_insert_eq. cbv beta iota.
    rewrite Hheap2, list_lookup_insert_eq by exact Hlt.
    eexists. split; [reflexivity |].
    destruct work; simpl; repeat split; reflexivity.
  - rewrite Hsent2, Hsent. simpl callback_url.
    destruct (truthy_opt (req_callback_url req) && delivered);
      [| apply app_nil_r].
    eexists. split; [reflexivity |].
    destruct work; simpl; repeat split; reflexivity.
Qed.

(** X18: submitting and processing a job leaves the other jobs alone: the
    status endpoint answers for them what it answered before. *)
Theorem other_jobs_untouched (id id' now started finished : string)
    (req : JobSubmitRequest) (work : Py.result json) (delivered : bool)
    (s : State) (resp : JobStatusResponse) :
  id' <> id ->
  get_job_status id' s = Response resp ->
  let s1 := snd (submit_job id now req s) in
  let s2 := _process_job (List.length (heap s)) started finished work
                         delivered s1 in
  get_job_status id' s1 = Response resp /\
  get_job_status id' s2 = Response resp.
Proof.
  intros Hne Hresp s1 s2.
  destruct (submit_job_effect id now req s) as (Hheap & Hjobs & _ & _ & Hj).
  fold s1 in Hheap, Hjobs, Hj.
  destruct (process_job_effect (List.length (heap s)) started finished work
              delivered s1 _ Hj) as (Hheap2 & Hjobs2 & _ & _).
  fold s2 in Hheap2, Hjobs2.
  unfold get_job_status in *.
  destruct (_jobs s !! id') as [r'|] eqn:Hid'; [| discriminate Hresp].
  destruct (heap s !! r') as [j'|] eqn:Hj'; [| discriminate Hresp].
  unfold ref in *.
  assert (Hlt : r' < List.length (heap s))
    by (eapply lookup_lt_Some; exact Hj').
  assert (H1 : heap s1 !! r' = Some j')
    by (rewrite Hheap, lookup_app_l by exact Hlt; exact Hj').
  rewrite Hjobs2, Hjobs, lookup_insert_ne by congruence.
  rewrite Hid'. cbv beta iota.
  rewrite Hheap2, list_lookup_insert_ne by lia.
  rewrite H1. split; exact Hresp.
Qed.

(** *** Queue position *)

Lemma submit_allocated (id now : string) (req : JobSubmitRequest)
    (s : State) :
  allocated s -> allocated (snd (submit_job id now req s)).
Proof.
  intros [Hjobs Hbg]. split; simpl; intros k r; rewrite length_app; simpl.
  - destruct (decide (k = id)) as [-> | Hne].
    + rewrite lookup_insert_eq. intros [= <-]. lia.
    + rewrite lookup_insert_ne by congruence.
      intros Hk. apply Hjobs in Hk. lia.
  - intros Hin. apply List.in_app_or in Hin as [Hin | [[= <- <-] | []]].
    + apply Hbg in Hin. lia.
    + lia.
Qed.

Lemma cancel_allocated (id : string) (s : State) :
  allocated s -> allocated (snd (cancel_job id s)).
Proof.
  intros [Hjobs Hbg]. unfold cancel_job.
  destruct (_jobs s !! id) as [r|]; [| split; assumption].
  destruct (heap s !! r) as [j|]; [| split; assumption].
  destruct (status j); try (split; assumption).
  split; simpl; [| exact Hbg].
  intros k r' Hk. apply lookup_delete_Some in Hk as [_ Hk].
  exact (Hjobs k r' Hk).
Qed.

Lemma update_allocated (r : ref) (f : JobRecord -> JobRecord) (s : State) :
  allocated s -> allocated (update r f s).
Proof.
  intros [Hjobs Hbg]. unfold update.
  destruct (heap s !! r) as [j|]; [| exact (conj Hjobs Hbg)].
  split; intros k r'; simpl; rewrite length_insert;
    [apply Hjobs | apply Hbg].
Qed.

Lemma finish_allocated (r : ref) (finished : string)
    (work : Py.result json) (delivered : bool) (s : State) :
  allocated s -> allocated (finish_job r finished work delivered s).
Proof.
  intros Hs. unfold finish_job.
  pose proof (update_allocated r (set_outcome work finished) s Hs) as Hs2.
  destruct (heap _ !! r) as [j|]; [| exact Hs2].
  destruct (truthy_opt (callback_url j)); [| exact Hs2].
  unfold _send_callback. destruct delivered; exact Hs2.
Qed.

Lemma apply_ops_allocated (ops : list op) (s : State) :
  allocated s -> allocated (apply_ops ops s).
Proof.
  unfold apply_ops. revert s.
  induction ops as [|o ops IH]; intros s Hs; simpl; [exact Hs |].
  apply IH.
  destruct o as [id now req | id | k started | k finished work d];
    simpl; unfold on_task.
  - apply submit_allocated. exact Hs.
  - apply cancel_allocated. exact Hs.
  - destruct (background s !! k) as [[? r]|]; [| exact Hs].
    apply update_allocated. exact Hs.
  - destruct (background s !! k) as [[? r]|]; [| exact Hs].
    apply finish_allocated. exact Hs.
Qed.

Lemma empty_allocated : allocated empty_state.
Proof.
  split; simpl; intros k r.
  - rewrite lookup_empty. discriminate.
  - intros [].
Qed.

Lemma filter_length_Permutation {A : Type} (f : A -> bool) (l l' : list A) :
  l ≡ₚ l' ->
  List.length (List.filter f l) = List.length (List.filter f l').
Proof.
  induction 1 as [| x l l' _ IH | x y l | l l' l'' _ IH1 _ IH2]; simpl.
  - reflexivity.
  - destruct (f x); simpl; rewrite IH; reflexivity.
  - destruct (f x), (f y); reflexivity.
  - rewrite IH1. exact IH2.
Qed.

(** X19: the position [submit_job] reports is the number of pending jobs
    with the new one counted in, whatever their priorities and whatever
    requests and task steps came before; it is at least 1, and running or
    finished jobs do not count. *)
Theorem submit_position_counts_pending (ops : list op)
    (id now : string) (req : JobSubmitRequest) :
  let s := apply_ops ops empty_state in
  _jobs s !! id = None ->
  sub_position (fst (submit_job id now req s))
  = Some (pending_count s + 1)%Z /\
  (1 <= pending_count s + 1)%Z.
Proof.
  intros s Hfresh.
  assert (Halloc : allocated s)
    by (apply apply_ops_allocated, empty_allocated).
  destruct Halloc as [Hjobs _].
  split; [| unfold pending_count; lia].
  simpl sub_position. f_equal.
  unfold pending_count. simpl heap. simpl _jobs.
  rewrite (filter_length_Permutation _ _ _
             (map_to_list_insert (_jobs s) id (List.length (heap s)) Hfresh)).
  simpl List.filter.
  rewrite lookup_app_r by lia. rewrite Nat.sub_diag. simpl.
  rewrite (List.filter_ext_in
             _ (fun kv => match heap s !! snd kv with
                          | Some j => status_eqb (status j) PENDING
                          | None => false
                          end)).
  - rewrite Nat2Z.inj_succ. reflexivity.
  - intros [k r] Hin. apply list_elem_of_In, elem_of_map_to_list in Hin.
    apply Hjobs in Hin. simpl.
    rewrite lookup_app_l by exact Hin. reflexivity.
Qed.

Lemma submit_position_counts_pending_witness :
  let s := apply_ops example_ops empty_state in
  sub_position (fst (submit_job "c41b7d02-9ae" "2024-01-01T00:01:00Z"
                                example_request s))
  = Some (pending_count s + 1)%Z /\
  (1 <= pending_count s + 1)%Z.
Proof.
  apply (submit_position_counts_pending example_ops).
  vm_compute. reflexivity.
Defined.

Lemma other_jobs_untouched_witness :
  let s := apply_ops example_ops empty_state in
  let s1 := snd (submit_job "c41b7d02-9ae" "2024-01-01T00:01:00Z"
                            example_request s) in
  let s2 := _process_job (List.length (heap s)) "2024-01-01T00:01:05Z"
                         "2024-01-01T00:01:09Z" (Ok (JDict [])) true s1 in
  let resp := mkJobStatusResponse "3f2a9c1e-7b4" FAILED "fetch"
                "https://example.com/" None
                (Some "net::ERR_NAME_NOT_RESOLVED") "2024-01-01T00:00:00Z"
                (Some "2024-01-01T00:00:05Z") (Some "2024-01-01T00:00:09Z") in
  get_job_status "3f2a9c1e-7b4" s1 = Response resp /\
  get_job_status "3f2a9c1e-7b4" s2 = Response resp.
Proof.
  intros s s1 s2 resp.
  apply (other_jobs_untouched "c41b7d02-9ae" "3f2a9c1e-7b4").
  - discriminate.
  - vm_compute. reflexivity.
Defined.

End JobsExtra.

(** ** The action routes *)

Module BrowseExtra.
Import Py Browse PyFacts.

Section WithEngine.
Context `{Engine}.

(** Runs through the nested [try] blocks of [browse_page], one engine call
    at a time, keeping the equation of each call. *)
Ltac run_browse_page :=
  unfold browse_page, get_browser_pool, start;
  match goal with
  | Hpool : app_browser_pool _ = _ |- _ => rewrite Hpool
  end;
  unfold try_except, try_finally, bind, engine, log, modify, gets, ret;
  cbn beta iota delta [w results logs];
  repeat match goal with
         | Heq : ?c = _ |- context [match ?c with | (_, _) => _ end] =>
             rewrite Heq; cbn beta iota delta [w results logs]
         | |- context [match ?c with | (_, _) => _ end] =>
             lazymatch c with
             | context [match _ with | (_, _) => _ end] => fail
             | execute_actions ?i ?l ?h ?f =>
                 let Hrun := fresh "Hrun" in
                 let Hres := fresh "Hres" in
                 let Hmap := fresh "Hmap" in
                 let f' := fresh "f" in
                 destruct (BrowseProofs.execute_actions_results l i h f)
                   as (f' & ? & Hrun & Hres & Hmap);
                 rewrite Hrun; simpl in Hres
             | _ =>
                 let Hcall := fresh "Hcall" in
                 destruct c as [[?|?] ?] eqn:Hcall;
                 repeat match goal with u : unit |- _ => destruct u end
             end;
             cbn beta iota delta [w results logs]
         end.

(** X20: once the browser is acquired, [browse_page] releases it on every
    path: the release is the last thing done to the world, whatever fails
    in between. When the context and the page were created, the context
    is closed just before the release; when [new_page] raises, the context
    that [new_context] created is not closed, the browser is released and
    the response reports the failure. (The browser is acquired from the
    pool the route has looked up.) *)
Theorem browse_page_cleans_up (request : Request) (req : BrowseRequest)
    (w0 w1 : world) :
  app_browser_pool request = true ->
  pool_acquire w0 = (Ok tt, w1) ->
  (exists resp f' w2,
      browse_page request req (start w0) = (Ok resp, f') /\
      w f' = snd (pool_release w2)) /\
  (forall w2 w3,
      browser_new_context w1 = (Ok tt, w2) ->
      context_new_page w2 = (Ok tt, w3) ->
      exists resp f' w4,
        browse_page request req (start w0) = (Ok resp, f') /\
        w f' = snd (pool_release (snd (context_close w4)))) /\
  (forall w2 w3 e,
      browser_new_context w1 = (Ok tt, w2) ->
      context_new_page w2 = (Raise e, w3) ->
      exists resp f',
        browse_page request req (start w0) = (Ok resp, f') /\
        resp_success resp = false /\
        w f' = snd (pool_release w3)).
Proof.
  intros Hpool Hacq. split; [| split].
  - run_browse_page.
    all: do 2 eexists.
    all: match goal with
         | Hr : pool_release ?x = (_, ?y) |- _ =>
             exists x; split; [reflexivity | rewrite Hr; reflexivity]
         end.
  - intros w2 w3 Hctx Hpage. run_browse_page.
    all: do 2 eexists.
    all: match goal with
         | Hc : context_close ?x = (_, ?y), Hr : pool_release ?y = (_, _)
           |- _ =>
             exists x; split; [reflexivity | rewrite Hc; simpl; rewrite Hr;
                                             reflexivity]
         end.
  - intros w2 w3 e Hctx Hpage. run_browse_page.
    all: do 2 eexists; split; [reflexivity |]; split; [reflexivity |].
    all: reflexivity.
Qed.


End WithEngine.

Lemma browse_page_cleans_up_witness :
  let req := mkBrowseRequest "https://down.example/" [extract_title]
                             None None in
  exists resp f' w2,
    @browse_page journal_engine (mkRequest true) req
                 (@start journal_engine []) = (Ok resp, f')
    /\ @w journal_engine f' = snd (@pool_release journal_engine w2).
Proof.
  intros req.
  exact (proj1 (@browse_page_cleans_up journal_engine (mkRequest true) req
                  [] ["acquire"] eq_refl eq_refl)).
Defined.


End BrowseExtra.

(** ** Settings *)

Module ConfigExtra.
Import Py Config.

Lemma lstrip_first (s : string) : first_nonspace (lstrip s) = true.
Proof.
  induction s as [|c s IH]; simpl; [reflexivity |].
  destruct (is_space c) eqn:Hc; [exact IH | simpl; rewrite Hc; reflexivity].
Qed.

Lemma lstrip_fix (s : string) : first_nonspace s = true -> lstrip s = s.
Proof.
  destruct s as [|c s]; simpl; [reflexivity |].
  destruct (is_space c); [discriminate | reflexivity].
Qed.

Lemma rstrip_cons (c : ascii) (s : string) :
  rstrip (String c s)
  = match rstrip s with
    | EmptyString => if is_space c then EmptyString else String c EmptyString
    | kept => String c kept
    end.
Proof. reflexivity. Qed.

Lemma rstrip_last (s : string) : last_nonspace (rstrip s) = true.
Proof.
  induction s as [|c s IH]; [reflexivity |].
  rewrite rstrip_cons.
  destruct (rstrip s) as [|d k] eqn:Hk.
  - destruct (is_space c) eqn:Hc; simpl; [reflexivity | rewrite Hc; reflexivity].
  - exact IH.
Qed.

Lemma rstrip_fix (s : string) : last_nonspace s = true -> rstrip s = s.
Proof.
  induction s as [|c s IH]; [reflexivity |].
  intros Hlast. rewrite rstrip_cons.
  destruct s as [|d s'].
  - simpl in *. destruct (is_space c); [discriminate | reflexivity].
  - rewrite IH by exact Hlast. reflexivity.
Qed.

Lemma rstrip_first (s : string) :
  first_nonspace s = true -> first_nonspace (rstrip s) = true.
Proof.
  destruct s as [|c s]; [reflexivity |]. intros Hc.
  rewrite rstrip_cons. simpl in Hc.
  destruct (rstrip s); [| exact Hc].
  destruct (is_space c) eqn:Hsp; [discriminate Hc |].
  simpl. rewrite Hsp. reflexivity.
Qed.

Lemma strip_first_last (s : string) :
  first_nonspace (strip s) = true /\ last_nonspace (strip s) = true.
Proof.
  unfold strip. split; [apply rstrip_first, lstrip_first | apply rstrip_last].
Qed.

Lemma strip_fix (s : string) :
  first_nonspace s = true -> last_nonspace s = true -> strip s = s.
Proof.
  intros Hf Hl. unfold strip. rewrite (lstrip_fix s Hf). apply rstrip_fix, Hl.
Qed.

Lemma strip_idempotent (s : string) : strip (strip s) = strip s.
Proof. destruct (strip_first_last s). apply strip_fix; assumption. Qed.

Lemma lstrip_blank (s : string) : blank s = true -> lstrip s = "".
Proof.
  induction s as [|c s IH]; simpl; [reflexivity |].
  destruct (is_space c); [exact IH | discriminate].
Qed.

Lemma strip_blank (s : string) : strip s = "" <-> blank s = true.
Proof.
  split.
  - unfold strip. induction s as [|c s IH]; simpl; [reflexivity |].
    destruct (is_space c) eqn:Hc; [exact IH |].
    rewrite rstrip_cons, Hc. destruct (rstrip s); discriminate.
  - intros Hb. unfold strip. rewrite lstrip_blank by exact Hb. reflexivity.
Qed.

Lemma rstrip_blank (s : string) : blank s = true -> rstrip s = "".
Proof.
  induction s as [|c s IH]; [reflexivity |]. simpl blank.
  intros Hb. apply andb_true_iff in Hb as [Hc Hs].
  rewrite rstrip_cons, (IH Hs), Hc. reflexivity.
Qed.

Lemma lstrip_app_blank (l s : string) :
  blank l = true -> lstrip (l +:+ s) = lstrip s.
Proof.
  induction l as [|c l IH]; simpl; [reflexivity |].
  intros Hb. apply andb_true_iff in Hb as [-> Hl]. exact (IH Hl).
Qed.

Lemma rstrip_app_blank (s r : string) :
  blank r = true -> rstrip (s +:+ r) = rstrip s.
Proof.
  intros Hr. induction s as [|c s IH]; [exact (rstrip_blank r Hr) |].
  change (String c s +:+ r) with (String c (s +:+ r)).
  rewrite !rstrip_cons, IH. reflexivity.
Qed.

Lemma strip_written (l n r : string) :
  strip l = "" -> strip r = "" -> strip n = n -> strip (l +:+ n +:+ r) = n.
Proof.
  intros Hl Hr Hn. apply strip_blank in Hl, Hr.
  unfold strip. rewrite lstrip_app_blank by exact Hl.
  destruct (strip_first_last n) as [Hf Hlast]. rewrite Hn in Hf, Hlast.
  destruct n as [|c n].
  - simpl. rewrite lstrip_blank by exact Hr. reflexivity.
  - rewrite lstrip_fix by exact Hf.
    rewrite rstrip_app_blank by exact Hr. apply rstrip_fix, Hlast.
Qed.

(** *** Characters *)

Lemma mem_char_app (c : ascii) (a b : string) :
  mem_char c (a +:+ b) = mem_char c a || mem_char c b.
Proof.
  induction a as [|d a IH]; simpl; [reflexivity |].
  rewrite IH, orb_assoc. reflexivity.
Qed.

Lemma mem_char_lstrip (c : ascii) (s : string) :
  mem_char c s = false -> mem_char c (lstrip s) = false.
Proof.
  induction s as [|d s IH]; simpl; [reflexivity |].
  intros Hm. apply orb_false_iff in Hm as [Hd Hs].
  destruct (is_space d); [exact (IH Hs) |].
  simpl. rewrite Hd, Hs. reflexivity.
Qed.

Lemma mem_char_rstrip (c : ascii) (s : string) :
  mem_char c s = false -> mem_char c (rstrip s) = false.
Proof.
  induction s as [|d s IH]; [reflexivity |].
  intros Hm. simpl in Hm. apply orb_false_iff in Hm as [Hd Hs].
  rewrite rstrip_cons. specialize (IH Hs).
  destruct (rstrip s) as [|e k].
  - destruct (is_space d); simpl; [reflexivity | rewrite Hd; reflexivity].
  - simpl in *. rewrite Hd. exact IH.
Qed.

Lemma mem_char_strip (c : ascii) (s : string) :
  mem_char c s = false -> mem_char c (strip s) = false.
Proof. intros Hm. apply mem_char_rstrip, mem_char_lstrip, Hm. Qed.

(** *** [split] *)

Lemma split_parts (sep : ascii) (s : string) :
  Forall (fun part => mem_char sep part = false) (split sep s) /\
  split sep s <> [].
Proof.
  induction s as [|c s [IH Hne]]; simpl.
  - split; [repeat constructor | discriminate].
  - destruct (Ascii.eqb c sep) eqn:Hc.
    + split; [constructor; [reflexivity | exact IH] | discriminate].
    + destruct (split sep s) as [|part parts]; [contradiction |].
      split; [| discriminate].
      inversion IH as [|? ? Hpart Hparts]; subst.
      constructor; [| exact Hparts].
      simpl. rewrite Ascii.eqb_sym, Hc. exact Hpart.
Qed.

Lemma split_without (sep : ascii) (s : string) :
  mem_char sep s = false -> split sep s = [s].
Proof.
  induction s as [|c s IH]; simpl; [reflexivity |].
  intros Hm. apply orb_false_iff in Hm as [Hc Hs].
  rewrite Ascii.eqb_sym, Hc, (IH Hs). reflexivity.
Qed.

Lemma split_app (sep : ascii) (a b : string) :
  mem_char sep a = false ->
  split sep (a +:+ String sep b) = a :: split sep b.
Proof.
  induction a as [|c a IH]; simpl.
  - intros _. rewrite Ascii.eqb_refl. reflexivity.
  - intros Hm. apply orb_false_iff in Hm as [Hc Ha].
    rewrite Ascii.eqb_sym, Hc, (IH Ha). reflexivity.
Qed.

Lemma split_concat (sep : ascii) (parts : list string) :
  parts <> [] ->
  Forall (fun part => mem_char sep part = false) parts ->
  split sep (String.concat (String sep "") parts) = parts.
Proof.
  induction parts as [|a parts IH]; [contradiction |].
  intros _ Hall. inversion Hall as [|? ? Ha Hrest]; subst.
  destruct parts as [|b parts].
  - simpl. apply split_without, Ha.
  - change (String.concat (String sep "") (a :: b :: parts))
      with (a +:+ String sep (String.concat (String sep "") (b :: parts))).
    rewrite split_app by exact Ha.
    rewrite IH by (discriminate || exact Hrest). reflexivity.
Qed.

Lemma stripped_parts (parts : list string) :
  let kept := map strip (List.filter (fun node => truthy (strip node))
                                     parts) in
  Forall (fun part => mem_char "," part = false) parts ->
  Forall clean_node kept /\
  (List.length kept <= List.length parts)%nat /\
  (kept = [] <-> Forall (fun part => strip part = "") parts).
Proof.
  intros kept Hparts. subst kept. split; [| split].
  - induction Hparts as [|part parts Hpart _ IH]; simpl; [constructor |].
    destruct (strip part) as [|d k] eqn:Hs; simpl; [exact IH |].
    constructor; [| exact IH].
    split; [rewrite Hs; discriminate |].
    split; [apply strip_idempotent | apply mem_char_strip, Hpart].
  - rewrite length_map. apply List.filter_length_le.
  - clear Hparts. split.
    + intros Hnil.
      induction parts as [|part parts IH]; [constructor |].
      simpl in Hnil. destruct (strip part) eqn:Hs; simpl in Hnil;
        [| discriminate Hnil].
      constructor; [exact Hs | exact (IH Hnil)].
    + intros Hall.
      induction Hall as [|part parts Hpart _ IH]; simpl; [reflexivity |].
      rewrite Hpart. simpl. exact IH.
Qed.

Lemma node_list_clean (st : Settings) :
  Forall clean_node (sacvpn_node_list st).
Proof.
  unfold sacvpn_node_list.
  destruct (SACVPN_NODES st) as [nodes|]; [| constructor].
  destruct (truthy nodes); [| constructor].
  destruct (split_parts "," nodes) as [Hparts _].
  exact (proj1 (stripped_parts _ Hparts)).
Qed.

Lemma ascii_text_lstrip (s : string) :
  ascii_text s = true -> ascii_text (lstrip s) = true.
Proof.
  induction s as [|c s IH]; simpl; [reflexivity |].
  intros Hs. apply andb_true_iff in Hs as [Hc Hr].
  destruct (is_space c); [exact (IH Hr) |].
  simpl. rewrite Hc, Hr. reflexivity.
Qed.

Lemma ascii_text_rstrip (s : string) :
  ascii_text s = true -> ascii_text (rstrip s) = true.
Proof.
  induction s as [|c s IH]; [reflexivity |].
  intros Hs. simpl in Hs. apply andb_true_iff in Hs as [Hc Hr].
  rewrite rstrip_cons. specialize (IH Hr).
  destruct (rstrip s) as [|d k].
  - destruct (is_space c); simpl; [reflexivity | rewrite Hc; reflexivity].
  - simpl in *. rewrite Hc. exact IH.
Qed.

Lemma ascii_text_split (sep : ascii) (s : string) :
  ascii_text s = true ->
  Forall (fun part => ascii_text part = true) (split sep s).
Proof.
  induction s as [|c s IH]; simpl; intros Hs; [repeat constructor |].
  apply andb_true_iff in Hs as [Hc Hr]. specialize (IH Hr).
  destruct (Ascii.eqb c sep); [constructor; [reflexivity | exact IH] |].
  destruct (split sep s) as [|part parts].
  - repeat constructor. simpl. rewrite Hc. reflexivity.
  - inversion IH as [|? ? Hpart Hparts]; subst.
    constructor; [| exact Hparts].
    simpl. rewrite Hc. exact Hpart.
Qed.

Lemma node_list_ascii (st : Settings) :
  ascii_text (default "" (SACVPN_NODES st)) = true ->
  Forall (fun node => ascii_text node = true) (sacvpn_node_list st).
Proof.
  intros Ha. unfold sacvpn_node_list.
  destruct (SACVPN_NODES st) as [nodes|]; [| constructor]. simpl in Ha.
  destruct (truthy nodes); [| constructor]. simpl negb. cbv iota.
  apply List.Forall_map. apply List.Forall_forall. intros part Hin.
  apply List.filter_In in Hin as [Hin _].
  pose proof (ascii_text_split "," nodes Ha) as Hall.
  apply (proj1 (List.Forall_forall _ _) Hall) in Hin.
  apply ascii_text_rstrip, ascii_text_lstrip, Hin.
Qed.

(** X22: for a [SACVPN_NODES] setting that is unset or ASCII text, every
    node of [sacvpn_node_list] is non-empty ASCII text, has no blank at
    either end and holds no comma; there are at most as many nodes as
    comma-separated parts; and the list is empty exactly when the setting
    is unset, empty, or made of blank parts only. *)
Theorem sacvpn_node_list_clean (st : Settings) :
  ascii_text (default "" (SACVPN_NODES st)) = true ->
  Forall clean_node (sacvpn_node_list st) /\
  Forall (fun node => ascii_text node = true) (sacvpn_node_list st) /\
  (forall nodes,
      SACVPN_NODES st = Some nodes ->
      (List.length (sacvpn_node_list st)
       <= List.length (split "," nodes))%nat) /\
  (sacvpn_node_list st = [] <->
   forall nodes, SACVPN_NODES st = Some nodes ->
                 Forall (fun part => strip part = "") (split "," nodes)).
Proof.
  intros Hascii.
  split; [apply node_list_clean |].
  split; [apply node_list_ascii, Hascii |].
  clear Hascii. unfold sacvpn_node_list.
  destruct (SACVPN_NODES st) as [nodes|].
  2: { split; [discriminate |].
       split; [discriminate | reflexivity]. }
  destruct nodes as [|c nodes].
  { simpl. split; [intros ? [= <-]; simpl; lia |].
    split; [| reflexivity].
    intros _ ? [= <-]. repeat constructor. }
  cbn beta iota delta [truthy negb].
  destruct (split_parts "," (String c nodes)) as [Hparts _].
  destruct (stripped_parts _ Hparts) as (_ & Hlen & Hnil).
  split.
  - intros ? [= <-]. exact Hlen.
  - rewrite Hnil. split.
    + intros Hall ? [= <-]. exact Hall.
    + intros Hall. exact (Hall _ eq_refl).
Qed.

Lemma sacvpn_node_list_clean_witness :
  let st := mkSettings true None (Some " 10.0.0.1:1080 ,, 10.0.0.2:1080") in
  Forall clean_node (sacvpn_node_list st) /\
  Forall (fun node => ascii_text node = true) (sacvpn_node_list st) /\
  (forall nodes,
      SACVPN_NODES st = Some nodes ->
      (List.length (sacvpn_node_list st)
       <= List.length (split "," nodes))%nat) /\
  (sacvpn_node_list st = [] <->
   forall nodes, SACVPN_NODES st = Some nodes ->
                 Forall (fun part => strip part = "") (split "," nodes)).
Proof.
  intros st.
  apply (sacvpn_node_list_clean st).
  reflexivity.
Defined.

Lemma filter_map_written (entries : list (string * string * string)) :
  Forall well_written entries ->
  map strip (List.filter (fun node => truthy (strip node))
                         (map written entries))
  = List.filter truthy (map node_of entries).
Proof.
  induction 1 as [|[[l n] r] entries (Hl & Hr & Hn & _) _ IH]; simpl;
    [reflexivity |].
  unfold written, node_of in *. simpl in *.
  rewrite (strip_written l n r Hl Hr Hn).
  destruct n; simpl; [exact IH |].
  rewrite (strip_written l _ r Hl Hr Hn), IH. reflexivity.
Qed.

(** X23: a list written as comma-separated entries, each a stripped
    address between optional blanks, is read back as these addresses in
    order; entries left blank are dropped. *)
Theorem sacvpn_node_list_reads_back (e : bool) (u : option string)
    (entries : list (string * string * string)) :
  Forall well_written entries ->
  sacvpn_node_list
    (mkSettings e u (Some (String.concat "," (map written entries))))
  = List.filter truthy (map node_of entries).
Proof.
  intros Hall. unfold sacvpn_node_list. simpl SACVPN_NODES.
  destruct (String.concat "," (map written entries)) as [|c s] eqn:Hcat.
  - simpl.
    destruct entries as [|x [|y entries]]; [reflexivity | |].
    + simpl in Hcat. inversion Hall as [|? ? (Hl & Hr & Hn & _) _]; subst.
      destruct x as [[l n] r]. unfold written, node_of in *. simpl in *.
      destruct l; [| discriminate Hcat]. destruct n; [reflexivity |].
      discriminate Hcat.
    + exfalso. simpl in Hcat.
      destruct (written x); discriminate Hcat.
  - cbn beta iota delta [truthy negb]. rewrite <- Hcat.
    rewrite split_concat.
    + apply filter_map_written, Hall.
    + destruct entries; [discriminate Hcat | discriminate].
    + apply List.Forall_map.
      eapply List.Forall_impl; [| exact Hall].
      intros x (_ & _ & _ & Hx). exact Hx.
Qed.

Lemma sacvpn_node_list_reads_back_witness :
  sacvpn_node_list
    (mkSettings true None
                (Some (String.concat "," (map written example_entries))))
  = List.filter truthy (map node_of example_entries).
Proof.
  apply (sacvpn_node_list_reads_back true None example_entries).
  unfold example_entries.
  repeat (apply List.Forall_cons; [vm_compute; auto |]).
  apply List.Forall_nil.
Defined.

(** *** The router built from the settings *)

Section WithRandom.
Context `{PyRandom}.
Import Classifier Router.

Lemma filtered_or_all_same {A : Type} (f : A -> bool) (l : list A) :
  (forall x, f x = true) -> filtered_or_all f l = l.
Proof.
  intros Hf. unfold filtered_or_all.
  assert (Hfilter : List.filter f l = l).
  { induction l as [|x l IH]; simpl; [reflexivity |].
    rewrite Hf, IH. reflexivity. }
  rewrite Hfilter. destruct l; reflexivity.
Qed.

(** X24: proxy mode ["sacvpn"] on a router just built from the settings,
    as [fetch_page] builds one for every request: without nodes it answers
    [None] and logs a warning; with nodes it draws with [random.choice]
    among all of them, since a new router has no health record and no
    last-used node, and answers ["socks5://" + node] for a clean node. *)
Theorem fresh_router_sacvpn (st : Settings) (url loc : string)
    (cls : option SiteClassification) (g : rng) (l : list log_record) :
  Url.netloc url = Some loc ->
  let nodes := sacvpn_node_list st in
  let home := if HOME_PROXY_ENABLED st then HOME_PROXY_URL st else None in
  let fresh :=
    mkState (new_router (HOME_PROXY_ENABLED st) (HOME_PROXY_URL st) nodes)
            g l in
  match nodes with
  | [] =>
      select url "sacvpn" cls fresh
      = (Ok None,
         mkState (self fresh) g
                 (l ++ [(WARNING, "No SACVPN nodes configured")]))
  | _ :: _ =>
      exists node g',
        choice nodes g = (Ok node, g') /\
        In node nodes /\
        clean_node node /\
        select url "sacvpn" cls fresh
        = (Ok (Some ("socks5://" +:+ node)),
           mkState (mkProxyRouter home nodes ∅ (Some node)) g' l)
  end.
Proof.
  intros Hloc nodes home fresh.
  assert (Hselect : select url "sacvpn" cls fresh = _get_sacvpn_node fresh)
    by (unfold select; rewrite Hloc; reflexivity).
  rewrite Hselect.
  pose proof (node_list_clean st) as Hclean. fold nodes in Hclean.
  subst fresh. unfold new_router. fold home.
  destruct nodes as [|n ns] eqn:Hnodes; [reflexivity |].
  destruct (RouterExtra.get_sacvpn_node_run home (n :: ns) ∅ None g l)
    as (node & g' & Hchoice & Hin & Hrun); [discriminate |].
  rewrite !filtered_or_all_same in Hchoice, Hin
    by (reflexivity || (intros x; rewrite lookup_empty; reflexivity)).
  exists node, g'. split; [exact Hchoice |]. split; [exact Hin |].
  split; [exact (proj1 (List.Forall_forall _ _) Hclean node Hin) |].
  rewrite Hrun. simpl forallb. rewrite lookup_empty. simpl.
  rewrite app_nil_r. reflexivity.
Qed.

End WithRandom.

Lemma fresh_router_sacvpn_witness :
  let st := mkSettings true None
              (Some (String.concat "," (map written example_entries))) in
  exists node g',
    @choice counter_random _ (sacvpn_node_list st) 0%N = (Ok node, g') /\
    In node (sacvpn_node_list st) /\
    clean_node node /\
    @Router.select counter_random "https://example.com/" "sacvpn" None
      (@Router.mkState counter_random
         (Router.new_router true None (sacvpn_node_list st)) 0%N [])
    = (Ok (Some ("socks5://" +:+ node)),
       @Router.mkState counter_random
         (Router.mkProxyRouter None (sacvpn_node_list st) ∅ (Some node))
         g' []).
Proof.
  intros st.
  exact (@fresh_router_sacvpn counter_random st "https://example.com/"
           "example.com" None 0%N [] eq_refl).
Defined.

End ConfigExtra.
